(* ===== verification/_CoqProject ===== *)
-Q . S2P
Prelude.v
Python.v
Postgres.v
Psycopg.v
Config.v
Connection.v
Populate.v
Reference.v
RoundTrips.v
Atomicity.v
Faults.v
Script.v
Race.v
Constraint.v
Sql.v
