(* ===== verification/Prelude.v ===== *)
(** * Verification of [src/spin_web_api_atlas/scripts/populate.py]

    The repository holds one Python script, [populate.py], which seeds the
    OHDSI WebAPI configuration database with one "source" record and its
    four "source_daimon" records, then asks the WebAPI service to reload
    its source cache over HTTP.  This development models the script and the
    libraries it calls as executable Rocq definitions and proves what the
    script guarantees.

    ** The program and its parts

    - Module-level code: [load_dotenv()] (line 17) merges the [.env] file
      into the process environment; [logging.basicConfig] has no effect on
      what is modelled beyond the log itself.
    - Configuration (lines 89-101): eight [os.getenv] reads into the dict
      [source_config], one more for the target schema.
    - Connection lifecycle [get_db_connection] (lines 23-43): a generator
      context manager around [psycopg2.connect] with rollback on error and
      close on every exit path.
    - [source_exists] (46-49), [create_source] (52-67),
      [create_source_daimons] (70-84): the three SQL statements.
    - [load_source_table] (87-120): the transaction, with the skip branch
      and the catch-all that turns any exception into [False].
    - [main] (123-131), [refresh_source_table] (133-138) and the
      [__main__] block (140-143): exit status and the HTTP refresh.

    ** Files, and how they correspond to the code

    - [Prelude] (this file): the state-and-exception monad [SE] every
      model runs in (a state-passing function returning [Ret] or [Raise]),
      its notations [x <- c ;; k] in [py_scope], [try/except] as
      [stry_except], [try/finally] as [stry_finally]; Hoare triples
      ([triple]) over it; the frame predicates [keeps R c] (a relation [R]
      holds from before to after) and [raises_only P c]; the hint
      databases [s2p] and [s2p_rw] and the tactic [frame_auto].
    - [Python]: the Python runtime as the script uses it: the exception
      classes ([except Exception] does not catch [SystemExit]),
      [os.getenv], dict subscription ([KeyError]), [load_dotenv()] with
      [override=False], [sys.exit], the exit status of the interpreter.
    - [Postgres]: the server: per schema the [source] and [source_daimon]
      rows and the [source_id] sequence ([schema_state]); a transaction is
      a list of pending writes over the committed state, read through
      [view] (read-your-writes at READ COMMITTED); [exec_stmt] runs the
      three statements of the script (SELECT by key, INSERT source
      RETURNING source_id, INSERT daimon) with the primary-key and
      foreign-key checks, and the unique constraint on [source_key] when
      the schema declares it ([sc_key_unique], [key_taken]); the sequence
      is not transactional.  The
      well-formedness of a schema ([wf_schema], [wf_db]), the transaction
      lemmas, and the equivalence [same_rows] (same rows, sequences
      aside) with its setoid instances.
    - [Psycopg]: the world the script runs in ([world]: environment,
      [.env] file, which connection parameters the server accepts,
      database, connection and cursor, the fault schedule, the HTTP
      endpoint, log and trace of external calls) and the [psycopg2],
      [requests] and [logging] calls as operations on it.  Every round
      trip to the server (connect, execute, commit, rollback) takes the
      next entry of [w_faults]: none, a failure, or a reply lost after
      the server acted.  The interface class [DbFrame R] says that every
      call keeps a relation [R]; its instance [io_frame] says that
      nothing touches the environment or the endpoint, under every
      fault.
    - [Config]: [source_config] and the schema name (lines 89-101).
    - [Connection]: [get_db_connection] (lines 23-43) with its two exits:
      [connect] raised (nothing to roll back or close) or the connection
      was opened (rollback on [Exception], close in [finally]);
      [with_cursor] for [conn.cursor(...)] as a [with] block.
    - [Populate]: [source_exists], [create_source],
      [create_source_daimons], the body of the [with] blocks [load_body]
      (and its two steps [check_step], [seed_step]) and
      [load_source_table]; their fault-free runs, the functional
      theorems, totality and idempotence.
    - [Reference]: [seed_ref], what one fault-free seeding does as a plain
      function of the committed database, and the equivalence of
      [load_source_table] with it.
    - [RoundTrips]: [uses_at_most n c], the number of round trips to the
      server (entries of the fault schedule) a computation may take, its
      rules along the monad, and the bound of nine for a run.
    - [Atomicity]: triples for each step under every fault; the abstract
      contract [load_contract] of the seeding and the refinement theorem;
      the invariant of unique keys; the type of the exceptions that reach
      line 118; read-your-writes inside a transaction.
    - [Faults]: [shifts n c w], a computation run behind [n] entries
      [None] of the fault schedule does what it does without faults; with
      it, the runs where only the reply to COMMIT is lost, or where the
      first daimon INSERT fails, for every world.
    - [Script]: [main], [refresh_source_table], the [__main__] block and
      the exit status of the process.
    - [Race]: two runs of the script at once, interleaved at the
      existence check: the race state (the shared world, the other
      run's session, how far each run has got), [run_schedule], and the
      counting machine [tally_run] that specifies what the runs do to
      the key, with the invariant [race_inv] of fault-free races.
    - [Constraint]: the two runs of [Race] on a schema that declares the
      unique constraint on [source_key].
    - [Sql]: the text that crosses the wire: the f-string queries of
      lines 48, 54-57 and 79-82 and their parameter tuples
      ([stmt_query]), psycopg2's client-side interpolation ([mogrify],
      [render]), and the server reading the text back ([parse_stmt],
      [split_statements]) against the grammar of the three statements.

    ** What the theorems show

    - Functional ([Populate]): on a fresh key, with no fault, a run
      commits one source row and the four daimon rows (0,cdm,0)
      (1,vocab,1) (2,results,1) (5,temp,0) and sends exactly the
      statements of [seed_stmts]; on a present key it commits nothing;
      two runs in a row are idempotent.
    - Totality and refinement ([Populate], [Atomicity]): under every
      fault schedule [load_source_table] returns a boolean, leaves no
      connection open, and commits all five rows or none
      ([load_contract]); on a schema without the unique constraint it
      keeps source keys unique.  These hold for every world; where they
      name the committed rows they are exact for a target schema that is
      a plain lower-case identifier, the case [Sql] shows the server
      reads as the modelled statements.
    - Faults ([Faults]): the spec's "False means nothing was written"
      fails for a COMMIT whose reply is lost: for every world with a
      fresh key, the run reports [False] over the five committed rows;
      and a run whose first daimon INSERT fails commits nothing but
      consumes an id of the sequence.
    - Script ([Script]): the exit status, and that the refresh request is
      sent only after a successful seeding, where the code departs from
      the spec.
    - Equivalence ([Reference]): without faults, [load_source_table] is
      the reference [seed_ref] on every well-formed database, the missing
      schema included.
    - Bounds ([RoundTrips]): at most nine round trips per run, reached
      when COMMIT fails.
    - Exceptions ([Atomicity]): only [psycopg2] errors reach the [except]
      of line 118; the dict subscripts never fail.
    - Concurrency ([Race], [Constraint]): for every schedule of two
      fault-free runs, the race refines the counting machine [tally_run]
      (a check answers whether a committed row carries the key; a seeding
      after a negative check adds one, or, under the unique constraint
      with the key present, raises [IntegrityError]).  Hence on a schema
      without the constraint two runs interleaved at the existence check
      insert the key twice, of the six interleavings exactly the four
      that run both checks first do so, and every run given two steps
      completes with [True]; with the constraint the second seeding fails
      with [IntegrityError] (the duplicate-row failure of spec section
      5) in exactly those four, and the key is committed once.
    - The SQL text ([Sql]): for a schema name that is a plain lower-case
      identifier, each query is one statement that the server reads back
      as the [stmt] the other files execute, whatever the parameter
      values hold, and so does every statement a fault-free run of
      [load_source_table] executes; this is the refinement that justifies
      modelling statements as [stmt] values.  A schema name with a
      semicolon makes the first query two statements.

    ** Bounds and fuel

    No definition needs fuel: the only recursion is structural, on lists
    (the daimon tuples of [executemany], the schedule of [Race] and of
    [tally_run]) and on strings (interpolation and reading in [Sql]); the
    script has no loop of its own, so [load_source_table] and [main] are
    total functions, and totality ([load_source_table_total]) is a
    theorem about the outcome, not only about termination.  Ids are [Z],
    drawn from the sequence one per run; the upper limit of the sequence
    and of the [source_id] column, whose type is fixed by the external
    WebAPI schema, is not modelled.

    ** What is not modelled

    - The server's full SQL grammar: [Sql] reads the three statements
      with the layout the code gives them and splits on [;] outside
      literals; other whitespace, comments and quoted identifiers are not
      lexed, and what an injected second statement does is not run.
      psycopg2 is modelled with [standard_conforming_strings] on, the
      server's default, where a backslash needs no escape.
    - The log format and timestamps of [logging.basicConfig]; messages
      are kept as strings.
    - The HTTP exchange beyond its outcome: a response with a status and
      a text, or a network failure.
    - Interleavings of two runs inside [create_source] and
      [create_source_daimons]: a seeding step runs its statements and its
      COMMIT while the other run waits, which is what PostgreSQL's row
      lock makes of a second INSERT of a constrained key; the race
      theorems are about fault-free runs.
*)

From stdpp Require Export base list gmap strings pretty.
From Stdlib Require Export ZArith.

Declare Scope py_scope.
Delimit Scope py_scope with py.

(** ** The outcome of a computation: a value or a raised exception *)

Inductive outcome (E A : Type) : Type :=
| Ret (a : A)
| Raise (e : E).
Arguments Ret {E A} a.
Arguments Raise {E A} e.

(** ** The state-and-exception monad

    [SE E S A] threads a state [S] and ends with a value of [A] or an
    exception of [E].  The state survives an exception, as the effects of
    a Python statement that raised do. *)

Definition SE (E S A : Type) : Type := S -> S * outcome E A.

Section Monad.
Context {E S : Type}.

Definition sret {A} (a : A) : SE E S A := fun s => (s, Ret a).

Definition sbind {A B} (c : SE E S A) (k : A -> SE E S B) : SE E S B :=
  fun s =>
    match c s with
    | (s', Ret a) => k a s'
    | (s', Raise e) => (s', Raise e)
    end.

Definition sraise {A} (e : E) : SE E S A := fun s => (s, Raise e).

Definition sget : SE E S S := fun s => (s, Ret s).

Definition smodify (f : S -> S) : SE E S unit := fun s => (f s, Ret tt).

(** [try: c except <class> as e: h e]: the handler runs on the
    exceptions [catches] accepts; the others propagate. *)
Definition stry_except {A} (catches : E -> bool) (c : SE E S A)
    (h : E -> SE E S A) : SE E S A :=
  fun s =>
    match c s with
    | (s', Raise e) => if catches e then h e s' else (s', Raise e)
    | r => r
    end.

(** [try: c finally: fin]: [fin] runs on every exit of [c]; an
    exception raised by [fin] replaces the outcome of [c]. *)
Definition stry_finally {A} (c : SE E S A) (fin : SE E S unit) : SE E S A :=
  fun s =>
    match c s with
    | (s1, r) =>
        match fin s1 with
        | (s2, Ret _) => (s2, r)
        | (s2, Raise e) => (s2, Raise e)
        end
    end.
(** The outcome of [c] as a value: what a Python block that catches
    around one call sees. *)
Definition scatch {A} (c : SE E S A) : SE E S (outcome E A) :=
  fun s => let '(s', r) := c s in (s', Ret r).
End Monad.

Notation "x <- c ;; k" := (sbind c (fun x => k))
  (at level 100, c at next level, right associativity) : py_scope.
Notation "c ;; k" := (sbind c (fun _ => k))
  (at level 100, right associativity) : py_scope.

(** ** Hoare triples over [SE]

    [triple P c Q]: from a state satisfying [P], [c] ends in a state and
    an outcome satisfying [Q].  The rules below are the proof system the
    component files use for properties that hold on every path. *)

Definition triple {E S A} (P : S -> Prop) (c : SE E S A)
    (Q : outcome E A -> S -> Prop) : Prop :=
  forall s, P s -> Q (c s).2 (c s).1.

Create HintDb s2p discriminated.
Create Rewrite HintDb s2p_rw.

Section Triples.
Context {E S : Type}.
Implicit Types (P : S -> Prop).

Lemma triple_ret {A} P (a : A) (Q : outcome E A -> S -> Prop) :
  (forall s, P s -> Q (Ret a) s) -> triple P (sret a) Q.
Proof. intros H s Hs. by apply H. Qed.

Lemma triple_raise {A} P (e : E) (Q : outcome E A -> S -> Prop) :
  (forall s, P s -> Q (Raise e) s) -> triple P (sraise e) Q.
Proof. intros H s Hs. by apply H. Qed.

Lemma triple_modify P f (Q : outcome E unit -> S -> Prop) :
  (forall s, P s -> Q (Ret tt) (f s)) -> triple P (smodify f) Q.
Proof. intros H s Hs. by apply H. Qed.

Lemma triple_consequence {A} P P' (c : SE E S A) (Q Q' : outcome E A -> S -> Prop) :
  triple P' c Q' ->
  (forall s, P s -> P' s) -> (forall r s, Q' r s -> Q r s) ->
  triple P c Q.
Proof. intros Hc HP HQ s Hs. apply HQ, Hc, HP, Hs. Qed.

(** Sequencing: the intermediate assertion [R] splits on the outcome;
    an exception of [c] must already satisfy the final [Q]. *)
Lemma triple_bind {A B} P (c : SE E S A) (k : A -> SE E S B) R Q :
  triple P c R ->
  (forall a, triple (R (Ret a)) (k a) Q) ->
  (forall e s, R (Raise e) s -> Q (Raise e) s) ->
  triple P (sbind c k) Q.
Proof.
  intros Hc Hk He s Hs. unfold sbind.
  specialize (Hc s Hs). destruct (c s) as [s' [a|e]]; simpl in *.
  - by apply Hk.
  - by apply He.
Qed.

Lemma triple_try_except {A} P catches (c : SE E S A) h R Q :
  triple P c R ->
  (forall a s, R (Ret a) s -> Q (Ret a) s) ->
  (forall e, catches e = true -> triple (R (Raise e)) (h e) Q) ->
  (forall e s, catches e = false -> R (Raise e) s -> Q (Raise e) s) ->
  triple P (stry_except catches c h) Q.
Proof.
  intros Hc Hok Hh Hno s Hs. unfold stry_except.
  specialize (Hc s Hs). destruct (c s) as [s' [a|e]]; simpl in *; [by apply Hok|].
  destruct (catches e) eqn:Ce; [by apply Hh | by apply Hno].
Qed.

Lemma triple_try_finally {A} P (c : SE E S A) fin R F Q :
  triple P c R ->
  (forall r, triple (R r) fin (F r)) ->
  (forall r s, F r (Ret tt) s -> Q r s) ->
  (forall r e s, F r (Raise e) s -> Q (Raise e) s) ->
  triple P (stry_finally c fin) Q.
Proof.
  intros Hc Hf Hok Herr s Hs. unfold stry_finally.
  specialize (Hc s Hs). destruct (c s) as [s1 r] eqn:E1; simpl in *.
  specialize (Hf r s1 Hc). destruct (fin s1) as [s2 [[]|e]]; simpl in *.
  - by apply Hok.
  - by eapply Herr.
Qed.
Lemma triple_get P (Q : outcome E S -> S -> Prop) :
  (forall s, P s -> Q (Ret s) s) -> triple P sget Q.
Proof. intros H s Hs. by apply H. Qed.

Lemma triple_catch {A} P (c : SE E S A) Q :
  triple P c Q -> triple P (scatch c) (fun r s => exists r0, r = Ret r0 /\ Q r0 s).
Proof. intros Hc s Hs. unfold scatch. specialize (Hc s Hs). destruct (c s). eauto. Qed.
End Triples.

(** ** Running a computation: equations used by [py_run] *)

Section Run.
Context {E S : Type}.

Lemma sbind_run {A B} (c : SE E S A) (k : A -> SE E S B) s :
  sbind c k s = match c s with
                | (s', Ret a) => k a s'
                | (s', Raise e) => (s', Raise e)
                end.
Proof. reflexivity. Qed.

Lemma sbind_ret_run {A B} (c : SE E S A) (k : A -> SE E S B) s s' a :
  c s = (s', Ret a) -> sbind c k s = k a s'.
Proof. intros H. by rewrite sbind_run, H. Qed.

Lemma sbind_raise_run {A B} (c : SE E S A) (k : A -> SE E S B) s s' e :
  c s = (s', Raise e) -> sbind c k s = (s', Raise e).
Proof. intros H. by rewrite sbind_run, H. Qed.

(** A call followed by [return f x] returned normally only if the call did. *)
Lemma sbind_sret_inv {A B} (c : SE E S A) (f : A -> B) s s' b :
  sbind c (fun x => sret (f x)) s = (s', Ret b) -> exists a, c s = (s', Ret a) /\ b = f a.
Proof. rewrite sbind_run. destruct (c s) as [s1 [a|e]]; intros [= -> <-]; eauto. Qed.

Lemma sbind_sret_snd_inv {A B} (c : SE E S A) (f : A -> B) s b :
  (sbind c (fun x => sret (f x)) s).2 = Ret b -> exists a, (c s).2 = Ret a /\ b = f a.
Proof. rewrite sbind_run. destruct (c s) as [s1 [a|e]]; simpl; intros [= <-]; eauto. Qed.

(** [return f x] after a call leaves the state the call left. *)
Lemma sbind_sret_fst {A B} (c : SE E S A) (f : A -> B) s :
  (sbind c (fun x => sret (f x)) s).1 = (c s).1.
Proof. rewrite sbind_run. by destruct (c s) as [s1 [a|e]]. Qed.

(** The monad law the proofs use to regroup a sequence of calls. *)
Lemma sbind_assoc_run {A B C} (c : SE E S A) (f : A -> SE E S B) (g : B -> SE E S C) s :
  sbind (sbind c f) g s = sbind c (fun x => sbind (f x) g) s.
Proof. unfold sbind. by destruct (c s) as [s' [a|e]]. Qed.

Lemma stry_except_ret_run {A} f (c : SE E S A) h s s' a :
  c s = (s', Ret a) -> stry_except f c h s = (s', Ret a).
Proof. intros H. unfold stry_except. by rewrite H. Qed.

Lemma stry_except_catch_run {A} f (c : SE E S A) h s s' e :
  c s = (s', Raise e) -> f e = true -> stry_except f c h s = h e s'.
Proof. intros H Hf. unfold stry_except. by rewrite H, Hf. Qed.

Lemma stry_finally_run {A} (c : SE E S A) fin s s1 s2 r :
  c s = (s1, r) -> fin s1 = (s2, Ret tt) -> stry_finally c fin s = (s2, r).
Proof. intros H Hf. unfold stry_finally. by rewrite H, Hf. Qed.

Lemma scatch_run {A} (c : SE E S A) s s' r :
  c s = (s', r) -> scatch c s = (s', Ret r).
Proof. intros H. unfold scatch. by rewrite H. Qed.
End Run.

(** ** Generic lemmas on lists shared by the components *)

Lemma existsb_app_single {A} (f : A -> bool) (l : list A) x :
  existsb f (l ++ [x]) = existsb f l || f x.
Proof. rewrite existsb_app. simpl. by destruct (f x), (existsb f l). Qed.

#[export] Hint Rewrite @existsb_app_single : s2p_rw.

(** An element satisfies [P] exactly when the elements filtered by [P]
    are not none. *)
Lemma existsb_filter_length {A} (P : A -> Prop) `{!forall x, Decision (P x)} (l : list A) :
  existsb (fun x => bool_decide (P x)) l = bool_decide (0 < length (filter P l)).
Proof.
  induction l as [|x l IH]; [done|]. simpl. rewrite filter_cons.
  destruct (decide (P x)); simpl.
  - by rewrite bool_decide_true.
  - by rewrite bool_decide_false.
Qed.

(** ** Frame properties over every path

    [keeps R c]: whatever path [c] takes, the state after is related to
    the state before by the preorder [R] (a field never written, a log
    that only grows).  [raises_only P c]: every exception [c] raises
    satisfies [P].  Both are closed under the combinators, so a whole
    program gets them from its primitive calls by [frame_auto]. *)

Definition keeps {E S A} (R : S -> S -> Prop) (c : SE E S A) : Prop :=
  forall s, R s (c s).1.

Definition raises_only {E S A} (P : E -> Prop) (c : SE E S A) : Prop :=
  forall s, match (c s).2 with Raise e => P e | Ret _ => True end.

Section Frames.
Context {E S : Type} (R : S -> S -> Prop) `{!PreOrder R}.

Lemma keeps_ret {A} (a : A) : keeps (E:=E) R (sret a).
Proof. intros s. simpl. reflexivity. Qed.

Lemma keeps_raise {A} (e : E) : keeps R (sraise (A:=A) e).
Proof. intros s. simpl. reflexivity. Qed.

Lemma keeps_get : keeps (E:=E) R sget.
Proof. intros s. simpl. reflexivity. Qed.

Lemma keeps_modify f : (forall s, R s (f s)) -> keeps (E:=E) R (smodify f).
Proof. intros H s. apply H. Qed.

Lemma keeps_bind {A B} (c : SE E S A) (k : A -> SE E S B) :
  keeps R c -> (forall a, keeps R (k a)) -> keeps R (sbind c k).
Proof.
  intros Hc Hk s. unfold sbind. specialize (Hc s).
  destruct (c s) as [s' [a|e]]; simpl in *; [|done]. etrans; [exact Hc|apply Hk].
Qed.

Lemma keeps_try_except {A} f (c : SE E S A) h :
  keeps R c -> (forall e, keeps R (h e)) -> keeps R (stry_except f c h).
Proof.
  intros Hc Hh s. unfold stry_except. specialize (Hc s).
  destruct (c s) as [s' [a|e]]; simpl in *; [done|].
  destruct (f e); simpl; [etrans; [exact Hc|apply Hh]|done].
Qed.

Lemma keeps_try_finally {A} (c : SE E S A) fin :
  keeps R c -> keeps R fin -> keeps R (stry_finally c fin).
Proof.
  intros Hc Hf s. unfold stry_finally. specialize (Hc s).
  destruct (c s) as [s1 r]; simpl in *. specialize (Hf s1).
  destruct (fin s1) as [s2 [[]|e]]; simpl in *; by etrans.
Qed.

Lemma keeps_catch {A} (c : SE E S A) : keeps R c -> keeps R (scatch c).
Proof. intros Hc s. unfold scatch. specialize (Hc s). by destruct (c s). Qed.
End Frames.

Section Raises.
Context {E S : Type}.
Implicit Types (P : E -> Prop).

Lemma raises_only_ret {A} P (a : A) : raises_only (S:=S) P (sret a).
Proof. done. Qed.

Lemma raises_only_raise {A} P (e : E) : P e -> raises_only (S:=S) (A:=A) P (sraise e).
Proof. intros H s. exact H. Qed.

Lemma raises_only_get P : raises_only (E:=E) (S:=S) P sget.
Proof. done. Qed.

Lemma raises_only_modify P f : raises_only (E:=E) (S:=S) P (smodify f).
Proof. done. Qed.

Lemma raises_only_bind {A B} P (c : SE E S A) (k : A -> SE E S B) :
  raises_only P c -> (forall a, raises_only P (k a)) -> raises_only P (sbind c k).
Proof.
  intros Hc Hk s. unfold sbind. specialize (Hc s).
  destruct (c s) as [s' [a|e]]; simpl in *; [apply Hk|done].
Qed.

(** An [except] clause for [f] lets through only what [f] rejects. *)
Lemma raises_only_try_except {A} P f (c : SE E S A) h :
  raises_only (fun e => f e = false -> P e) c ->
  (forall e, f e = true -> raises_only P (h e)) ->
  raises_only P (stry_except f c h).
Proof.
  intros Hc Hh s. unfold stry_except. specialize (Hc s).
  destruct (c s) as [s' [a|e]]; simpl in *; [done|].
  destruct (f e) eqn:Hf; [by apply Hh|by apply Hc].
Qed.

Lemma raises_only_try_finally {A} P (c : SE E S A) fin :
  raises_only P c -> raises_only P fin -> raises_only P (stry_finally c fin).
Proof.
  intros Hc Hf s. unfold stry_finally. specialize (Hc s).
  destruct (c s) as [s1 r]; simpl in *. specialize (Hf s1).
  by destruct (fin s1) as [s2 [[]|e]].
Qed.

Lemma raises_only_catch {A} P (c : SE E S A) : raises_only P (scatch c).
Proof. intros s. unfold scatch. by destruct (c s). Qed.

(** A block that catches the outcome of [c] and matches on it. *)
Lemma raises_only_bind_catch {A B} P P' (c : SE E S A) (k : outcome E A -> SE E S B) :
  raises_only P' c ->
  (forall a, raises_only P (k (Ret a))) ->
  (forall e, P' e -> raises_only P (k (Raise e))) ->
  raises_only P (sbind (scatch c) k).
Proof.
  intros Hc Hok Herr s. unfold sbind, scatch. specialize (Hc s).
  destruct (c s) as [s' [a|e]]; simpl in *; [apply Hok|by apply Herr].
Qed.

Lemma raises_only_weaken {A} P Q (c : SE E S A) :
  raises_only P c -> (forall e, P e -> Q e) -> raises_only Q c.
Proof. intros Hc HPQ s. specialize (Hc s). destruct (c s).2; auto. Qed.
End Raises.

#[export] Hint Resolve keeps_ret keeps_raise keeps_get keeps_bind keeps_try_except
  keeps_try_finally keeps_catch : s2p.
#[export] Hint Resolve raises_only_ret raises_only_get raises_only_modify raises_only_bind
  raises_only_try_finally raises_only_catch : s2p.

(** Close a [keeps] or [raises_only] goal over a composite program: split
    it along the combinators, case on the values the program matches on,
    and finish each primitive call with the [s2p] hints. *)
Ltac frame_auto :=
  repeat first
    [ progress intros
    | progress (cbv beta iota)
    | solve [eauto with s2p]
    | apply keeps_bind | apply keeps_try_except | apply keeps_try_finally
    | apply keeps_catch | apply keeps_ret | apply keeps_raise | apply keeps_get
    | match goal with |- raises_only _ (sbind (scatch _) _) => eapply raises_only_bind_catch end
    | apply raises_only_bind | apply raises_only_try_finally | apply raises_only_catch
    | apply raises_only_ret | apply raises_only_get | apply raises_only_modify
    | case_match
    | match goal with |- PreOrder _ => apply _ end ].

(** Case on the first [bool_decide] of the goal. *)
Ltac destruct_bool_decide :=
  match goal with |- context [bool_decide ?P] => destruct (bool_decide P) end.
