(* ===== verification/Python.v ===== *)
(** * The Python runtime as [populate.py] uses it

    The exception classes the script can meet, the split between
    [except Exception] and [SystemExit], [os.getenv] with a default,
    subscription of a dict, [load_dotenv()] and the exit status of the
    interpreter.  [PyM S] is the monad [SE] of [Prelude] with Python's
    exceptions. *)

From S2P Require Import Prelude.

(** ** Exceptions *)

(** The [psycopg2.Error] subclasses the database can raise. *)
Inductive db_error : Type :=
| OperationalError     (** server unreachable, connection lost, bad login *)
| InterfaceError       (** operation on a closed connection or cursor *)
| ProgrammingError     (** [UndefinedTable]: the schema or table is missing *)
| IntegrityError       (** primary-key or foreign-key violation *)
| InternalError.       (** [InFailedSqlTransaction]: statement after an error *)

#[export] Instance db_error_eq_dec : EqDecision db_error.
Proof. solve_decision. Defined.

Inductive exn : Type :=
| DatabaseError (e : db_error)     (** a [psycopg2.Error] *)
| KeyError (k : string)            (** [d[k]] on a dict without [k] *)
| TypeError                        (** [None[...]]: subscripting [None] *)
| RequestException                 (** [requests] connection error or timeout *)
| SystemExit (code : Z).           (** [sys.exit(code)] *)

#[export] Instance exn_eq_dec : EqDecision exn.
Proof. solve_decision. Defined.

(** [except Exception] catches every exception but [SystemExit], which
    derives from [BaseException] only. *)
Definition is_Exception (e : exn) : bool :=
  match e with
  | SystemExit _ => false
  | _ => true
  end.

Abbreviation PyM S A := (SE exn S A).

(** The exceptions [except Exception] catches. *)
Definition py_exception (e : exn) : Prop := is_Exception e = true.

(** An instance of [psycopg2.Error]: what the database calls raise. *)
Definition is_DatabaseError (e : exn) : bool :=
  match e with DatabaseError _ => true | _ => false end.

Definition db_exception (e : exn) : Prop := is_DatabaseError e = true.

(** [str(e)], as the f-strings of the log print it. *)
Definition db_error_str (e : db_error) : string :=
  match e with
  | OperationalError => "connection to server failed"
  | InterfaceError => "connection already closed"
  | ProgrammingError => "relation does not exist"
  | IntegrityError => "violates constraint"
  | InternalError => "current transaction is aborted"
  end.

Definition exn_str (e : exn) : string :=
  match e with
  | DatabaseError d => db_error_str d
  | KeyError k => "'" +:+ k +:+ "'"
  | TypeError => "'NoneType' object is not subscriptable"
  | RequestException => "Max retries exceeded"
  | SystemExit c => pretty c
  end.

(** ** Built-ins *)

Section Builtins.
Context {S : Type}.

(** [d[k]] *)
Definition py_getitem {V} (d : gmap string V) (k : string) : PyM S V :=
  match d !! k with
  | Some v => sret v
  | None => sraise (KeyError k)
  end.

(** [sys.exit(code)] raises [SystemExit]. *)
Definition sys_exit {A} (code : Z) : PyM S A := sraise (SystemExit code).
End Builtins.

(** [os.getenv(k, d)] *)
Definition getenv (env : gmap string string) (k d : string) : string :=
  default d (env !! k).

(** [load_dotenv()] with its default [override=False]: a variable of the
    [.env] file is added only where the process has not set it. *)
Definition load_dotenv (process dotenv : gmap string string) : gmap string string :=
  process ∪ dotenv.

(** The exit status of [python3 populate.py]: 0 when the module body
    completes, the code of an uncaught [SystemExit], and 1 for any other
    uncaught exception (the interpreter prints the traceback). *)
Definition exit_status {A} (r : outcome exn A) : Z :=
  match r with
  | Ret _ => 0
  | Raise (SystemExit c) => c
  | Raise _ => 1
  end.

(** ** Lemmas *)

Lemma getenv_set env k d v : env !! k = Some v -> getenv env k d = v.
Proof. unfold getenv. by intros ->. Qed.

Lemma getenv_unset env k d : env !! k = None -> getenv env k d = d.
Proof. unfold getenv. by intros ->. Qed.

Lemma py_getitem_run {S V} (d : gmap string V) k v (s : S) :
  d !! k = Some v -> py_getitem d k s = (s, Ret v).
Proof. unfold py_getitem. by intros ->. Qed.

#[export] Hint Resolve getenv_set getenv_unset : s2p.

Lemma py_getitem_keeps {S V} (R : S -> S -> Prop) `{!PreOrder R} (d : gmap string V) k :
  keeps R (py_getitem d k).
Proof. unfold py_getitem. case_match; intros s; simpl; reflexivity. Qed.

Lemma py_getitem_raises {S V} (d : gmap string V) k :
  raises_only (S:=S) py_exception (py_getitem d k).
Proof. unfold py_getitem. by case_match. Qed.

#[export] Hint Resolve py_getitem_raises : s2p.
#[export] Hint Extern 1 (keeps _ (py_getitem _ _)) => (apply py_getitem_keeps; apply _) : s2p.

Lemma py_exception_db e : py_exception (DatabaseError e).
Proof. done. Qed.

Lemma db_exception_py e : db_exception e -> py_exception e.
Proof. by destruct e. Qed.

Lemma db_exception_db e : db_exception (DatabaseError e).
Proof. done. Qed.

#[export] Hint Resolve py_exception_db db_exception_db db_exception_py : s2p.
