(* ===== verification/Postgres.v ===== *)
(** * The PostgreSQL server the script talks to

    The WebAPI schema is external to the repository; the script fixes the
    shape of what it touches through its SQL text (populate.py lines 48,
    54-57 and 79-82): a table [{schema}.source] whose [source_id] is drawn
    from a sequence, and a table [{schema}.source_daimon] whose
    [source_id] references it (spec section 6).  This file models each
    schema's two tables and its sequence, the three statements, and a
    transaction as a list of pending writes over the committed state:

    - a statement reads the committed state with the transaction's own
      writes applied ([view]) and appends its writes to the pending list;
    - [nextval] of the sequence is not transactional: the counter moves at
      once and a rollback does not bring it back (PostgreSQL's sequences);
    - commit applies the pending writes, rollback drops them.

    Whether a schema declares a unique constraint on [source_key] is part
    of its state ([sc_key_unique]), since spec section 5 leaves it to the
    deployment: with it, an INSERT of a key that the transaction's view
    already holds fails with [IntegrityError] ([key_taken]); without it,
    uniqueness rests on the script's existence check. *)

From S2P Require Import Prelude Python.

(** ** Rows and tables *)

(** The arguments of [psycopg2.connect] (populate.py lines 28-34). *)
Record conn_params := mk_conn_params {
  cp_host : string;
  cp_port : string;
  cp_database : string;
  cp_user : string;
  cp_password : string
}.

(** A row of [{schema}.source] (columns of the INSERT at line 55). *)
Record source_row := mk_source_row {
  source_id : Z;
  source_name : string;
  source_key : string;
  source_connection : string;
  source_dialect : string
}.

(** A row of [{schema}.source_daimon] (columns of the INSERT at line 80). *)
Record daimon_row := mk_daimon_row {
  sd_source_id : Z;
  daimon_type : Z;
  table_qualifier : string;
  priority : Z
}.

#[export] Instance source_row_eq_dec : EqDecision source_row.
Proof. solve_decision. Defined.
#[export] Instance daimon_row_eq_dec : EqDecision daimon_row.
Proof. solve_decision. Defined.

(** One schema: its two tables, in insertion order, the next value of the
    sequence behind [source.source_id], and whether the schema declares a
    unique constraint on [source.source_key].  The script does not create
    the schema; spec section 5 leaves the constraint to the deployment. *)
Record schema_state := mk_schema {
  sc_source : list source_row;
  sc_daimon : list daimon_row;
  sc_next_id : Z;
  sc_key_unique : bool
}.

Abbreviation database := (gmap string schema_state).

(** A row of a [RealDictCursor] result: column name to value. *)
Abbreviation row := (gmap string Z).

(** ** Writes and the view of a transaction *)

Inductive write : Type :=
| WSource (schema : string) (r : source_row)
| WDaimon (schema : string) (r : daimon_row).

Definition add_source (r : source_row) (sc : schema_state) : schema_state :=
  mk_schema (sc_source sc ++ [r]) (sc_daimon sc) (sc_next_id sc) (sc_key_unique sc).

Definition add_daimon (r : daimon_row) (sc : schema_state) : schema_state :=
  mk_schema (sc_source sc) (sc_daimon sc ++ [r]) (sc_next_id sc) (sc_key_unique sc).

Definition bump_seq (sc : schema_state) : schema_state :=
  mk_schema (sc_source sc) (sc_daimon sc) (sc_next_id sc + 1) (sc_key_unique sc).

Definition apply_write (db : database) (w : write) : database :=
  match w with
  | WSource sch r => alter (add_source r) sch db
  | WDaimon sch r => alter (add_daimon r) sch db
  end.

(** What a statement of the transaction sees, and what commit installs. *)
Definition view (db : database) (pending : list write) : database :=
  foldl apply_write db pending.

(** ** The statements of populate.py *)

Inductive stmt : Type :=
| SelectSourceByKey (schema key : string)
    (** [SELECT 1 FROM {schema}.source WHERE source_key = %s] *)
| InsertSource (schema name key connection dialect : string)
    (** [INSERT INTO {schema}.source (...) VALUES (...) RETURNING source_id] *)
| InsertSourceDaimon (schema : string) (sid dtype : Z) (qualifier : string) (prio : Z).
    (** [INSERT INTO {schema}.source_daimon (...) VALUES (%s, %s, %s, %s)] *)

Definition has_source_id (sid : Z) (rs : list source_row) : bool :=
  existsb (fun r => bool_decide (source_id r = sid)) rs.

(** A row with key [k] that a unique constraint on [source_key] forbids a
    second of: the committed rows and the transaction's own. *)
Definition key_taken (sc : schema_state) (k : string) : bool :=
  sc_key_unique sc && existsb (fun r => bool_decide (source_key r = k)) (sc_source sc).

(** Executing one statement in a transaction with [pending] writes over
    the committed [db].  The result is the committed state (changed only
    by the sequence) and either an error or the new pending list with the
    rows the statement returns. *)
Definition exec_stmt (db : database) (pending : list write) (st : stmt)
    : database * (db_error + (list write * list row)) :=
  match st with
  | SelectSourceByKey sch k =>
      match view db pending !! sch with
      | None => (db, inl ProgrammingError)
      | Some sc =>
          (db, inr (pending,
                    map (fun _ => {["?column?" := 1%Z]})
                        (filter (fun r => source_key r = k) (sc_source sc))))
      end
  | InsertSource sch n k c d =>
      match view db pending !! sch with
      | None => (db, inl ProgrammingError)
      | Some sc =>
          let id := sc_next_id sc in
          let db' := alter bump_seq sch db in
          if has_source_id id (sc_source sc) then (db', inl IntegrityError)
          else if key_taken sc k then (db', inl IntegrityError)
          else (db', inr (pending ++ [WSource sch (mk_source_row id n k c d)],
                          [{["source_id" := id]}]))
      end
  | InsertSourceDaimon sch sid t q p =>
      match view db pending !! sch with
      | None => (db, inl ProgrammingError)
      | Some sc =>
          if has_source_id sid (sc_source sc)
          then (db, inr (pending ++ [WDaimon sch (mk_daimon_row sid t q p)], []))
          else (db, inl IntegrityError)
      end
  end.

(** The rows of every schema, without the sequences. *)
Definition rows_of (db : database) : gmap string (list source_row * list daimon_row) :=
  (fun sc => (sc_source sc, sc_daimon sc)) <$> db.

(** ** Well-formedness of a schema

    Source ids are unique, all below the sequence, and every daimon
    references an existing source. *)
Definition wf_schema (sc : schema_state) : Prop :=
  NoDup (source_id <$> sc_source sc) /\
  Forall (fun r => (source_id r < sc_next_id sc)%Z) (sc_source sc) /\
  Forall (fun d => sd_source_id d ∈ (source_id <$> sc_source sc)) (sc_daimon sc).

Definition wf_db (db : database) : Prop := map_Forall (fun _ => wf_schema) db.

(** Source keys are unique within a schema. *)
Definition keys_unique (sc : schema_state) : Prop := NoDup (source_key <$> sc_source sc).

(** ** The view of a transaction, schema by schema *)

Definition write_schema (w : write) : string :=
  match w with WSource s _ => s | WDaimon s _ => s end.

Definition apply_write_sc (sc : schema_state) (w : write) : schema_state :=
  match w with WSource _ r => add_source r sc | WDaimon _ r => add_daimon r sc end.

(** The pending writes that land in schema [s], applied in order. *)
Definition view_sc (s : string) (p : list write) (sc : schema_state) : schema_state :=
  foldl apply_write_sc sc (filter (fun w => write_schema w = s) p).

Section ViewLemmas.
Implicit Types (db : database) (p : list write) (sc : schema_state) (s : string).

Lemma lookup_apply_write db w s :
  apply_write db w !! s =
    if decide (write_schema w = s) then (fun sc => apply_write_sc sc w) <$> db !! s
    else db !! s.
Proof.
  destruct w as [s' r|s' r]; simpl; rewrite lookup_alter;
    repeat case_decide; subst; try done; destruct (db !! s); done.
Qed.

Lemma lookup_view db p s : view db p !! s = view_sc s p <$> db !! s.
Proof.
  revert db. induction p as [|w p IH]; intros db; simpl.
  - by destruct (db !! s).
  - unfold view in IH. rewrite IH, lookup_apply_write. unfold view_sc. simpl.
    case_decide.
    + rewrite filter_cons_True by done. by destruct (db !! s).
    + rewrite filter_cons_False by done. done.
Qed.

Lemma view_snoc db p w : view db (p ++ [w]) = apply_write (view db p) w.
Proof. unfold view. by rewrite foldl_app. Qed.

Lemma view_sc_next_id s p sc : sc_next_id (view_sc s p sc) = sc_next_id sc.
Proof.
  unfold view_sc. generalize (filter (fun w => write_schema w = s) p).
  intros ws. revert sc. induction ws as [|[] ws IH]; intros sc; simpl; try done;
    rewrite IH; done.
Qed.

Lemma view_sc_bump s p sc : view_sc s p (bump_seq sc) = bump_seq (view_sc s p sc).
Proof.
  unfold view_sc. generalize (filter (fun w => write_schema w = s) p).
  intros ws. revert sc. induction ws as [|[] ws IH]; intros sc; simpl; try done;
    rewrite <- IH; done.
Qed.

(** The sequence moves under the transaction's writes. *)
Lemma view_alter_bump db p s : view (alter bump_seq s db) p = alter bump_seq s (view db p).
Proof.
  apply map_eq. intros s'. rewrite !lookup_view, !lookup_alter, !lookup_view.
  case_decide; subst; destruct (db !! s'); simpl; try done.
  by rewrite view_sc_bump.
Qed.

Lemma view_nil db : view db [] = db.
Proof. done. Qed.

(** A schema exists in the view exactly when it exists committed. *)
Lemma view_is_Some db p s : is_Some (view db p !! s) <-> is_Some (db !! s).
Proof. rewrite lookup_view. apply fmap_is_Some. Qed.

Lemma rows_of_alter_bump db s : rows_of (alter bump_seq s db) = rows_of db.
Proof.
  apply map_eq. intros s'. unfold rows_of. rewrite !lookup_fmap, lookup_alter.
  case_decide; subst; by destruct (db !! s').
Qed.

(** Two databases with the same rows have, schema by schema, the same
    source and daimon rows. *)
Lemma rows_of_lookup db db' s sc :
  rows_of db = rows_of db' -> db !! s = Some sc ->
  exists sc', db' !! s = Some sc' /\ sc_source sc' = sc_source sc /\ sc_daimon sc' = sc_daimon sc.
Proof.
  intros Hr Hs.
  assert (rows_of db' !! s = Some (sc_source sc, sc_daimon sc)) as H1
    by (rewrite <- Hr; unfold rows_of; by rewrite lookup_fmap, Hs).
  unfold rows_of in H1. apply lookup_fmap_Some in H1 as (sc' & [= ? ?] & ?). by exists sc'.
Qed.
End ViewLemmas.

(** Two databases that hold the same rows; their sequences may differ.
    What a client can read of the tables respects it ([Proper]
    instances in [Atomicity]). *)
Definition same_rows (db db' : database) : Prop := rows_of db = rows_of db'.

#[export] Instance same_rows_equiv : Equivalence same_rows.
Proof. unfold same_rows. split; [done|by intros ??|by intros ??? -> ->]. Qed.

(** Read an equation between rows as [same_rows], to rewrite with it. *)
Ltac same_rows_in H :=
  match type of H with rows_of ?a = rows_of ?b => change (same_rows a b) in H end.

#[export] Hint Rewrite lookup_view view_snoc view_alter_bump rows_of_alter_bump : s2p_rw.

(** ** Well-formedness lemmas *)

Section WfLemmas.
Implicit Types (db : database) (p : list write) (sc : schema_state) (s : string).

Lemma has_source_id_spec sid (rs : list source_row) :
  has_source_id sid rs = true <-> sid ∈ source_id <$> rs.
Proof.
  unfold has_source_id. rewrite existsb_exists, list_elem_of_fmap. split.
  - intros (r & Hin & Hb%bool_decide_eq_true). exists r.
    by rewrite list_elem_of_In.
  - intros (r & -> & Hin). exists r. rewrite <- list_elem_of_In.
    by rewrite bool_decide_eq_true.
Qed.

(** Under the invariant the sequence never hands out an id in use, so
    the primary-key check of [InsertSource] never fires. *)
Lemma wf_schema_fresh sc : wf_schema sc -> has_source_id (sc_next_id sc) (sc_source sc) = false.
Proof.
  intros (_ & Hlt & _). apply not_true_iff_false. rewrite has_source_id_spec.
  intros (r & Heq & Hin)%list_elem_of_fmap.
  rewrite Forall_forall in Hlt. specialize (Hlt r).
  specialize (Hlt Hin). lia.
Qed.

Lemma wf_db_lookup db s sc : wf_db db -> db !! s = Some sc -> wf_schema sc.
Proof. intros Hwf Hs. exact (Hwf s sc Hs). Qed.
End WfLemmas.

#[export] Hint Resolve wf_db_lookup : s2p.

(** ** Statements *)

Section ExecLemmas.
Implicit Types (db : database) (p : list write) (st : stmt).

(** A statement never changes the committed rows: only commit does. *)
Lemma exec_stmt_rows db p st : rows_of (exec_stmt db p st).1 = rows_of db.
Proof.
  destruct st; simpl; destruct (view db p !! _); simpl; try done;
    repeat case_match; simpl; by rewrite ?rows_of_alter_bump.
Qed.

(** The existence check answers from the transaction's view. *)
Lemma exec_select db p sch k sc :
  view db p !! sch = Some sc ->
  exec_stmt db p (SelectSourceByKey sch k) =
    (db, inr (p, map (fun _ => {["?column?" := 1%Z]})
                     (filter (fun r => source_key r = k) (sc_source sc)))).
Proof. intros H. simpl. by rewrite H. Qed.

(** On a well-formed schema where the key is free the INSERT of a source
    succeeds, takes the next value of the sequence and returns it. *)
Lemma exec_insert_source db p sch n k c d sc :
  view db p !! sch = Some sc -> wf_schema sc -> key_taken sc k = false ->
  exec_stmt db p (InsertSource sch n k c d) =
    (alter bump_seq sch db,
     inr (p ++ [WSource sch (mk_source_row (sc_next_id sc) n k c d)],
          [{["source_id" := sc_next_id sc]}])).
Proof. intros H Hwf Hk. simpl. rewrite H, Hk. by rewrite wf_schema_fresh. Qed.

(** Under a unique constraint a key already there makes the INSERT fail,
    after the sequence has moved. *)
Lemma exec_insert_source_taken db p sch n k c d sc :
  view db p !! sch = Some sc -> wf_schema sc -> key_taken sc k = true ->
  exec_stmt db p (InsertSource sch n k c d) = (alter bump_seq sch db, inl IntegrityError).
Proof. intros H Hwf Hk. simpl. rewrite H, Hk. by rewrite wf_schema_fresh. Qed.

(** Without the constraint every key is free. *)
Lemma key_taken_unconstrained sc k : sc_key_unique sc = false -> key_taken sc k = false.
Proof. intros H. unfold key_taken. by rewrite H. Qed.

(** A key with no row is free, with or without the constraint. *)
Lemma key_taken_absent sc k :
  filter (fun r => source_key r = k) (sc_source sc) = [] -> key_taken sc k = false.
Proof.
  intros Hf. unfold key_taken. destruct (sc_key_unique sc); [simpl|done].
  apply not_true_iff_false. intros [r [Hr Hk%bool_decide_eq_true]]%existsb_exists.
  assert (r ∈ filter (fun r => source_key r = k) (sc_source sc)) as Hin.
  { apply list_elem_of_filter. split; [done|]. by apply list_elem_of_In. }
  rewrite Hf in Hin. by apply not_elem_of_nil in Hin.
Qed.

Lemma exec_insert_daimon db p sch sid t q pr sc :
  view db p !! sch = Some sc -> has_source_id sid (sc_source sc) = true ->
  exec_stmt db p (InsertSourceDaimon sch sid t q pr) =
    (db, inr (p ++ [WDaimon sch (mk_daimon_row sid t q pr)], [])).
Proof. intros H Hs. simpl. by rewrite H, Hs. Qed.

Lemma exec_missing_schema db p st sch :
  view db p !! sch = None ->
  sch = match st with
        | SelectSourceByKey s _ | InsertSource s _ _ _ _ | InsertSourceDaimon s _ _ _ _ => s
        end ->
  exec_stmt db p st = (db, inl ProgrammingError).
Proof. intros H ->. destruct st; simpl; by rewrite H. Qed.
End ExecLemmas.

(** ** The view after one more write *)

Section SnocLemmas.
Implicit Types (db : database) (p : list write) (sc : schema_state) (s : string).

Lemma view_snoc_source db p s r sc :
  view db p !! s = Some sc ->
  view (alter bump_seq s db) (p ++ [WSource s r]) !! s = Some (add_source r (bump_seq sc)).
Proof.
  intros Hv. rewrite view_snoc, view_alter_bump. simpl.
  by rewrite !lookup_alter_eq, Hv.
Qed.

Lemma view_snoc_daimon db p s r sc :
  view db p !! s = Some sc -> view db (p ++ [WDaimon s r]) !! s = Some (add_daimon r sc).
Proof. intros Hv. rewrite view_snoc. simpl. by rewrite lookup_alter_eq, Hv. Qed.

Lemma has_source_id_snoc sid rs r :
  has_source_id sid (rs ++ [r]) = has_source_id sid rs || bool_decide (source_id r = sid).
Proof. unfold has_source_id. apply (existsb_app_single (fun r => bool_decide (source_id r = sid))). Qed.
End SnocLemmas.

Lemma alter_lookup_Some {A} (f : A -> A) (m : gmap string A) s x :
  m !! s = Some x -> alter f s m = <[s := f x]> m.
Proof.
  intros Hs. apply map_eq. intros s'. rewrite lookup_alter, lookup_insert.
  case_decide; subst; [by rewrite Hs|done].
Qed.

#[export] Instance wf_schema_dec sc : Decision (wf_schema sc).
Proof. unfold wf_schema. apply _. Defined.

(** ** What a successful statement did *)

Section ExecInversion.
Implicit Types (db : database) (p : list write).

Lemma exec_select_ok db p sch k db' p' rows :
  exec_stmt db p (SelectSourceByKey sch k) = (db', inr (p', rows)) ->
  db' = db /\ p' = p /\
  exists sc, view db p !! sch = Some sc /\
             rows = map (fun _ => {["?column?" := 1%Z]}) (filter (fun r => source_key r = k) (sc_source sc)).
Proof. simpl. destruct (view db p !! sch) eqn:E; [|done]. intros [= <- <- <-]. eauto. Qed.

Lemma exec_insert_source_ok db p sch n k c d db' p' rows :
  exec_stmt db p (InsertSource sch n k c d) = (db', inr (p', rows)) ->
  exists sc, view db p !! sch = Some sc /\ key_taken sc k = false /\ db' = alter bump_seq sch db /\
             p' = p ++ [WSource sch (mk_source_row (sc_next_id sc) n k c d)] /\
             rows = [{["source_id" := sc_next_id sc]}].
Proof.
  simpl. destruct (view db p !! sch) eqn:E; [|done].
  case_match; [done|]. case_match; [done|]. intros [= <- <- <-]. by exists s.
Qed.

Lemma exec_insert_daimon_ok db p sch sid t q pr db' p' rows :
  exec_stmt db p (InsertSourceDaimon sch sid t q pr) = (db', inr (p', rows)) ->
  db' = db /\ p' = p ++ [WDaimon sch (mk_daimon_row sid t q pr)] /\ rows = [].
Proof.
  simpl. destruct (view db p !! sch) eqn:E; [|done].
  case_match; [|done]. intros [= <- <- <-]. eauto.
Qed.
End ExecInversion.
