(* ===== verification/Psycopg.v ===== *)
(** * The world of the script and the library calls it makes

    [world] is everything [populate.py] reads or changes: the process
    environment and the [.env] file, the database server (which logins
    it accepts and its committed [database]), the one connection and its
    cursor, the schedule of faults the network and the server inject, the
    HTTP endpoint of the WebAPI, the log, and the trace of external calls.

    The operations are the [psycopg2], [requests] and [logging] calls of
    the script, as the libraries behave:
    - every round trip to the server ([connect], [execute], [commit],
      [rollback]) takes the next entry of [w_faults]: [None] lets it run,
      [Some (Fail e)] makes it raise [e] before the server acts, and
      [Some (LostReply e)] makes it raise [e] after the server acted (the
      reply was lost);
    - [cursor.close] and [connection.close] do no round trip that can
      fail: closing drops the connection and with it any transaction the
      server has not committed.
    The file ends with the fault-free runs of the calls, their triples
    under every fault, and the interface [DbFrame] with its instance
    [io_frame]. *)

From S2P Require Import Prelude Python Postgres.

Inductive fault : Type :=
| Fail (e : db_error)
| LostReply (e : db_error).

(** The connection: not yet opened, open with its transaction (pending
    writes, and whether a statement failed in it), or closed. *)
Inductive conn_state : Type :=
| NoConn
| ConnOpen (pending : list write) (aborted : bool)
| ConnClosed.

Inductive level : Type := INFO | ERROR.

(** The external calls, in the order they are made. *)
Inductive event : Type :=
| EConnect (p : conn_params)
| EExecute (st : stmt)
| ECommit
| ERollback
| EClose
| EHttpGet (url : string) (timeout : Z).

(** What the WebAPI endpoint does with a GET: answer with a status and a
    body, or fail at the network level (refused, timed out). *)
Inductive http_outcome : Type :=
| HttpResponse (status : Z) (text : string)
| HttpFailure.

Record response := mk_response { status_code : Z; text : string }.

Record world := mk_world {
  w_env : gmap string string;
  w_dotenv : gmap string string;
  w_accepts : conn_params -> bool;
  w_db : database;
  w_conn : conn_state;
  w_cursor : option (list row);
  w_faults : list (option fault);
  w_http : http_outcome;
  w_log : list (level * string);
  w_trace : list event
}.

(** ** Updating one field of the world *)

Definition set_env e w := mk_world e (w_dotenv w) (w_accepts w) (w_db w) (w_conn w)
  (w_cursor w) (w_faults w) (w_http w) (w_log w) (w_trace w).
Definition set_db d w := mk_world (w_env w) (w_dotenv w) (w_accepts w) d (w_conn w)
  (w_cursor w) (w_faults w) (w_http w) (w_log w) (w_trace w).
Definition set_conn c w := mk_world (w_env w) (w_dotenv w) (w_accepts w) (w_db w) c
  (w_cursor w) (w_faults w) (w_http w) (w_log w) (w_trace w).
Definition set_cursor c w := mk_world (w_env w) (w_dotenv w) (w_accepts w) (w_db w) (w_conn w)
  c (w_faults w) (w_http w) (w_log w) (w_trace w).
Definition set_faults f w := mk_world (w_env w) (w_dotenv w) (w_accepts w) (w_db w) (w_conn w)
  (w_cursor w) f (w_http w) (w_log w) (w_trace w).
Definition add_log l w := mk_world (w_env w) (w_dotenv w) (w_accepts w) (w_db w) (w_conn w)
  (w_cursor w) (w_faults w) (w_http w) (w_log w ++ [l]) (w_trace w).
Definition add_event ev w := mk_world (w_env w) (w_dotenv w) (w_accepts w) (w_db w) (w_conn w)
  (w_cursor w) (w_faults w) (w_http w) (w_log w) (w_trace w ++ [ev]).

Abbreviation Py A := (PyM world A).

Local Open Scope py_scope.

(** The connection and cursor objects; there is one of each. *)
Inductive connection : Type := Connection.
Inductive cursor : Type := Cursor.

(** ** logging *)

Definition log (lv : level) (msg : string) : Py unit := smodify (add_log (lv, msg)).
Definition log_info := log INFO.
Definition log_error := log ERROR.

(** ** Round trips *)

Definition emit (ev : event) : Py unit := smodify (add_event ev).

Definition next_fault : Py (option fault) :=
  fun w => match w_faults w with
           | [] => (w, Ret None)
           | f :: fs => (set_faults fs w, Ret f)
           end.

(** [psycopg2.connect(host=..., port=..., database=..., user=...,
    password=...)].  A lost reply leaves the client without a connection
    object, as a failure does. *)
Definition pg_connect (p : conn_params) : Py connection :=
  emit (EConnect p);;
  f <- next_fault;;
  match f with
  | Some (Fail e) | Some (LostReply e) => sraise (DatabaseError e)
  | None =>
      w <- sget;;
      if w_accepts w p
      then smodify (set_conn (ConnOpen [] false));; sret Connection
      else sraise (DatabaseError OperationalError)
  end.

(** [conn.cursor(cursor_factory=RealDictCursor)] *)
Definition conn_cursor (c : connection) : Py cursor :=
  w <- sget;;
  match w_conn w with
  | ConnOpen _ _ => smodify (set_cursor (Some []));; sret Cursor
  | _ => sraise (DatabaseError InterfaceError)
  end.

(** [cursor.close()], run when the [with] block of the cursor exits. *)
Definition cur_close (cur : cursor) : Py unit := smodify (set_cursor None).

(** The server side of [cursor.execute]: run the statement, keep its
    effect on the sequence, and on an error mark the transaction failed. *)
Definition server_exec (st : stmt) (p : list write) : Py unit :=
  w <- sget;;
  match exec_stmt (w_db w) p st with
  | (db', inl e) =>
      smodify (set_conn (ConnOpen p true) ∘ set_db db');;
      sraise (DatabaseError e)
  | (db', inr (p', rows)) =>
      smodify (set_cursor (Some rows) ∘ set_conn (ConnOpen p' false) ∘ set_db db')
  end.

(** [cursor.execute(sql, params)] *)
Definition cur_execute (cur : cursor) (st : stmt) : Py unit :=
  w <- sget;;
  match w_cursor w, w_conn w with
  | Some _, ConnOpen p aborted =>
      emit (EExecute st);;
      if aborted then sraise (DatabaseError InternalError)
      else
        f <- next_fault;;
        match f with
        | Some (Fail e) => smodify (set_conn (ConnOpen p true));; sraise (DatabaseError e)
        | Some (LostReply e) =>
            w' <- sget;;
            smodify (set_conn (ConnOpen p true) ∘ set_db (exec_stmt (w_db w') p st).1);;
            sraise (DatabaseError e)
        | None => server_exec st p
        end
  | _, _ => sraise (DatabaseError InterfaceError)
  end.

(** [cursor.executemany(sql, params_list)]: one [execute] per element of
    the list, in order, stopping at the first error. *)
Fixpoint cur_executemany {P} (cur : cursor) (q : P -> stmt) (ps : list P) : Py unit :=
  match ps with
  | [] => sret tt
  | x :: ps' => cur_execute cur (q x);; cur_executemany cur q ps'
  end.

(** [cursor.fetchone()]: the next row of the last result, or [None]. *)
Definition cur_fetchone (cur : cursor) : Py (option row) :=
  w <- sget;;
  match w_cursor w with
  | Some (r :: rs) => smodify (set_cursor (Some rs));; sret (Some r)
  | Some [] => sret None
  | None => sraise (DatabaseError InterfaceError)
  end.

(** The server side of a successful COMMIT: the pending writes become the
    committed state; a failed transaction is rolled back instead. *)
Definition server_commit (p : list write) (aborted : bool) : Py unit :=
  smodify (fun w => set_conn (ConnOpen [] false)
                      (if aborted then w else set_db (view (w_db w) p) w)).

(** [conn.commit()] *)
Definition conn_commit (c : connection) : Py unit :=
  w <- sget;;
  match w_conn w with
  | ConnOpen p aborted =>
      emit ECommit;;
      f <- next_fault;;
      match f with
      | Some (Fail e) => sraise (DatabaseError e)
      | Some (LostReply e) => server_commit p aborted;; sraise (DatabaseError e)
      | None => server_commit p aborted
      end
  | _ => sraise (DatabaseError InterfaceError)
  end.

(** [conn.rollback()] *)
Definition conn_rollback (c : connection) : Py unit :=
  w <- sget;;
  match w_conn w with
  | ConnOpen _ _ =>
      emit ERollback;;
      f <- next_fault;;
      match f with
      | Some (Fail e) => sraise (DatabaseError e)
      | Some (LostReply e) => smodify (set_conn (ConnOpen [] false));; sraise (DatabaseError e)
      | None => smodify (set_conn (ConnOpen [] false))
      end
  | _ => sraise (DatabaseError InterfaceError)
  end.

(** [conn.close()]: closing an open connection drops what it has not
    committed; closing a closed one does nothing. *)
Definition conn_close (c : connection) : Py unit :=
  w <- sget;;
  match w_conn w with
  | ConnOpen _ _ => emit EClose;; smodify (set_conn ConnClosed)
  | _ => sret tt
  end.

(** ** requests *)

(** [requests.get(url, timeout=...)] *)
Definition requests_get (url : string) (timeout : Z) : Py response :=
  emit (EHttpGet url timeout);;
  w <- sget;;
  match w_http w with
  | HttpResponse st tx => sret (mk_response st tx)
  | HttpFailure => sraise RequestException
  end.

(** ** Runs without faults

    Each lemma gives the world and the outcome of one call when the fault
    schedule is empty and the call's preconditions hold; the components'
    functional theorems chain them. *)

(** The world after a successful [execute] of [st] returning [rows], and
    after a successful commit. *)
Definition exec_world (st : stmt) (rows : list row) (p' : list write) (db' : database)
    (w : world) : world :=
  set_cursor (Some rows) (set_conn (ConnOpen p' false) (set_db db' (add_event (EExecute st) w))).

Definition commit_world (p : list write) (w : world) : world :=
  set_conn (ConnOpen [] false) (set_db (view (w_db w) p) (add_event ECommit w)).

Section RunLemmas.
Implicit Types (w : world).

Lemma log_run w lv m : log lv m w = (add_log (lv, m) w, Ret tt).
Proof. reflexivity. Qed.

Lemma pg_connect_run w p :
  w_faults w = [] -> w_accepts w p = true ->
  pg_connect p w = (set_conn (ConnOpen [] false) (add_event (EConnect p) w), Ret Connection).
Proof. intros Hf Ha. unfold pg_connect, sbind, emit, smodify, next_fault. simpl. rewrite Hf. simpl. by rewrite Ha. Qed.

Lemma pg_connect_refused_run w p :
  w_faults w = [] -> w_accepts w p = false ->
  pg_connect p w = (add_event (EConnect p) w, Raise (DatabaseError OperationalError)).
Proof. intros Hf Ha. unfold pg_connect, sbind, emit, smodify, next_fault. simpl. rewrite Hf. simpl. by rewrite Ha. Qed.

Lemma conn_cursor_run w c p ab :
  w_conn w = ConnOpen p ab -> conn_cursor c w = (set_cursor (Some []) w, Ret Cursor).
Proof. intros H. unfold conn_cursor, sbind, sget. by rewrite H. Qed.

Lemma cur_close_run w cur : cur_close cur w = (set_cursor None w, Ret tt).
Proof. reflexivity. Qed.

Lemma cur_execute_run w cur st k p db' p' rows :
  w_cursor w = Some k -> w_conn w = ConnOpen p false -> w_faults w = [] ->
  exec_stmt (w_db w) p st = (db', inr (p', rows)) ->
  cur_execute cur st w = (exec_world st rows p' db' w, Ret tt).
Proof.
  intros Hk Hc Hf He. unfold cur_execute, server_exec, sbind, sget, emit, smodify, next_fault.
  rewrite Hk, Hc. simpl. rewrite Hf. simpl. by rewrite He.
Qed.

(** A statement the server rejects: the transaction is marked failed. *)
Lemma cur_execute_error_run w cur st k p db' e :
  w_cursor w = Some k -> w_conn w = ConnOpen p false -> w_faults w = [] ->
  exec_stmt (w_db w) p st = (db', inl e) ->
  cur_execute cur st w =
    (set_conn (ConnOpen p true) (set_db db' (add_event (EExecute st) w)), Raise (DatabaseError e)).
Proof.
  intros Hk Hc Hf He. unfold cur_execute, server_exec, sbind, sget, emit, smodify, next_fault.
  rewrite Hk, Hc. simpl. rewrite Hf. simpl. by rewrite He.
Qed.

Lemma cur_fetchone_run w cur r rs :
  w_cursor w = Some (r :: rs) -> cur_fetchone cur w = (set_cursor (Some rs) w, Ret (Some r)).
Proof. intros H. unfold cur_fetchone, sbind, sget. by rewrite H. Qed.

Lemma cur_fetchone_none w cur : w_cursor w = Some [] -> cur_fetchone cur w = (w, Ret None).
Proof. intros H. unfold cur_fetchone, sbind, sget. by rewrite H. Qed.

Lemma conn_commit_run w c p :
  w_conn w = ConnOpen p false -> w_faults w = [] ->
  conn_commit c w = (commit_world p w, Ret tt).
Proof.
  intros Hc Hf. unfold conn_commit, server_commit, sbind, sget, emit, smodify, next_fault.
  rewrite Hc. simpl. by rewrite Hf.
Qed.

Lemma conn_rollback_run w c p ab :
  w_conn w = ConnOpen p ab -> w_faults w = [] ->
  conn_rollback c w = (set_conn (ConnOpen [] false) (add_event ERollback w), Ret tt).
Proof.
  intros Hc Hf. unfold conn_rollback, sbind, sget, emit, smodify, next_fault.
  rewrite Hc. simpl. by rewrite Hf.
Qed.

Lemma conn_close_run w c p ab :
  w_conn w = ConnOpen p ab -> conn_close c w = (set_conn ConnClosed (add_event EClose w), Ret tt).
Proof. intros H. unfold conn_close, sbind, sget. by rewrite H. Qed.
End RunLemmas.

(** ** What the database calls leave alone

    No [psycopg2] or [logging] call reads the environment into a new
    value, touches the HTTP endpoint, or makes an HTTP request, and none
    makes up a fault: an empty schedule stays empty.  [io_frame w w'] says
    so of two worlds; every database call keeps it ([keeps] of
    [Prelude]), so the seeding as a whole does. *)

Definition is_http_get (ev : event) : bool :=
  match ev with EHttpGet _ _ => true | _ => false end.

Definition io_frame (w w' : world) : Prop :=
  w_env w' = w_env w /\ w_dotenv w' = w_dotenv w /\ w_accepts w' = w_accepts w /\
  w_http w' = w_http w /\
  List.filter is_http_get (w_trace w') = List.filter is_http_get (w_trace w) /\
  (w_faults w = [] -> w_faults w' = []).

#[export] Instance io_frame_preorder : PreOrder io_frame.
Proof.
  split.
  - intros w. by repeat split.
  - intros w1 w2 w3 (?&?&?&?&?&?) (?&?&?&?&?&?). repeat split; try congruence; auto.
Qed.

Lemma raises_only_db_error {S A} e :
  raises_only (S:=S) (A:=A) py_exception (sraise (DatabaseError e)).
Proof. by apply raises_only_raise. Qed.

Ltac io_frame_solve :=
  unfold io_frame; intros; simpl;
  rewrite ?List.filter_app; simpl; rewrite ?app_nil_r;
  repeat split; first [done | intros; first [done | congruence]].

Lemma keeps_next_fault : keeps io_frame next_fault.
Proof. intros w. unfold next_fault. destruct (w_faults w) eqn:Hf; simpl; io_frame_solve. Qed.

#[export] Hint Resolve keeps_next_fault raises_only_db_error : s2p.
#[export] Hint Extern 2 (keeps io_frame (smodify _)) =>
  apply keeps_modify; io_frame_solve : s2p.
#[export] Hint Extern 2 (raises_only _ next_fault) =>
  (intros ?w; unfold next_fault; by destruct (w_faults w)) : s2p.

Section DbFrames.
Context (c : connection) (cur : cursor).

Lemma pg_connect_keeps (p : conn_params) : keeps io_frame (pg_connect p).
Proof. unfold pg_connect, emit. frame_auto. Qed.

Lemma pg_connect_raises (p : conn_params) : raises_only py_exception (pg_connect p).
Proof. unfold pg_connect, emit. frame_auto. Qed.

Lemma conn_cursor_keeps  : keeps io_frame (conn_cursor c).
Proof. unfold conn_cursor. frame_auto. Qed.

Lemma conn_cursor_raises  : raises_only py_exception (conn_cursor c).
Proof. unfold conn_cursor. frame_auto. Qed.

Lemma cur_close_keeps  : keeps io_frame (cur_close cur).
Proof. unfold cur_close. frame_auto. Qed.

Lemma cur_close_raises  : raises_only py_exception (cur_close cur).
Proof. unfold cur_close. frame_auto. Qed.

Lemma cur_execute_keeps (st : stmt) : keeps io_frame (cur_execute cur st).
Proof. unfold cur_execute, server_exec, emit. frame_auto. Qed.

Lemma cur_execute_raises (st : stmt) : raises_only py_exception (cur_execute cur st).
Proof. unfold cur_execute, server_exec, emit. frame_auto. Qed.

Lemma cur_fetchone_keeps  : keeps io_frame (cur_fetchone cur).
Proof. unfold cur_fetchone. frame_auto. Qed.

Lemma cur_fetchone_raises  : raises_only py_exception (cur_fetchone cur).
Proof. unfold cur_fetchone. frame_auto. Qed.

Lemma conn_commit_keeps  : keeps io_frame (conn_commit c).
Proof. unfold conn_commit, server_commit, emit. frame_auto. Qed.

Lemma conn_commit_raises  : raises_only py_exception (conn_commit c).
Proof. unfold conn_commit, server_commit, emit. frame_auto. Qed.

Lemma conn_rollback_keeps  : keeps io_frame (conn_rollback c).
Proof. unfold conn_rollback, emit. frame_auto. Qed.

Lemma conn_rollback_raises  : raises_only py_exception (conn_rollback c).
Proof. unfold conn_rollback, emit. frame_auto. Qed.

Lemma conn_close_keeps  : keeps io_frame (conn_close c).
Proof. unfold conn_close, emit. frame_auto. Qed.

Lemma conn_close_raises  : raises_only py_exception (conn_close c).
Proof. unfold conn_close, emit. frame_auto. Qed.

Lemma log_keeps (lv : level) (m : string) : keeps io_frame (log lv m).
Proof. unfold log. frame_auto. Qed.

Lemma log_raises (lv : level) (m : string) : raises_only py_exception (log lv m).
Proof. unfold log. frame_auto. Qed.

Lemma cur_executemany_keeps {P} (q : P -> stmt) ps : keeps io_frame (cur_executemany cur q ps).
Proof.
  induction ps; simpl; [frame_auto|].
  apply keeps_bind; [apply _|apply cur_execute_keeps|done].
Qed.

Lemma cur_executemany_raises {P} (q : P -> stmt) ps :
  raises_only py_exception (cur_executemany cur q ps).
Proof.
  induction ps; simpl; [frame_auto|].
  apply raises_only_bind; [apply cur_execute_raises|done].
Qed.
End DbFrames.

#[export] Hint Resolve pg_connect_keeps pg_connect_raises conn_cursor_keeps conn_cursor_raises
  cur_close_keeps cur_close_raises cur_execute_keeps cur_execute_raises
  cur_executemany_keeps cur_executemany_raises cur_fetchone_keeps cur_fetchone_raises
  conn_commit_keeps conn_commit_raises conn_rollback_keeps conn_rollback_raises
  conn_close_keeps conn_close_raises log_keeps log_raises : s2p.

Lemma raises_only_py_exception {S A} e :
  is_Exception e = true -> raises_only (S:=S) (A:=A) py_exception (sraise e).
Proof. intros H. by apply raises_only_raise. Qed.

#[export] Hint Extern 2 (raises_only py_exception (sraise _)) =>
  (apply raises_only_py_exception; first [reflexivity | assumption]) : s2p.

(** ** Specifications of the calls under every fault

    Triples over the part of the world a transaction depends on: the
    committed database, the connection and a live cursor.  A call that
    raises leaves the committed rows as they were and the connection open
    ([broken]); only [commit] changes the committed rows. *)

Definition at_state (D : database) (c : conn_state) (w : world) : Prop :=
  w_db w = D /\ w_conn w = c /\ is_Some (w_cursor w).

Definition broken (D : database) (w : world) : Prop :=
  rows_of (w_db w) = rows_of D /\ exists p ab, w_conn w = ConnOpen p ab.

Section Specs.
Context (c : connection) (cur : cursor).
Implicit Types (D : database) (w : world).

Lemma log_spec D cs lv m :
  triple (at_state D cs) (log lv m) (fun r w => r = Ret tt /\ at_state D cs w).
Proof. intros w Hw. done. Qed.

Lemma cur_execute_spec D p st :
  triple (at_state D (ConnOpen p false)) (cur_execute cur st)
    (fun r w => match r with
                | Ret _ => exists p' rows, exec_stmt D p st = (w_db w, inr (p', rows)) /\
                             w_conn w = ConnOpen p' false /\ w_cursor w = Some rows
                | Raise e => db_exception e /\ broken D w
                end).
Proof.
  intros w (Hdb & Hc & [k Hk]). subst D.
  unfold cur_execute, server_exec, sbind, sget, emit, smodify, next_fault.
  rewrite Hk, Hc. simpl.
  destruct (w_faults w) as [|[[e|e]|] fs]; simpl;
    [destruct (exec_stmt (w_db w) p st) as [db' [e'|[p' rows]]] eqn:Ex| | |
     destruct (exec_stmt (w_db w) p st) as [db' [e'|[p' rows]]] eqn:Ex]; simpl.
  all: first [ by eauto 10
             | split; [done|]; split; [|by eauto];
               first [ done | apply exec_stmt_rows
                     | by rewrite <- (exec_stmt_rows (w_db w) p st), Ex ] ].
Qed.
Lemma cur_fetchone_spec D cs rows :
  triple (fun w => w_db w = D /\ w_conn w = cs /\ w_cursor w = Some rows) (cur_fetchone cur)
    (fun r w => r = Ret (head rows) /\ at_state D cs w).
Proof.
  intros w (Hdb & Hc & Hk). unfold cur_fetchone, sbind, sget, smodify.
  rewrite Hk. destruct rows; simpl; repeat split; eauto.
Qed.

(** Commit: on success the pending writes are the committed state; when it
    raises, they are committed or not depending on whether the server got
    the COMMIT before the failure. *)
Lemma conn_commit_spec D p :
  triple (at_state D (ConnOpen p false)) (conn_commit c)
    (fun r w => (exists p' ab, w_conn w = ConnOpen p' ab) /\
                match r with
                | Ret _ => w_db w = view D p
                | Raise e => db_exception e /\ (w_db w = D \/ w_db w = view D p)
                end).
Proof.
  intros w (Hdb & Hc & _). subst D.
  unfold conn_commit, server_commit, sbind, sget, emit, smodify, next_fault.
  rewrite Hc. simpl. destruct (w_faults w) as [|[[e|e]|] fs]; simpl; eauto 10 with s2p.
Qed.

Lemma conn_rollback_spec D :
  triple (fun w => w_db w = D /\ exists p ab, w_conn w = ConnOpen p ab) (conn_rollback c)
    (fun r w => w_db w = D /\ (exists p ab, w_conn w = ConnOpen p ab) /\
                match r with Ret _ => True | Raise e => db_exception e end).
Proof.
  intros w (Hdb & p & ab & Hc). subst D.
  unfold conn_rollback, sbind, sget, emit, smodify, next_fault.
  rewrite Hc. simpl. destruct (w_faults w) as [|[[e|e]|] fs]; simpl; eauto 10 with s2p.
Qed.

Lemma conn_close_spec D :
  triple (fun w => w_db w = D /\ exists p ab, w_conn w = ConnOpen p ab) (conn_close c)
    (fun r w => r = Ret tt /\ w_db w = D /\ w_conn w = ConnClosed).
Proof.
  intros w (Hdb & p & ab & Hc). unfold conn_close, sbind, sget, emit, smodify.
  rewrite Hc. simpl. done.
Qed.

Lemma pg_connect_spec D cs p :
  triple (fun w => w_db w = D /\ w_conn w = cs) (pg_connect p)
    (fun r w => w_db w = D /\
                match r with
                | Ret _ => w_conn w = ConnOpen [] false
                | Raise e => db_exception e /\ w_conn w = cs
                end).
Proof.
  intros w (Hdb & Hc). unfold pg_connect, sbind, sget, emit, smodify, next_fault.
  simpl. destruct (w_faults w) as [|[[e|e]|] fs]; simpl; try done.
  all: destruct (w_accepts w p); simpl; done.
Qed.

Lemma conn_cursor_spec D p :
  triple (fun w => w_db w = D /\ w_conn w = ConnOpen p false) (conn_cursor c)
    (fun r w => r = Ret Cursor /\ at_state D (ConnOpen p false) w).
Proof.
  intros w (Hdb & Hc). unfold conn_cursor, sbind, sget, smodify. rewrite Hc. simpl.
  repeat split; eauto.
Qed.
End Specs.

(** ** The frame interface

    [DbFrame R] is what the client code ([Connection], [Populate]) needs
    of a relation between the world before and after a call to prove that
    its own functions keep [R]: every primitive call of [psycopg2] and
    [logging] keeps it.  [io_frame] is an instance. *)
Class DbFrame (R : world -> world -> Prop) := {
  db_frame_preorder :: PreOrder R;
  frame_pg_connect p : keeps R (pg_connect p);
  frame_conn_cursor c : keeps R (conn_cursor c);
  frame_cur_close cur : keeps R (cur_close cur);
  frame_cur_execute cur st : keeps R (cur_execute cur st);
  frame_cur_fetchone cur : keeps R (cur_fetchone cur);
  frame_conn_commit c : keeps R (conn_commit c);
  frame_conn_rollback c : keeps R (conn_rollback c);
  frame_conn_close c : keeps R (conn_close c);
  frame_log lv m : keeps R (log lv m)
}.

#[export] Hint Resolve frame_pg_connect frame_conn_cursor frame_cur_close frame_cur_execute
  frame_cur_fetchone frame_conn_commit frame_conn_rollback frame_conn_close frame_log : s2p.

Lemma frame_cur_executemany `{DbFrame R} {P} cur (q : P -> stmt) ps :
  keeps R (cur_executemany cur q ps).
Proof. induction ps; simpl; frame_auto. Qed.

#[export] Hint Resolve frame_cur_executemany : s2p.

#[export] Instance io_frame_db_frame : DbFrame io_frame.
Proof. split; eauto with s2p typeclass_instances. Qed.

