(* ===== verification/Config.v ===== *)
(** * Configuration assembly (populate.py lines 89-101)

    [load_source_table] reads eight variables of the environment into the
    dict [source_config] and one more for the schema the WebAPI tables
    live in; each falls back to a literal default.  Nothing is validated:
    an empty key is passed on as it is. *)

From S2P Require Import Prelude Python.

(** The dict literal of lines 89-98. *)
Definition source_config (env : gmap string string) : gmap string string :=
  list_to_map [
    ("name", getenv env "SOURCE_NAME" "AML Practice");
    ("key", getenv env "SOURCE_KEY" "MY_CDM");
    ("connection", getenv env "SOURCE_CONNECTION"
       "jdbc:postgresql://postgres-db:5432/aml_report?user=broadsea_user&password=broadsea_password");
    ("dialect", getenv env "SOURCE_DIALECT" "postgresql");
    ("cdm_schema", getenv env "CDM_SCHEMA" "cdm_1");
    ("results_schema", getenv env "RESULTS_SCHEMA" "result_1");
    ("vocab_schema", getenv env "VOCAB_SCHEMA" "cdm");
    ("temp_schema", getenv env "TEMP_SCHEMA" "temp_schema_1")
  ].

(** Line 101. *)
Definition target_schema (env : gmap string string) : string :=
  getenv env "WEBAPI_DATASOURCE_OHDSI_SCHEMA" "new_one".

(** The keys the rest of the script subscripts [source_config] with. *)
Definition config_keys : list string :=
  ["name"; "key"; "connection"; "dialect";
   "cdm_schema"; "results_schema"; "vocab_schema"; "temp_schema"].

(** The value [source_config[k]] holds, for the keys of [config_keys]. *)
Definition cfg (env : gmap string string) (k : string) : string :=
  default "" (source_config env !! k).

(** ** Lemmas *)

(** Every subscript of [source_config] in the script finds its key: the
    dict literal holds exactly the eight keys, whatever the environment. *)
Lemma source_config_has_key env k :
  k ∈ config_keys -> source_config env !! k = Some (cfg env k).
Proof.
  unfold config_keys. intros Hk.
  repeat (apply elem_of_cons in Hk as [->|Hk]; [reflexivity|]).
  by apply not_elem_of_nil in Hk.
Qed.
