(* ===== verification/Connection.v ===== *)
(** * The connection lifecycle: [get_db_connection] (populate.py lines 23-43)

    A generator decorated with [@contextmanager]: it connects with the
    parameters of the environment, yields the connection to the body of
    the [with] statement, and on the way out

    - on an exception of the body: logs it, rolls back, re-raises;
    - on every exit: closes the connection, if one was opened.

    [conn] is [None] until [psycopg2.connect] returns, and only the
    connect call can raise before it is set.  So the [try] of the
    generator splits in two cases, which is how [get_db_connection] is
    written here: the connect call raised ([conn] is [None]: log,
    re-raise, neither rollback nor close), or it returned (the body runs
    under the [except] and the [finally]). *)

From S2P Require Import Prelude Python Postgres Psycopg.

Local Open Scope py_scope.

(** Lines 28-34. *)
Definition db_params (env : gmap string string) : conn_params :=
  mk_conn_params
    (getenv env "DB_HOST" "localhost")
    (getenv env "DB_PORT" "5432")
    (getenv env "DB_NAME" "synthea_omop")
    (getenv env "DB_USER" "username")
    (getenv env "DB_PASSWORD" "password").

(** Lines 36-40: the [except Exception as e] clause, [conn] set. *)
Definition db_error_handler (conn : connection) (e : exn) : Py unit :=
  log_error ("Database error: " +:+ exn_str e);;
  conn_rollback conn.

Definition get_db_connection {A} (body : connection -> Py A) : Py A :=
  w <- sget;;
  oc <- scatch (pg_connect (db_params (w_env w)));;
  match oc with
  | Raise e =>
      if is_Exception e
      then log_error ("Database error: " +:+ exn_str e);; sraise e
      else sraise e
  | Ret conn =>
      stry_finally
        (stry_except is_Exception (body conn)
           (fun e => db_error_handler conn e;; sraise e))
        (conn_close conn)
  end.

(** [with conn.cursor(cursor_factory=RealDictCursor) as cursor:] (line
    105): the cursor is closed when the block exits, however it exits. *)
Definition with_cursor {A} (conn : connection) (body : cursor -> Py A) : Py A :=
  cur <- conn_cursor conn;;
  stry_finally (body cur) (cur_close cur).

(** A world where the server accepts every login and no fault is
    scheduled, for the concrete runs of this file. *)
Definition demo_conn_world : world :=
  mk_world ∅ ∅ (fun _ => true) ∅ NoConn None [] HttpFailure [] [].

(** ** Runs without faults *)

Section RunLemmas.
Implicit Types (w : world).

(** The world right after a successful [psycopg2.connect]. *)
Definition connected_world w : world :=
  set_conn (ConnOpen [] false) (add_event (EConnect (db_params (w_env w))) w).

Lemma get_db_connection_run {A} (body : connection -> Py A) w w2 a p ab :
  w_faults w = [] -> w_accepts w (db_params (w_env w)) = true ->
  body Connection (connected_world w) = (w2, Ret a) ->
  w_conn w2 = ConnOpen p ab ->
  get_db_connection body w = (set_conn ConnClosed (add_event EClose w2), Ret a).
Proof.
  intros Hf Ha Hb Hc. unfold get_db_connection.
  rewrite (sbind_ret_run sget _ w w w) by done.
  rewrite (sbind_ret_run _ _ w (connected_world w) (Ret Connection)).
  2: { apply scatch_run. by apply pg_connect_run. }
  eapply stry_finally_run; [by apply stry_except_ret_run|].
  by eapply conn_close_run.
Qed.

(** The server refuses the login: the error is logged and re-raised;
    there is nothing to roll back or close. *)
Lemma get_db_connection_refused_run {A} (body : connection -> Py A) w :
  w_faults w = [] -> w_accepts w (db_params (w_env w)) = false ->
  get_db_connection body w =
    (add_log (ERROR, "Database error: " +:+ exn_str (DatabaseError OperationalError))
       (add_event (EConnect (db_params (w_env w))) w), Raise (DatabaseError OperationalError)).
Proof.
  intros Hf Ha. unfold get_db_connection.
  rewrite (sbind_ret_run sget _ w w w) by done.
  rewrite (sbind_ret_run _ _ w (add_event (EConnect (db_params (w_env w))) w)
             (Raise (DatabaseError OperationalError))).
  2: { apply scatch_run. by apply pg_connect_refused_run. }
  reflexivity.
Qed.

Lemma with_cursor_run {A} conn (body : cursor -> Py A) w w' r p ab :
  w_conn w = ConnOpen p ab -> body Cursor (set_cursor (Some []) w) = (w', r) ->
  with_cursor conn body w = (set_cursor None w', r).
Proof.
  intros Hc Hb. unfold with_cursor.
  rewrite (sbind_ret_run _ _ w (set_cursor (Some []) w) Cursor) by (by eapply conn_cursor_run).
  by eapply stry_finally_run.
Qed.
End RunLemmas.

(** The exit path on an exception of the body, after a [connect] that
    returned a connection, whatever round trips it took. *)
Lemma get_db_connection_raise_after {A} (body : connection -> Py A) w w1 wb e p ab :
  pg_connect (db_params (w_env w)) w = (w1, Ret Connection) ->
  body Connection w1 = (wb, Raise e) ->
  w_conn wb = ConnOpen p ab -> w_faults wb = [] ->
  get_db_connection body w =
    (if is_Exception e
     then set_conn ConnClosed (add_event EClose (set_conn (ConnOpen [] false)
            (add_event ERollback (add_log (ERROR, "Database error: " +:+ exn_str e) wb))))
     else set_conn ConnClosed (add_event EClose wb), Raise e).
Proof.
  intros Hp Hb Hc Hfb. unfold get_db_connection.
  rewrite (sbind_ret_run sget _ w w w) by done.
  rewrite (sbind_ret_run _ _ w w1 (Ret Connection)) by (by apply scatch_run).
  destruct (is_Exception e) eqn:He.
  - unfold stry_finally, stry_except. rewrite Hb, He. unfold db_error_handler, log_error.
    rewrite sbind_assoc_run, (sbind_ret_run _ _ _ _ tt (log_run _ _ _)).
    rewrite (sbind_ret_run _ _ _ _ tt) by (by eapply conn_rollback_run).
    cbn [sraise]. by erewrite conn_close_run.
  - eapply stry_finally_run; [unfold stry_except; by rewrite Hb, He|].
    by eapply conn_close_run.
Qed.

Lemma get_db_connection_raise_run {A} (body : connection -> Py A) w wb e p ab :
  w_faults w = [] -> w_accepts w (db_params (w_env w)) = true ->
  body Connection (connected_world w) = (wb, Raise e) ->
  w_conn wb = ConnOpen p ab -> w_faults wb = [] ->
  get_db_connection body w =
    (if is_Exception e
     then set_conn ConnClosed (add_event EClose (set_conn (ConnOpen [] false)
            (add_event ERollback (add_log (ERROR, "Database error: " +:+ exn_str e) wb))))
     else set_conn ConnClosed (add_event EClose wb), Raise e).
Proof. intros Hf Ha. apply get_db_connection_raise_after. by apply pg_connect_run. Qed.

(** C8. The exit path on an exception of the body (lines 36-43), with the
    connection open and no fault: an [Exception] is logged, the
    transaction rolled back, the connection closed, and the same exception
    re-raised, in that order; an exception outside [Exception]
    ([SystemExit]) is neither logged nor rolled back, and the connection
    is still closed. *)
Theorem get_db_connection_on_error {A} (body : connection -> Py A) w wb e p ab :
  w_faults w = [] -> w_accepts w (db_params (w_env w)) = true ->
  body Connection (connected_world w) = (wb, Raise e) ->
  w_conn wb = ConnOpen p ab -> w_faults wb = [] ->
  get_db_connection body w =
    (if is_Exception e
     then set_conn ConnClosed (add_event EClose (set_conn (ConnOpen [] false)
            (add_event ERollback (add_log (ERROR, "Database error: " +:+ exn_str e) wb))))
     else set_conn ConnClosed (add_event EClose wb), Raise e).
Proof. apply get_db_connection_raise_run. Qed.

Lemma get_db_connection_on_error_witness :
  (w_faults demo_conn_world = [] /\
   w_accepts demo_conn_world (db_params (w_env demo_conn_world)) = true /\
   (fun _ : connection => sraise (A:=unit) (DatabaseError IntegrityError)) Connection
     (connected_world demo_conn_world) =
     (connected_world demo_conn_world, Raise (DatabaseError IntegrityError)) /\
   w_conn (connected_world demo_conn_world) = ConnOpen [] false /\
   w_faults (connected_world demo_conn_world) = []) /\
  get_db_connection (fun _ => sraise (A:=unit) (DatabaseError IntegrityError)) demo_conn_world =
    (set_conn ConnClosed (add_event EClose (set_conn (ConnOpen [] false)
       (add_event ERollback (add_log (ERROR, "Database error: " +:+
          exn_str (DatabaseError IntegrityError)) (connected_world demo_conn_world))))),
     Raise (DatabaseError IntegrityError)).
Proof.
  split; [repeat split|].
  exact (get_db_connection_on_error _ demo_conn_world (connected_world demo_conn_world)
           (DatabaseError IntegrityError) [] false eq_refl eq_refl eq_refl eq_refl eq_refl).
Defined.

(** ** Frames: the context managers add nothing of their own *)

Section Frames.
Context {A : Type} {R : world -> world -> Prop} `{!DbFrame R}.

Lemma get_db_connection_keeps (body : connection -> Py A) :
  (forall c, keeps R (body c)) -> keeps R (get_db_connection body).
Proof. intros Hb. unfold get_db_connection, db_error_handler. frame_auto. Qed.

(** Only Python exceptions leave [get_db_connection] when only Python
    exceptions leave its body. *)
Lemma get_db_connection_raises (body : connection -> Py A) :
  (forall c, raises_only py_exception (body c)) ->
  raises_only py_exception (get_db_connection body).
Proof.
  intros Hb. unfold get_db_connection, db_error_handler. frame_auto.
  1: { apply raises_only_try_except; [|intros; frame_auto].
       eapply raises_only_weaken; [apply Hb|]. unfold py_exception. congruence. }
  all: apply raises_only_py_exception; unfold py_exception in *; congruence.
Qed.

Lemma with_cursor_keeps c (body : cursor -> Py A) :
  (forall cur, keeps R (body cur)) -> keeps R (with_cursor c body).
Proof. intros Hb. unfold with_cursor. frame_auto. Qed.

Lemma with_cursor_raises c (body : cursor -> Py A) :
  (forall cur, raises_only py_exception (body cur)) -> raises_only py_exception (with_cursor c body).
Proof. intros Hb. unfold with_cursor. frame_auto. Qed.
End Frames.

#[export] Hint Resolve get_db_connection_keeps get_db_connection_raises
  with_cursor_keeps with_cursor_raises : s2p.

(** ** The lifecycle under every fault *)

Section LifecycleSpec.
Context {A : Type} (body : connection -> Py A) (D : database) (cs : conn_state).
Context (Q : outcome exn A -> database -> Prop).

(** What the [except] clause leaves: the database as the body left it, the
    connection still open, and an exception, the body's or the one
    [rollback] raised instead. *)
Lemma db_error_handler_spec D' e :
  triple (fun w => w_db w = D' /\ exists p ab, w_conn w = ConnOpen p ab)
    (db_error_handler Connection e;; sraise (A:=A) e)
    (fun r w => w_db w = D' /\ (exists p ab, w_conn w = ConnOpen p ab) /\
                exists e', r = Raise e' /\ (e' = e \/ db_exception e')).
Proof.
  intros w Hw. unfold db_error_handler, sbind. simpl.
  pose proof (conn_rollback_spec Connection D' (add_log (ERROR, "Database error: " +:+ exn_str e) w)
                Hw) as Hr.
  destruct (conn_rollback Connection _) as [w3 [[]|e3]]; simpl in *;
    destruct Hr as (Hdb3 & Hopen3 & He3); eauto 10.
Qed.

Hypothesis body_spec :
  triple (fun w => w_db w = D /\ w_conn w = ConnOpen [] false) (body Connection)
    (fun r w => Q r (w_db w) /\ exists p ab, w_conn w = ConnOpen p ab).

(** The connection is never left open: either [connect] raised and
    nothing was opened, or the connection is closed at the end; then the
    outcome is the body's, or an exception replacing the body's (raised
    by [rollback]), and the committed database is the one the body left. *)
Lemma get_db_connection_spec :
  triple (fun w => w_db w = D /\ w_conn w = cs) (get_db_connection body)
    (fun r w =>
       (w_db w = D /\ w_conn w = cs /\ exists e, r = Raise e /\ db_exception e) \/
       (w_conn w = ConnClosed /\
        exists r0, Q r0 (w_db w) /\
                   (r = r0 \/ exists e0 e, r0 = Raise e0 /\ r = Raise e /\ db_exception e))).
Proof.
  intros w Hw. unfold get_db_connection.
  rewrite (sbind_ret_run sget _ w w w) by done.
  pose proof (pg_connect_spec D cs (db_params (w_env w)) w Hw) as Hc.
  destruct (pg_connect _ w) as [w1 r1] eqn:E1.
  rewrite (sbind_ret_run _ _ w w1 r1) by (apply scatch_run; exact E1).
  simpl in Hc. destruct r1 as [[]|e].
  - destruct Hc as [Hdb1 Hc1]. unfold stry_finally, stry_except.
    pose proof (body_spec w1 (conj Hdb1 Hc1)) as Hb.
    destruct (body Connection w1) as [wb [a|e0]] eqn:Eb; simpl in Hb; cbv beta.
    + destruct Hb as [HQ (p & ab & Hopen)].
      rewrite (conn_close_run _ _ _ _ Hopen). simpl. right. eauto.
    + destruct Hb as [HQ Hopen]. destruct (is_Exception e0) eqn:Hexc.
      * pose proof (db_error_handler_spec (w_db wb) e0 wb (conj eq_refl Hopen)) as Hh.
        destruct ((db_error_handler Connection e0;; sraise e0) wb) as [w3 r3].
        simpl in Hh. destruct Hh as (Hdb3 & (p & ab & Hopen3) & e' & -> & He').
        rewrite (conn_close_run _ _ _ _ Hopen3). simpl. right. split; [done|].
        exists (Raise e0). rewrite Hdb3. split; [done|].
        destruct He' as [->|He']; [by left|right; eauto].
      * destruct Hopen as (p & ab & Hopen).
        rewrite (conn_close_run _ _ _ _ Hopen). simpl. right. eauto.
  - destruct Hc as (Hdb1 & He & Hc1). rewrite (db_exception_py _ He). simpl. left. eauto.
Qed.
End LifecycleSpec.

(** The cursor block adds nothing to what its body promises about the
    database and the connection. *)
Lemma with_cursor_spec {A} conn (body : cursor -> Py A) D (Q : outcome exn A -> world -> Prop) :
  (forall cur, triple (at_state D (ConnOpen [] false)) (body cur) Q) ->
  (forall r w k, Q r w -> Q r (set_cursor k w)) ->
  triple (fun w => w_db w = D /\ w_conn w = ConnOpen [] false) (with_cursor conn body) Q.
Proof.
  intros Hb HQ w [Hdb Hc]. unfold with_cursor.
  rewrite (sbind_ret_run _ _ w _ Cursor) by (eapply conn_cursor_run; eauto).
  unfold stry_finally. pose proof (Hb Cursor (set_cursor (Some []) w)) as H.
  destruct (body Cursor _) as [w2 r2]. simpl in H.
  rewrite cur_close_run. simpl. apply HQ, H. repeat split; eauto.
Qed.
