(* ===== verification/Populate.v ===== *)
(** * The seeding transaction (populate.py lines 46-120)

    [source_exists], [create_source], [create_source_daimons] and
    [load_source_table], as the script composes them: inside one
    connection and one cursor, check the key, and when it is absent insert
    the source row, read back its generated id, insert the four daimon
    rows and commit.  Any exception is caught at the top and becomes
    [False].

    The file holds the fault-free runs of these functions and the
    functional theorems built on them (insert, skip, idempotence), the
    frames that hold under every fault (no exception escapes), and the
    split of the body of the [with] blocks into [check_step] and
    [seed_step] used by [Race]. *)

From S2P Require Import Prelude Python Postgres Psycopg Config Connection.

Local Open Scope py_scope.

(** Lines 46-49. *)
Definition source_exists (cur : cursor) (source_key schema : string) : Py bool :=
  cur_execute cur (SelectSourceByKey schema source_key);;
  r <- cur_fetchone cur;;
  sret (bool_decide (is_Some r)).

(** Lines 52-67.  [cursor.fetchone()['source_id']]: [None] has no
    items ([TypeError]), a row without the column raises [KeyError]. *)
Definition create_source (cur : cursor) (source_config : gmap string string)
    (schema : string) : Py Z :=
  n <- py_getitem source_config "name";;
  k <- py_getitem source_config "key";;
  c <- py_getitem source_config "connection";;
  d <- py_getitem source_config "dialect";;
  cur_execute cur (InsertSource schema n k c d);;
  r <- cur_fetchone cur;;
  source_id <- (match r with
                | None => sraise TypeError
                | Some rw => py_getitem rw "source_id"
                end);;
  log_info ("Created source with ID: " +:+ pretty source_id);;
  sret source_id.

(** The tuples of lines 72-77: (source_id, daimon_type, table_qualifier,
    priority). *)
Definition daimons (source_id : Z) (cdm vocab results temp : string)
    : list (Z * Z * string * Z) :=
  [(source_id, 0, cdm, 0); (source_id, 1, vocab, 1);
   (source_id, 2, results, 1); (source_id, 5, temp, 0)]%Z.

Definition daimon_stmt (schema : string) (d : Z * Z * string * Z) : stmt :=
  let '(sid, t, q, p) := d in InsertSourceDaimon schema sid t q p.

(** Lines 70-84. *)
Definition create_source_daimons (cur : cursor) (source_id : Z)
    (source_config : gmap string string) (schema : string) : Py unit :=
  cdm <- py_getitem source_config "cdm_schema";;
  vocab <- py_getitem source_config "vocab_schema";;
  results <- py_getitem source_config "results_schema";;
  temp <- py_getitem source_config "temp_schema";;
  cur_executemany cur (daimon_stmt schema) (daimons source_id cdm vocab results temp);;
  log_info "Created source daimons".

(** Lines 105-116: the body of the two [with] blocks. *)
Definition load_body (source_config : gmap string string) (schema : string)
    (conn : connection) (cur : cursor) : Py bool :=
  key <- py_getitem source_config "key";;
  ex <- source_exists cur key schema;;
  if ex then
    key' <- py_getitem source_config "key";;
    log_info ("Source '" +:+ key' +:+ "' already exists. Skipping.");;
    sret true
  else
    name <- py_getitem source_config "name";;
    log_info ("Creating source: " +:+ name +:+ " in schema: " +:+ schema);;
    source_id <- create_source cur source_config schema;;
    create_source_daimons cur source_id source_config schema;;
    conn_commit conn;;
    log_info "Source table loaded successfully";;
    sret true.

(** The body of the [with] blocks in two steps: the existence check of
    line 106 and what lines 107-116 do with its answer.  [load_body] is
    their sequence ([load_body_steps]); two runs of the script at once
    interleave at this point ([Race]). *)
Definition check_step (source_config : gmap string string) (schema : string) (cur : cursor)
    : Py bool :=
  key <- py_getitem source_config "key";;
  source_exists cur key schema.

Definition seed_step (source_config : gmap string string) (schema : string)
    (conn : connection) (cur : cursor) (ex : bool) : Py bool :=
  if ex then
    key' <- py_getitem source_config "key";;
    log_info ("Source '" +:+ key' +:+ "' already exists. Skipping.");;
    sret true
  else
    name <- py_getitem source_config "name";;
    log_info ("Creating source: " +:+ name +:+ " in schema: " +:+ schema);;
    source_id <- create_source cur source_config schema;;
    create_source_daimons cur source_id source_config schema;;
    conn_commit conn;;
    log_info "Source table loaded successfully";;
    sret true.

(** Lines 87-120. *)
Definition load_source_table : Py bool :=
  w <- sget;;
  let cfg := source_config (w_env w) in
  let schema := target_schema (w_env w) in
  stry_except is_Exception
    (get_db_connection (fun conn => with_cursor conn (load_body cfg schema conn)))
    (fun e => log_error ("Failed to load source table: " +:+ exn_str e);; sret false).

(** ** The rows the seeding writes *)

Definition source_row_of (env : gmap string string) (id : Z) : source_row :=
  mk_source_row id (cfg env "name") (cfg env "key") (cfg env "connection") (cfg env "dialect").

Definition insert_source_stmt (env : gmap string string) (sch : string) : stmt :=
  InsertSource sch (cfg env "name") (cfg env "key") (cfg env "connection") (cfg env "dialect").

Definition daimon_row_of (d : Z * Z * string * Z) : daimon_row :=
  let '(sid, t, q, p) := d in mk_daimon_row sid t q p.

(** The four daimon rows a source gets, as (source_id, daimon_type,
    table_qualifier, priority): CDM 0/0, vocabulary 1/1, results 2/1,
    temporary 5/0. *)
Definition daimon_params (env : gmap string string) (id : Z) : list (Z * Z * string * Z) :=
  [(id, 0, cfg env "cdm_schema", 0); (id, 1, cfg env "vocab_schema", 1);
   (id, 2, cfg env "results_schema", 1); (id, 5, cfg env "temp_schema", 0)]%Z.

(** The schema after a successful seeding: one source row with the next
    id of the sequence, the four daimon rows after it, and the sequence
    one further. *)
Definition seeded_schema (env : gmap string string) (sc : schema_state) : schema_state :=
  let id := sc_next_id sc in
  mk_schema (sc_source sc ++ [source_row_of env id])
            (sc_daimon sc ++ map daimon_row_of (daimon_params env id))
            (id + 1) (sc_key_unique sc).

(** The statements a seeding run sends, in order. *)
Definition insert_stmts (env : gmap string string) (sch : string) (id : Z) : list stmt :=
  insert_source_stmt env sch :: map (daimon_stmt sch) (daimon_params env id).

Definition seed_stmts (env : gmap string string) (sch : string) (id : Z) : list stmt :=
  SelectSourceByKey sch (cfg env "key") :: insert_stmts env sch id.

(** ** Runs without faults *)

Lemma cfg_getitem_run (w : world) env k :
  k ∈ config_keys -> py_getitem (source_config env) k w = (w, Ret (cfg env k)).
Proof. intros Hk. apply py_getitem_run. by apply source_config_has_key. Qed.

Ltac cfg_key := unfold config_keys; repeat constructor.

(** Step over [source_config[k]] at the head of a computation. *)
Ltac run_cfg :=
  erewrite (sbind_ret_run (py_getitem (source_config _) _));
  [|apply cfg_getitem_run; cfg_key].

Section RunLemmas.
Implicit Types (w : world).

Lemma source_exists_absent_run w cur k p sch key sc :
  w_cursor w = Some k -> w_conn w = ConnOpen p false -> w_faults w = [] ->
  view (w_db w) p !! sch = Some sc ->
  filter (fun r => source_key r = key) (sc_source sc) = [] ->
  source_exists cur key sch w =
    (exec_world (SelectSourceByKey sch key) [] p (w_db w) w, Ret false).
Proof.
  intros Hk Hc Hf Hv Hfl. unfold source_exists.
  erewrite sbind_ret_run.
  2: { eapply cur_execute_run; eauto. by rewrite (exec_select _ _ _ _ sc), Hfl. }
  erewrite sbind_ret_run; [|by apply cur_fetchone_none]. reflexivity.
Qed.

Lemma source_exists_present_run w cur k p sch key sc r rs :
  w_cursor w = Some k -> w_conn w = ConnOpen p false -> w_faults w = [] ->
  view (w_db w) p !! sch = Some sc ->
  filter (fun r => source_key r = key) (sc_source sc) = r :: rs ->
  exists w', source_exists cur key sch w = (w', Ret true) /\
    w_db w' = w_db w /\ w_conn w' = ConnOpen p false /\ w_faults w' = [] /\
    w_log w' = w_log w /\ w_trace w' = w_trace w ++ [EExecute (SelectSourceByKey sch key)] /\
    w_env w' = w_env w.
Proof.
  intros Hk Hc Hf Hv Hfl. unfold source_exists.
  erewrite sbind_ret_run.
  2: { eapply cur_execute_run; eauto. by rewrite (exec_select _ _ _ _ sc), Hfl. }
  erewrite sbind_ret_run; [|by apply cur_fetchone_run].
  eexists. split; [reflexivity|]. naive_solver.
Qed.

Definition create_world env sch p sc w : world :=
  add_log (INFO, "Created source with ID: " +:+ pretty (sc_next_id sc))
    (set_cursor (Some [])
       (exec_world (insert_source_stmt env sch) [{["source_id" := sc_next_id sc]}]
          (p ++ [WSource sch (source_row_of env (sc_next_id sc))])
          (alter bump_seq sch (w_db w)) w)).

Lemma create_source_run w cur k p sch env sc :
  w_cursor w = Some k -> w_conn w = ConnOpen p false -> w_faults w = [] ->
  view (w_db w) p !! sch = Some sc -> wf_schema sc -> key_taken sc (cfg env "key") = false ->
  create_source cur (source_config env) sch w = (create_world env sch p sc w, Ret (sc_next_id sc)).
Proof.
  intros Hk Hc Hf Hv Hwf Hkey. unfold create_source.
  do 4 run_cfg.
  erewrite sbind_ret_run.
  2: { eapply cur_execute_run; eauto. by apply exec_insert_source. }
  erewrite sbind_ret_run; [|by apply cur_fetchone_run].
  erewrite sbind_ret_run; [|by apply py_getitem_run, lookup_singleton_eq].
  reflexivity.
Qed.
(** The world after [cursor.executemany] of the daimon INSERTs. *)
Fixpoint daimons_world (sch : string) (p : list write) (ds : list (Z * Z * string * Z))
    (w : world) : world :=
  match ds with
  | [] => w
  | d :: ds' =>
      let p' := p ++ [WDaimon sch (daimon_row_of d)] in
      daimons_world sch p' ds' (exec_world (daimon_stmt sch d) [] p' (w_db w) w)
  end.

Lemma executemany_daimons_run ds : forall w cur k p sch sc,
  w_cursor w = Some k -> w_conn w = ConnOpen p false -> w_faults w = [] ->
  view (w_db w) p !! sch = Some sc ->
  Forall (fun d => has_source_id (sd_source_id (daimon_row_of d)) (sc_source sc) = true) ds ->
  cur_executemany cur (daimon_stmt sch) ds w = (daimons_world sch p ds w, Ret tt).
Proof.
  induction ds as [|[[[sid t] q] pr] ds IH]; intros w cur k p sch sc Hk Hc Hf Hv Hds;
    [done|]. apply Forall_cons in Hds as [Hd Hds]. simpl.
  erewrite sbind_ret_run; [|eapply cur_execute_run; eauto; by eapply exec_insert_daimon].
  eapply (IH _ _ _ _ _ (add_daimon _ sc)); try done. by apply view_snoc_daimon.
Qed.

Lemma create_source_daimons_run w cur k p sch env id sc :
  w_cursor w = Some k -> w_conn w = ConnOpen p false -> w_faults w = [] ->
  view (w_db w) p !! sch = Some sc -> has_source_id id (sc_source sc) = true ->
  create_source_daimons cur id (source_config env) sch w =
    (add_log (INFO, "Created source daimons") (daimons_world sch p (daimon_params env id) w), Ret tt).
Proof.
  intros Hk Hc Hf Hv Hid. unfold create_source_daimons.
  do 4 run_cfg.
  erewrite sbind_ret_run; [|eapply executemany_daimons_run; eauto; by repeat constructor].
  reflexivity.
Qed.
Lemma load_body_steps cfg sch conn cur w :
  load_body cfg sch conn cur w = sbind (check_step cfg sch cur) (seed_step cfg sch conn cur) w.
Proof. unfold check_step. by rewrite sbind_assoc_run. Qed.

(** Lines 110-116 on a fresh transaction: they do not look at the key
    again, and insert whatever the check answered. *)
Lemma seed_insert_run w env sch sc k :
  w_cursor w = Some k -> w_conn w = ConnOpen [] false -> w_faults w = [] ->
  w_db w !! sch = Some sc -> wf_schema sc -> key_taken sc (cfg env "key") = false ->
  exists w', seed_step (source_config env) sch Connection Cursor false w = (w', Ret true) /\
    w_db w' = <[sch := seeded_schema env sc]> (w_db w) /\
    w_conn w' = ConnOpen [] false /\ w_faults w' = [] /\
    w_trace w' = w_trace w ++ map EExecute (insert_stmts env sch (sc_next_id sc)) ++ [ECommit].
Proof.
  intros Hk Hc Hf Hsc Hwf Hkt. unfold seed_step. run_cfg.
  erewrite sbind_ret_run; [|apply log_run].
  erewrite sbind_ret_run; [|eapply create_source_run; simpl; eauto].
  erewrite sbind_ret_run.
  2: { eapply create_source_daimons_run; simpl; try done.
       - by apply (view_snoc_source (w_db w) [] sch _ sc).
       - simpl. rewrite has_source_id_snoc. simpl. rewrite bool_decide_eq_true_2; [|done].
         apply orb_true_r. }
  erewrite sbind_ret_run; [|apply conn_commit_run; done].
  erewrite sbind_ret_run; [|apply log_run].
  eexists. split; [reflexivity|]. simpl. split; [|split; [done|split; [done|]]].
  - unfold view. simpl. rewrite !alter_alter_eq.
    rewrite (alter_lookup_Some _ _ _ sc) by done. f_equal.
    unfold seeded_schema, add_daimon, add_source, bump_seq. simpl. by rewrite <- !app_assoc.
  - by rewrite <- ?app_assoc.
Qed.

Lemma load_body_insert_run w env sch sc :
  w_cursor w = Some [] -> w_conn w = ConnOpen [] false -> w_faults w = [] ->
  w_db w !! sch = Some sc -> wf_schema sc ->
  filter (fun r => source_key r = cfg env "key") (sc_source sc) = [] ->
  exists w', load_body (source_config env) sch Connection Cursor w = (w', Ret true) /\
    w_db w' = <[sch := seeded_schema env sc]> (w_db w) /\
    w_conn w' = ConnOpen [] false /\
    w_trace w' = w_trace w ++ map EExecute (seed_stmts env sch (sc_next_id sc)) ++ [ECommit].
Proof.
  intros Hk Hc Hf Hsc Hwf Hkey. rewrite load_body_steps. unfold check_step.
  rewrite sbind_assoc_run. run_cfg.
  erewrite sbind_ret_run; [|eapply source_exists_absent_run; eauto].
  edestruct (seed_insert_run (exec_world (SelectSourceByKey sch (cfg env "key")) [] [] (w_db w) w)
               env sch sc []) as (w' & Hrun & Hdb & Hc' & _ & Ht'); try done.
  { by apply key_taken_absent. }
  rewrite Hrun. exists w'. split; [done|]. rewrite Hdb, Ht'. simpl. by rewrite <- app_assoc.
Qed.
Lemma load_body_skip_run w env sch sc r rs :
  w_cursor w = Some [] -> w_conn w = ConnOpen [] false -> w_faults w = [] ->
  w_db w !! sch = Some sc ->
  filter (fun r => source_key r = cfg env "key") (sc_source sc) = r :: rs ->
  exists w', load_body (source_config env) sch Connection Cursor w = (w', Ret true) /\
    w_db w' = w_db w /\ w_conn w' = ConnOpen [] false /\
    w_trace w' = w_trace w ++ [EExecute (SelectSourceByKey sch (cfg env "key"))].
Proof.
  intros Hk Hc Hf Hsc Hkey. unfold load_body. run_cfg.
  destruct (source_exists_present_run w Cursor [] [] sch (cfg env "key") sc r rs)
    as (w1 & Hrun & Hdb & Hc1 & Hf1 & Hl1 & Ht1 & He1); try done.
  erewrite sbind_ret_run; [|exact Hrun]. simpl. run_cfg.
  erewrite sbind_ret_run; [|apply log_run].
  eexists. split; [reflexivity|]. done.
Qed.

(** The target schema does not exist: the SELECT of line 48 fails with
    [ProgrammingError] (undefined table) and the transaction is marked
    failed. *)
Lemma source_exists_missing_run w cur k p sch key :
  w_cursor w = Some k -> w_conn w = ConnOpen p false -> w_faults w = [] ->
  view (w_db w) p !! sch = None ->
  source_exists cur key sch w =
    (set_conn (ConnOpen p true) (set_db (w_db w) (add_event (EExecute (SelectSourceByKey sch key)) w)),
     Raise (DatabaseError ProgrammingError)).
Proof.
  intros Hk Hc Hf Hv. unfold source_exists.
  erewrite sbind_raise_run; [done|].
  eapply cur_execute_error_run; eauto. by apply (exec_missing_schema _ _ _ sch).
Qed.

Lemma load_body_missing_run w env sch :
  w_cursor w = Some [] -> w_conn w = ConnOpen [] false -> w_faults w = [] ->
  w_db w !! sch = None ->
  load_body (source_config env) sch Connection Cursor w =
    (set_conn (ConnOpen [] true)
       (set_db (w_db w) (add_event (EExecute (SelectSourceByKey sch (cfg env "key"))) w)),
     Raise (DatabaseError ProgrammingError)).
Proof.
  intros Hk Hc Hf Hsc. unfold load_body. run_cfg.
  erewrite sbind_raise_run; [done|]. by eapply source_exists_missing_run.
Qed.

(** [load_source_table] when the connection opens and the body returns:
    the cursor and then the connection are closed, the value returned. *)
Lemma load_source_table_run w w' b p ab :
  w_faults w = [] -> w_accepts w (db_params (w_env w)) = true ->
  load_body (source_config (w_env w)) (target_schema (w_env w)) Connection Cursor
    (set_cursor (Some []) (connected_world w)) = (w', Ret b) ->
  w_conn w' = ConnOpen p ab ->
  load_source_table w = (set_conn ConnClosed (add_event EClose (set_cursor None w')), Ret b).
Proof.
  intros Hf Ha Hb Hc. unfold load_source_table.
  rewrite (sbind_ret_run sget _ w w w) by done.
  apply stry_except_ret_run. eapply get_db_connection_run; try done.
  by eapply with_cursor_run.
Qed.
(** [load_source_table] when the server refuses the login. *)
Lemma load_source_table_refused_run w :
  w_faults w = [] -> w_accepts w (db_params (w_env w)) = false ->
  load_source_table w =
    (add_log (ERROR, "Failed to load source table: " +:+ exn_str (DatabaseError OperationalError))
       (add_log (ERROR, "Database error: " +:+ exn_str (DatabaseError OperationalError))
          (add_event (EConnect (db_params (w_env w))) w)), Ret false).
Proof.
  intros Hf Ha. unfold load_source_table.
  rewrite (sbind_ret_run sget _ w w w) by done.
  erewrite stry_except_catch_run; [|by apply get_db_connection_refused_run|done].
  reflexivity.
Qed.
(** [load_source_table] when the target schema does not exist: the
    error is logged, the transaction rolled back, the connection closed,
    and the run reports [False] with nothing committed. *)
Lemma load_source_table_missing_run w :
  w_faults w = [] -> w_accepts w (db_params (w_env w)) = true ->
  w_db w !! target_schema (w_env w) = None ->
  exists w', load_source_table w = (w', Ret false) /\ w_db w' = w_db w /\ w_conn w' = ConnClosed.
Proof.
  intros Hf Ha Hsc. unfold load_source_table.
  rewrite (sbind_ret_run sget _ w w w) by done.
  pose proof (load_body_missing_run (set_cursor (Some []) (connected_world w)) (w_env w)
                (target_schema (w_env w)) eq_refl eq_refl Hf Hsc) as Hb.
  pose proof (with_cursor_run Connection _ (connected_world w) _ _ [] false eq_refl Hb) as Hwc.
  pose proof (get_db_connection_raise_run
                (fun conn => with_cursor conn
                   (load_body (source_config (w_env w)) (target_schema (w_env w)) conn))
                w _ _ [] true Hf Ha Hwc eq_refl Hf) as Hg.
  rewrite (stry_except_catch_run _ _ _ _ _ _ Hg eq_refl).
  eexists. split; [reflexivity|]. done.
Qed.
End RunLemmas.

(** ** The functional behaviour of [load_source_table] *)

Lemma load_source_table_inserts_run w sc :
  w_faults w = [] -> w_accepts w (db_params (w_env w)) = true ->
  w_db w !! target_schema (w_env w) = Some sc -> wf_schema sc ->
  filter (fun r => source_key r = cfg (w_env w) "key") (sc_source sc) = [] ->
  (load_source_table w).2 = Ret true /\
  w_db (load_source_table w).1 =
    <[target_schema (w_env w) := seeded_schema (w_env w) sc]> (w_db w) /\
  w_conn (load_source_table w).1 = ConnClosed /\
  w_trace (load_source_table w).1 =
    w_trace w ++ [EConnect (db_params (w_env w))]
      ++ map EExecute (seed_stmts (w_env w) (target_schema (w_env w)) (sc_next_id sc))
      ++ [ECommit; EClose].
Proof.
  intros Hf Ha Hsc Hwf Hkey.
  destruct (load_body_insert_run (set_cursor (Some []) (connected_world w)) (w_env w)
              (target_schema (w_env w)) sc) as (w' & Hrun & Hdb & Hc & Ht); try done.
  rewrite (load_source_table_run w w' true [] false) by done. simpl.
  rewrite ?Hdb, ?Ht. simpl. split; [done|]. split; [done|]. split; [done|].
  by rewrite <- !app_assoc.
Qed.

(** C3. Seeding a key that is not yet in the target schema, with the
    server reachable and no fault: [load_source_table] returns [True];
    the committed schema gains exactly one source row, with the next id
    of the sequence and the configured name, key, connection string and
    dialect, and exactly four daimon rows for that id, with (type,
    qualifier, priority) = (0, cdm, 0), (1, vocab, 1), (2, results, 1),
    (5, temp, 0) in this order; every other schema is unchanged; the
    connection is closed; and the server saw connect, the SELECT, the
    five INSERTs (the source row, then the four daimon rows), COMMIT and
    close, in this order. *)
Theorem load_source_table_inserts w sc :
  w_faults w = [] -> w_accepts w (db_params (w_env w)) = true ->
  w_db w !! target_schema (w_env w) = Some sc -> wf_schema sc ->
  filter (fun r => source_key r = cfg (w_env w) "key") (sc_source sc) = [] ->
  (load_source_table w).2 = Ret true /\
  w_db (load_source_table w).1 =
    <[target_schema (w_env w) := seeded_schema (w_env w) sc]> (w_db w) /\
  w_conn (load_source_table w).1 = ConnClosed /\
  w_trace (load_source_table w).1 =
    w_trace w ++ [EConnect (db_params (w_env w))]
      ++ map EExecute (seed_stmts (w_env w) (target_schema (w_env w)) (sc_next_id sc))
      ++ [ECommit; EClose].
Proof. apply load_source_table_inserts_run. Qed.

Lemma load_source_table_skips_run w sc r rs :
  w_faults w = [] -> w_accepts w (db_params (w_env w)) = true ->
  w_db w !! target_schema (w_env w) = Some sc ->
  filter (fun r => source_key r = cfg (w_env w) "key") (sc_source sc) = r :: rs ->
  (load_source_table w).2 = Ret true /\
  w_db (load_source_table w).1 = w_db w /\
  w_conn (load_source_table w).1 = ConnClosed /\
  w_trace (load_source_table w).1 =
    w_trace w ++ [EConnect (db_params (w_env w));
                  EExecute (SelectSourceByKey (target_schema (w_env w)) (cfg (w_env w) "key"));
                  EClose].
Proof.
  intros Hf Ha Hsc Hkey.
  destruct (load_body_skip_run (set_cursor (Some []) (connected_world w)) (w_env w)
              (target_schema (w_env w)) sc r rs) as (w' & Hrun & Hdb & Hc & Ht); try done.
  rewrite (load_source_table_run w w' true [] false) by done. simpl.
  rewrite ?Hdb, ?Ht. simpl. split; [done|]. split; [done|]. split; [done|].
  by rewrite <- !app_assoc.
Qed.

(** C4. Seeding a key that the target schema already holds, with the
    server reachable and no fault: [load_source_table] returns [True],
    the committed database is unchanged, nothing is committed (the server
    saw connect, the SELECT and close only), and the connection is
    closed. *)
Theorem load_source_table_skips w sc r rs :
  w_faults w = [] -> w_accepts w (db_params (w_env w)) = true ->
  w_db w !! target_schema (w_env w) = Some sc ->
  filter (fun r => source_key r = cfg (w_env w) "key") (sc_source sc) = r :: rs ->
  (load_source_table w).2 = Ret true /\
  w_db (load_source_table w).1 = w_db w /\
  w_conn (load_source_table w).1 = ConnClosed /\
  w_trace (load_source_table w).1 =
    w_trace w ++ [EConnect (db_params (w_env w));
                  EExecute (SelectSourceByKey (target_schema (w_env w)) (cfg (w_env w) "key"));
                  EClose].
Proof. apply load_source_table_skips_run. Qed.

(** ** Concrete runs *)

(** The empty WebAPI schema of a fresh deployment, in the schema the
    script targets by default. *)
Definition demo_schema : schema_state := mk_schema [] [] 1 false.

Definition demo_world : world :=
  mk_world ∅ ∅ (fun _ => true) {["new_one" := demo_schema]} NoConn None []
    (HttpResponse 200 "ok") [] [].

Lemma demo_schema_wf : wf_schema demo_schema.
Proof. vm_compute. repeat constructor. Qed.

Lemma load_source_table_inserts_witness :
  (w_faults demo_world = [] /\ w_accepts demo_world (db_params (w_env demo_world)) = true /\
   w_db demo_world !! target_schema (w_env demo_world) = Some demo_schema /\
   wf_schema demo_schema /\
   filter (fun r => source_key r = cfg (w_env demo_world) "key") (sc_source demo_schema) = []) /\
  (load_source_table demo_world).2 = Ret true /\
  w_db (load_source_table demo_world).1 =
    <[target_schema (w_env demo_world) := seeded_schema (w_env demo_world) demo_schema]>
      (w_db demo_world) /\
  w_conn (load_source_table demo_world).1 = ConnClosed /\
  w_trace (load_source_table demo_world).1 =
    w_trace demo_world ++ [EConnect (db_params (w_env demo_world))]
      ++ map EExecute (seed_stmts (w_env demo_world) (target_schema (w_env demo_world))
                        (sc_next_id demo_schema))
      ++ [ECommit; EClose].
Proof.
  assert (wf_schema demo_schema) as Hwf by (vm_compute; repeat constructor).
  split; [split; [reflexivity|split; [reflexivity|split; [reflexivity|split; [exact Hwf|reflexivity]]]]|].
  apply (load_source_table_inserts demo_world demo_schema); try reflexivity. exact Hwf.
Defined.

(** The world after one seeding of [demo_world]: the key is present. *)
Definition demo_seeded_schema : schema_state := seeded_schema ∅ demo_schema.

Definition demo_seeded_world : world :=
  mk_world ∅ ∅ (fun _ => true) {["new_one" := demo_seeded_schema]} NoConn None []
    (HttpResponse 200 "ok") [] [].

Lemma load_source_table_skips_witness :
  (w_faults demo_seeded_world = [] /\
   w_accepts demo_seeded_world (db_params (w_env demo_seeded_world)) = true /\
   w_db demo_seeded_world !! target_schema (w_env demo_seeded_world) = Some demo_seeded_schema /\
   filter (fun r => source_key r = cfg (w_env demo_seeded_world) "key")
     (sc_source demo_seeded_schema) = [source_row_of ∅ 1]) /\
  (load_source_table demo_seeded_world).2 = Ret true /\
  w_db (load_source_table demo_seeded_world).1 = w_db demo_seeded_world /\
  w_conn (load_source_table demo_seeded_world).1 = ConnClosed /\
  w_trace (load_source_table demo_seeded_world).1 =
    w_trace demo_seeded_world ++
      [EConnect (db_params (w_env demo_seeded_world));
       EExecute (SelectSourceByKey (target_schema (w_env demo_seeded_world))
                   (cfg (w_env demo_seeded_world) "key"));
       EClose].
Proof.
  split; [split; [reflexivity|split; [reflexivity|split; reflexivity]]|].
  apply (load_source_table_skips demo_seeded_world demo_seeded_schema (source_row_of ∅ 1) []);
    reflexivity.
Defined.

(** ** Frames of the seeding *)

Section Frames.
Context {R : world -> world -> Prop} `{!DbFrame R}.
Context (cur : cursor) (conn : connection) (cfg : gmap string string) (sch : string).

Lemma source_exists_keeps key : keeps R (source_exists cur key sch).
Proof. unfold source_exists. frame_auto. Qed.

Lemma source_exists_raises key : raises_only py_exception (source_exists cur key sch).
Proof. unfold source_exists. frame_auto. Qed.

Lemma create_source_keeps : keeps R (create_source cur cfg sch).
Proof. unfold create_source, log_info. frame_auto. Qed.

Lemma create_source_raises : raises_only py_exception (create_source cur cfg sch).
Proof. unfold create_source, log_info. frame_auto. Qed.

Lemma create_source_daimons_keeps id : keeps R (create_source_daimons cur id cfg sch).
Proof. unfold create_source_daimons, log_info. frame_auto. Qed.

Lemma create_source_daimons_raises id :
  raises_only py_exception (create_source_daimons cur id cfg sch).
Proof. unfold create_source_daimons, log_info. frame_auto. Qed.
End Frames.

#[export] Hint Resolve source_exists_keeps source_exists_raises create_source_keeps
  create_source_raises create_source_daimons_keeps create_source_daimons_raises : s2p.

Lemma load_body_keeps `{!DbFrame R} cfg sch conn cur : keeps R (load_body cfg sch conn cur).
Proof. unfold load_body, log_info. frame_auto. Qed.

Lemma load_body_raises cfg sch conn cur : raises_only py_exception (load_body cfg sch conn cur).
Proof. unfold load_body, log_info. frame_auto. Qed.

#[export] Hint Resolve load_body_keeps load_body_raises : s2p.

(** The seeding reads the environment and the endpoint, and never changes
    them nor makes an HTTP request. *)
Lemma load_source_table_keeps `{!DbFrame R} : keeps R load_source_table.
Proof. unfold load_source_table, log_error. frame_auto. Qed.

Lemma load_source_table_raises_nothing : raises_only (fun _ => False) load_source_table.
Proof.
  unfold load_source_table. apply raises_only_bind; [done|intros w].
  apply raises_only_try_except.
  - eapply raises_only_weaken.
    + apply get_db_connection_raises. intros c. apply with_cursor_raises. intros cur.
      apply load_body_raises.
    + unfold py_exception. congruence.
  - intros e _. unfold log_error. frame_auto.
Qed.

Lemma load_source_table_outcome w :
  (exists b, (load_source_table w).2 = Ret b) /\ io_frame w (load_source_table w).1.
Proof.
  split; [|apply load_source_table_keeps].
  pose proof (load_source_table_raises_nothing w) as H.
  destruct (load_source_table w).2 as [b|e]; [by exists b|done].
Qed.

(** C5. [load_source_table] never raises: whatever the environment, the
    server and the faults, it returns a boolean.  Every exception of the
    connection, the queries or the commit, and every [KeyError] or
    [TypeError], is turned into [False] by the [except Exception] of line
    118; [SystemExit] cannot occur inside it.  Neither does it change the
    environment or the HTTP endpoint, nor make an HTTP request. *)
Theorem load_source_table_total w :
  (exists b, (load_source_table w).2 = Ret b) /\ io_frame w (load_source_table w).1.
Proof. apply load_source_table_outcome. Qed.

(** ** Idempotence *)

Lemma seeded_schema_key env sc :
  filter (fun r => source_key r = cfg env "key") (sc_source sc) = [] ->
  filter (fun r => source_key r = cfg env "key") (sc_source (seeded_schema env sc)) =
    [source_row_of env (sc_next_id sc)].
Proof.
  intros Hkey. simpl. rewrite filter_app, Hkey. simpl.
  rewrite filter_cons_True by done. done.
Qed.

(** A seeding keeps a schema well formed: the new id is above every id
    of the schema, and the four daimon rows point at it. *)
Lemma wf_schema_seeded env sc : wf_schema sc -> wf_schema (seeded_schema env sc).
Proof.
  intros (Hnd & Hlt & Hfk). unfold seeded_schema, wf_schema. simpl. rewrite !fmap_app. simpl.
  split; [|split].
  - apply NoDup_app. split; [done|]. split; [|apply NoDup_singleton].
    intros x Hx ->%list_elem_of_singleton. apply list_elem_of_fmap in Hx as (r & Hr & Hin).
    rewrite Forall_forall in Hlt. specialize (Hlt r Hin). lia.
  - apply Forall_app. split; [eapply Forall_impl; [exact Hlt|]; simpl; lia|].
    repeat constructor. simpl. lia.
  - apply Forall_app. split; [eapply Forall_impl; [exact Hfk|]; set_solver|].
    repeat constructor; simpl; set_solver.
Qed.

(** C24. Running the script's seeding twice in a row with the same
    environment and no fault: after a first run that inserted the source,
    the second run finds the key, returns [True] and leaves the database
    as the first run left it. *)
Theorem load_source_table_idempotent w sc :
  w_faults w = [] -> w_accepts w (db_params (w_env w)) = true ->
  w_db w !! target_schema (w_env w) = Some sc -> wf_schema sc ->
  filter (fun r => source_key r = cfg (w_env w) "key") (sc_source sc) = [] ->
  (load_source_table (load_source_table w).1).2 = Ret true /\
  w_db (load_source_table (load_source_table w).1).1 = w_db (load_source_table w).1.
Proof.
  intros Hf Ha Hsc Hwf Hkey.
  destruct (load_source_table_inserts_run w sc) as (_ & Hdb & _ & _); try done.
  destruct (load_source_table_outcome w) as [_ (Henv & _ & Hacc & _ & _ & Hf1)].
  destruct (load_source_table_skips_run (load_source_table w).1 (seeded_schema (w_env w) sc)
              (source_row_of (w_env w) (sc_next_id sc)) []) as (Hr & Hdb2 & _ & _).
  - by apply Hf1.
  - by rewrite Henv, Hacc.
  - by rewrite Hdb, Henv, lookup_insert_eq.
  - rewrite Henv. by apply seeded_schema_key.
  - done.
Qed.

Lemma load_source_table_idempotent_witness :
  (w_faults demo_world = [] /\ w_accepts demo_world (db_params (w_env demo_world)) = true /\
   w_db demo_world !! target_schema (w_env demo_world) = Some demo_schema /\
   wf_schema demo_schema /\
   filter (fun r => source_key r = cfg (w_env demo_world) "key") (sc_source demo_schema) = []) /\
  (load_source_table (load_source_table demo_world).1).2 = Ret true /\
  w_db (load_source_table (load_source_table demo_world).1).1 =
    w_db (load_source_table demo_world).1.
Proof.
  assert (wf_schema demo_schema) as Hwf by (vm_compute; repeat constructor).
  split; [split; [reflexivity|split; [reflexivity|split; [reflexivity|split; [exact Hwf|reflexivity]]]]|].
  apply (load_source_table_idempotent demo_world demo_schema); try reflexivity. exact Hwf.
Defined.
