(* ===== verification/Reference.v ===== *)
(** * A reference for the seeding step

    [seed_ref] says, as a plain function of the committed database, what
    one fault-free run of [load_source_table] does: with no target schema
    it reports [False] and changes nothing (the SELECT fails on an
    undefined table); with the key present it reports [True] and changes
    nothing; with the key absent it reports [True] and adds one seeding.
    The monadic code, with its connection, cursor, two exception handlers
    and three statements, is equal to it on every well-formed database
    ([load_source_table_equiv_ref]).  Two runs in a row are then the
    reference applied twice, which is the reference applied once. *)

From S2P Require Import Prelude Python Postgres Psycopg Config Connection Populate.

Local Open Scope py_scope.

Definition seed_ref (env : gmap string string) (D : database) : bool * database :=
  let sch := target_schema env in
  match D !! sch with
  | None => (false, D)
  | Some sc =>
      match filter (fun r => source_key r = cfg env "key") (sc_source sc) with
      | [] => (true, <[sch := seeded_schema env sc]> D)
      | _ :: _ => (true, D)
      end
  end.

(** The reference is idempotent where the schema exists: a second
    seeding finds the key the first one added. *)
Lemma seed_ref_idempotent env D :
  is_Some (D !! target_schema env) ->
  seed_ref env (seed_ref env D).2 = (true, (seed_ref env D).2).
Proof.
  intros [sc Hsc]. unfold seed_ref. rewrite Hsc.
  destruct (filter _ (sc_source sc)) as [|r rs] eqn:Hkey; simpl.
  - by rewrite lookup_insert_eq, seeded_schema_key.
  - by rewrite Hsc, Hkey.
Qed.

Lemma load_source_table_ref w :
  w_faults w = [] -> w_accepts w (db_params (w_env w)) = true -> wf_db (w_db w) ->
  (load_source_table w).2 = Ret (seed_ref (w_env w) (w_db w)).1 /\
  w_db (load_source_table w).1 = (seed_ref (w_env w) (w_db w)).2 /\
  w_conn (load_source_table w).1 = ConnClosed.
Proof.
  intros Hf Ha Hwf. unfold seed_ref.
  destruct (w_db w !! target_schema (w_env w)) as [sc|] eqn:Hsc.
  - destruct (filter _ (sc_source sc)) as [|r rs] eqn:Hkey.
    + destruct (load_source_table_inserts_run w sc) as (Hr & Hdb & Hc & _); eauto with s2p.
    + destruct (load_source_table_skips_run w sc r rs) as (Hr & Hdb & Hc & _); auto.
  - destruct (load_source_table_missing_run w) as (w' & E & Hdb & Hc); auto. by rewrite E.
Qed.

(** C2. Equivalence with the reference: with no fault and a server that
    accepts the login, on every well-formed database, [load_source_table]
    returns what [seed_ref] returns, commits the database [seed_ref]
    gives, and closes its connection: a missing target schema gives
    [False] and no change, a present key [True] and no change, an absent
    key [True] and one seeding. *)
Theorem load_source_table_equiv_ref w :
  w_faults w = [] -> w_accepts w (db_params (w_env w)) = true -> wf_db (w_db w) ->
  (load_source_table w).2 = Ret (seed_ref (w_env w) (w_db w)).1 /\
  w_db (load_source_table w).1 = (seed_ref (w_env w) (w_db w)).2 /\
  w_conn (load_source_table w).1 = ConnClosed.
Proof. apply load_source_table_ref. Qed.

Lemma load_source_table_equiv_ref_witness :
  (w_faults demo_world = [] /\ w_accepts demo_world (db_params (w_env demo_world)) = true /\
   wf_db (w_db demo_world)) /\
  (load_source_table demo_world).2 = Ret (seed_ref (w_env demo_world) (w_db demo_world)).1 /\
  w_db (load_source_table demo_world).1 = (seed_ref (w_env demo_world) (w_db demo_world)).2 /\
  w_conn (load_source_table demo_world).1 = ConnClosed.
Proof.
  assert (Hwf : wf_db (w_db demo_world)).
  { apply map_Forall_singleton. vm_compute. repeat constructor. }
  split; [split; [reflexivity|split; [reflexivity|exact Hwf]]|].
  apply load_source_table_equiv_ref; [reflexivity|reflexivity|exact Hwf].
Defined.
