(* ===== verification/RoundTrips.v ===== *)
(** * How many round trips a run makes

    Every round trip to the server ([connect], [execute], [commit],
    [rollback]) takes one entry of the fault schedule [w_faults]; nothing
    else does.  [uses_at_most n c] says that [c] takes at most [n] entries,
    from the front: the schedule after is the one before with [k <= n]
    entries dropped.  The rules below compose the bound along the code,
    top-down: the budget left for the rest of a sequence is the budget
    minus what its first call may take, and both branches of a conditional
    get the same budget.

    [load_source_table] makes at most nine round trips: connect, the
    SELECT, the source INSERT, four daimon INSERTs, COMMIT, and a ROLLBACK
    when something after the connect failed ([load_source_table_round_trips]);
    a COMMIT that fails reaches the nine. *)

From S2P Require Import Prelude Python Postgres Psycopg Config Connection Populate.

Local Open Scope py_scope.

Definition uses_at_most {A} (n : nat) (c : Py A) : Prop :=
  forall w, exists k, k <= n /\ w_faults (c w).1 = drop k (w_faults w).

Create HintDb s2p_uses discriminated.

(** ** Rules *)

Section Rules.
Context {A B : Type}.

Lemma uses_ret N (a : A) : uses_at_most N (sret a).
Proof. intros w. exists 0. split; [lia|done]. Qed.

Lemma uses_raise N e : uses_at_most (A:=A) N (sraise e).
Proof. intros w. exists 0. split; [lia|done]. Qed.

Lemma uses_get N : uses_at_most N sget.
Proof. intros w. exists 0. split; [lia|done]. Qed.

Lemma uses_modify N f : (forall w, w_faults (f w) = w_faults w) -> uses_at_most N (smodify f).
Proof. intros Hf w. exists 0. split; [lia|]. apply Hf. Qed.

Lemma uses_le n N (c : Py A) : n <= N -> uses_at_most n c -> uses_at_most N c.
Proof. intros Hle Hc w. destruct (Hc w) as (k & Hk & H). exists k. split; [lia|done]. Qed.

Lemma uses_bind_le n N (c : Py A) (k : A -> Py B) :
  uses_at_most n c -> (forall a, uses_at_most (N - n) (k a)) -> n <= N ->
  uses_at_most N (sbind c k).
Proof.
  intros Hc Hk Hle w. destruct (Hc w) as (k1 & Hk1 & H1). unfold sbind.
  destruct (c w) as [w1 [a|e]]; simpl in *; [|exists k1; split; [lia|done]].
  destruct (Hk a w1) as (k2 & Hk2 & H2). exists (k1 + k2). split; [lia|].
  by rewrite H2, H1, drop_drop.
Qed.

Lemma uses_try_except_le n N f (c : Py A) h :
  uses_at_most n c -> (forall e, uses_at_most (N - n) (h e)) -> n <= N ->
  uses_at_most N (stry_except f c h).
Proof.
  intros Hc Hh Hle w. destruct (Hc w) as (k1 & Hk1 & H1). unfold stry_except.
  destruct (c w) as [w1 [a|e]]; simpl in *; [exists k1; split; [lia|done]|].
  destruct (f e); [|exists k1; split; [lia|done]].
  destruct (Hh e w1) as (k2 & Hk2 & H2). exists (k1 + k2). split; [lia|].
  by rewrite H2, H1, drop_drop.
Qed.

Lemma uses_try_finally_le m N (c : Py A) fin :
  uses_at_most (N - m) c -> uses_at_most m fin -> m <= N ->
  uses_at_most N (stry_finally c fin).
Proof.
  intros Hc Hf Hle w. destruct (Hc w) as (k1 & Hk1 & H1). unfold stry_finally.
  destruct (c w) as [w1 r1]; simpl in *. destruct (Hf w1) as (k2 & Hk2 & H2).
  destruct (fin w1) as [w2 [u|e]]; simpl in *;
    (exists (k1 + k2); split; [lia|by rewrite H2, H1, drop_drop]).
Qed.

Lemma uses_catch N (c : Py A) : uses_at_most N c -> uses_at_most N (scatch c).
Proof. intros Hc w. destruct (Hc w) as (k & Hk & H). unfold scatch. by destruct (c w); exists k. Qed.
End Rules.

Lemma uses_next_fault : uses_at_most 1 next_fault.
Proof.
  intros w. unfold next_fault. destruct (w_faults w) as [|f fs] eqn:Hf.
  - exists 0. split; [lia|]. cbn. by rewrite ?Hf.
  - exists 1. split; [lia|]. cbn. by rewrite ?Hf.
Qed.

Lemma uses_py_getitem {V} (d : gmap string V) k : uses_at_most 0 (py_getitem d k).
Proof. unfold py_getitem. case_match; [apply uses_ret|apply uses_raise]. Qed.

#[export] Hint Resolve uses_next_fault uses_py_getitem uses_catch : s2p_uses.

(** Walk a computation: calls with a known bound come from [s2p_uses];
    calls that touch no round trip are stepped over. *)
Ltac uses_tac :=
  repeat first
    [ progress intros
    | progress (cbv beta iota)
    | solve [eauto with s2p_uses]
    | solve [eapply uses_le; [|solve [eauto with s2p_uses]]; lia]
    | apply uses_ret | apply uses_raise | apply uses_get
    | apply uses_modify; intros; reflexivity
    | apply uses_catch
    | eapply uses_bind_le; [solve [eauto with s2p_uses] | | lia]
    | eapply uses_try_except_le; [solve [eauto with s2p_uses] | | lia]
    | eapply uses_try_finally_le; [ | solve [eauto with s2p_uses] | lia]
    | eapply (uses_bind_le 0); [apply uses_modify; intros; reflexivity | | lia]
    | eapply (uses_bind_le 0); [apply uses_get | | lia]
    | case_match ].

(** ** The library calls *)

Section Calls.
Context (c : connection) (cur : cursor).

Lemma uses_pg_connect p : uses_at_most 1 (pg_connect p).
Proof. unfold pg_connect, emit. uses_tac. Qed.

Lemma uses_conn_cursor : uses_at_most 0 (conn_cursor c).
Proof. unfold conn_cursor. uses_tac. Qed.

Lemma uses_cur_close : uses_at_most 0 (cur_close cur).
Proof. unfold cur_close. uses_tac. Qed.

Lemma uses_cur_execute st : uses_at_most 1 (cur_execute cur st).
Proof. unfold cur_execute, server_exec, emit. uses_tac. Qed.

Lemma uses_cur_fetchone : uses_at_most 0 (cur_fetchone cur).
Proof. unfold cur_fetchone. uses_tac. Qed.

Lemma uses_conn_commit : uses_at_most 1 (conn_commit c).
Proof. unfold conn_commit, server_commit, emit. uses_tac. Qed.

Lemma uses_conn_rollback : uses_at_most 1 (conn_rollback c).
Proof. unfold conn_rollback, emit. uses_tac. Qed.

Lemma uses_conn_close : uses_at_most 0 (conn_close c).
Proof. unfold conn_close, emit. uses_tac. Qed.

Lemma uses_log lv m : uses_at_most 0 (log lv m).
Proof. unfold log. uses_tac. Qed.
End Calls.

#[export] Hint Resolve uses_pg_connect uses_conn_cursor uses_cur_close uses_cur_execute
  uses_cur_fetchone uses_conn_commit uses_conn_rollback uses_conn_close uses_log : s2p_uses.

(** [executemany] makes one round trip per parameter tuple. *)
Lemma uses_cur_executemany {P} cur (q : P -> stmt) ps :
  uses_at_most (length ps) (cur_executemany cur q ps).
Proof.
  induction ps as [|x ps IH]; simpl; [apply uses_ret|].
  eapply uses_bind_le; [apply uses_cur_execute| |lia]. intros _.
  eapply uses_le; [|exact IH]. lia.
Qed.

(** ** The script's functions *)

Section Script.
Context (cur : cursor) (conn : connection) (cfg : gmap string string) (sch : string).

Lemma uses_source_exists key : uses_at_most 1 (source_exists cur key sch).
Proof. unfold source_exists. uses_tac. Qed.

Lemma uses_create_source : uses_at_most 1 (create_source cur cfg sch).
Proof. unfold create_source, log_info. uses_tac. Qed.

Lemma uses_create_source_daimons id : uses_at_most 4 (create_source_daimons cur id cfg sch).
Proof.
  unfold create_source_daimons, log_info. uses_tac.
  eapply uses_bind_le; [apply uses_cur_executemany| |simpl; lia]. uses_tac.
Qed.
End Script.

#[export] Hint Resolve uses_source_exists uses_create_source uses_create_source_daimons : s2p_uses.

Lemma uses_load_body cfg sch conn cur : uses_at_most 7 (load_body cfg sch conn cur).
Proof. unfold load_body, log_info. uses_tac. Qed.

Lemma uses_with_cursor {A} n conn (body : cursor -> Py A) :
  (forall cur, uses_at_most n (body cur)) -> uses_at_most n (with_cursor conn body).
Proof. intros Hb. unfold with_cursor. uses_tac. Qed.

Lemma uses_db_error_handler conn e : uses_at_most 1 (db_error_handler conn e).
Proof. unfold db_error_handler, log_error. uses_tac. Qed.

#[export] Hint Resolve uses_load_body uses_db_error_handler : s2p_uses.

(** The context manager adds the connect and, on an error, the rollback. *)
Lemma uses_get_db_connection {A} n (body : connection -> Py A) :
  (forall c, uses_at_most n (body c)) -> uses_at_most (n + 2) (get_db_connection body).
Proof. intros Hb. unfold get_db_connection, log_error. uses_tac. Qed.

#[export] Hint Resolve uses_with_cursor uses_get_db_connection : s2p_uses.

Lemma uses_load_source_table : uses_at_most 9 load_source_table.
Proof. unfold load_source_table, log_error. uses_tac. Qed.

(** A schedule whose eighth entry fails the COMMIT. *)
Definition commit_fault_faults : list (option fault) :=
  replicate 7 None ++ [Some (Fail OperationalError); None; None].

(** C22. Bounds: whatever the world and the fault schedule, a run of
    [load_source_table] makes at most nine round trips to the server, and
    so takes at most the first nine entries of the schedule: connect, the
    SELECT, the source INSERT, the four daimon INSERTs, COMMIT, and the
    ROLLBACK of the [except] of line 36.  The bound is reached: a run
    whose COMMIT fails takes exactly nine. *)
Theorem load_source_table_round_trips :
  uses_at_most 9 load_source_table /\
  w_faults (load_source_table (set_faults commit_fault_faults demo_world)).1 =
    drop 9 commit_fault_faults.
Proof. split; [exact uses_load_source_table|vm_compute; reflexivity]. Qed.
