(* ===== verification/Atomicity.v ===== *)
(** * The seeding under every fault: the contract of [load_source_table]

    [Populate] proves what a run without faults does.  This file proves
    what every run does, whatever the fault schedule injects and wherever
    the server refuses (missing schema, key violations): the committed
    rows afterwards are the rows before, or the rows before with exactly
    the five rows of one seeding; the connection is not left open; a
    [True] with no new rows means the key was there ([load_contract],
    [load_source_table_refines]).  The proofs compose the triples of
    [Psycopg] along the code of [Populate].  From the contract follows
    the invariant that source keys stay unique.  What the contract leaves
    open (a lost reply to COMMIT reports [False] over committed rows, a
    failed seeding consumes an id) is in [Faults]. *)

From S2P Require Import Prelude Python Postgres Psycopg Config Connection Populate.

Local Open Scope py_scope.

(** The committed state once the five writes of a seeding are applied. *)
Lemma view_seed D sch env sc :
  D !! sch = Some sc ->
  view (alter bump_seq sch D)
    (WSource sch (source_row_of env (sc_next_id sc)) ::
     map (fun d => WDaimon sch (daimon_row_of d)) (daimon_params env (sc_next_id sc))) =
  <[sch := seeded_schema env sc]> D.
Proof.
  intros Hsc. unfold view. simpl. rewrite !alter_alter_eq.
  rewrite (alter_lookup_Some _ _ _ sc) by done. f_equal.
  unfold seeded_schema, add_daimon, add_source, bump_seq. simpl. by rewrite <- !app_assoc.
Qed.

(** The key is in the committed schema. *)
Definition key_seen (D : database) (sch key : string) : Prop :=
  exists sc, D !! sch = Some sc /\ filter (fun r => source_key r = key) (sc_source sc) <> [].

(** What the body of the [with] blocks promises about the committed
    database [D'] it leaves, from [D]: it returns [True] or raises a
    Python exception; and either the rows are those of [D] ([True] then
    means the key was there), or they are the rows of [D] with the five
    rows of one seeding of a schema that lacked the key. *)
Definition body_post (env : gmap string string) (sch : string) (D : database)
    (r : outcome exn bool) (D' : database) : Prop :=
  match r with Ret b => b = true | Raise e => db_exception e end /\
  ((rows_of D' = rows_of D /\ (r = Ret true -> key_seen D sch (cfg env "key"))) \/
   (exists sc, D !! sch = Some sc /\
               filter (fun r => source_key r = cfg env "key") (sc_source sc) = [] /\
               rows_of D' = rows_of (<[sch := seeded_schema env sc]> D))).

(** A step that raised left the rows as they were and the connection
    open: the body's promise holds. *)
Lemma body_post_raise env sch D D' e w :
  db_exception e -> broken D' w -> rows_of D' = rows_of D ->
  body_post env sch D (Raise e) (w_db w) /\ exists p ab, w_conn w = ConnOpen p ab.
Proof.
  intros He [Hrows Hopen] HD. split; [|done]. split; [done|]. left.
  split; [congruence|discriminate].
Qed.

Section BodySpecs.
Context (cur : cursor) (env : gmap string string) (sch : string).
Implicit Types (D : database) (w : world).

Lemma cfg_getitem_spec D cs k :
  k ∈ config_keys ->
  triple (at_state D cs) (py_getitem (source_config env) k)
    (fun r w => r = Ret (cfg env k) /\ at_state D cs w).
Proof. intros Hk w Hw. by rewrite cfg_getitem_run. Qed.

(** [source_exists] answers whether the transaction sees the key. *)
Lemma source_exists_spec D p key :
  triple (at_state D (ConnOpen p false)) (source_exists cur key sch)
    (fun r w => match r with
                | Ret b => at_state D (ConnOpen p false) w /\
                           exists sc, view D p !! sch = Some sc /\
                             (b = true <-> filter (fun r => source_key r = key) (sc_source sc) <> [])
                | Raise e => db_exception e /\ broken D w
                end).
Proof.
  intros w Hw. unfold source_exists. rewrite sbind_run.
  pose proof (cur_execute_spec cur D p (SelectSourceByKey sch key) w Hw) as H1.
  destruct (cur_execute cur _ w) as [w1 [[]|e]]; simpl in H1 |- *; [|done].
  destruct H1 as (p' & rows & Hex & Hc1 & Hk1).
  apply exec_select_ok in Hex as (Hdb1 & -> & sc & Hsc & ->).
  rewrite sbind_run.
  pose proof (cur_fetchone_spec cur D (ConnOpen p false) _ w1 (conj Hdb1 (conj Hc1 Hk1))) as H2.
  destruct (cur_fetchone cur w1) as [w2 r2]; simpl in H2 |- *. destruct H2 as [-> Hat].
  split; [done|]. exists sc. split; [done|].
  destruct (filter _ (sc_source sc)); simpl; split; done.
Qed.
(** [create_source] inserts the source row with the next id of the
    sequence and returns that id. *)
Lemma create_source_spec D p :
  triple (at_state D (ConnOpen p false)) (create_source cur (source_config env) sch)
    (fun r w => match r with
                | Ret id => exists sc, view D p !! sch = Some sc /\ key_taken sc (cfg env "key") = false /\
                    id = sc_next_id sc /\
                    at_state (alter bump_seq sch D)
                      (ConnOpen (p ++ [WSource sch (source_row_of env id)]) false) w
                | Raise e => db_exception e /\ broken D w
                end).
Proof.
  intros w Hw. unfold create_source. do 4 run_cfg. rewrite sbind_run.
  pose proof (cur_execute_spec cur D p (insert_source_stmt env sch) w Hw) as H1.
  destruct (cur_execute cur _ w) as [w1 [[]|e]]; simpl in H1 |- *; [|done].
  destruct H1 as (p' & rows & Hex & Hc1 & Hk1).
  apply exec_insert_source_ok in Hex as (sc & Hsc & Hkt & Hdb1 & -> & ->).
  rewrite sbind_run.
  pose proof (cur_fetchone_spec cur _ _ _ w1 (conj Hdb1 (conj Hc1 Hk1))) as H2.
  destruct (cur_fetchone cur w1) as [w2 r2]; simpl in H2 |- *. destruct H2 as [-> Hat].
  rewrite (sbind_ret_run _ _ w2 w2 (sc_next_id sc)) by (apply py_getitem_run, lookup_singleton_eq).
  simpl. eauto.
Qed.

(** [create_source_daimons] adds the four daimon rows to the transaction,
    provided the source row it references is visible. *)
Lemma executemany_daimons_spec (ds : list (Z * Z * string * Z)) : forall D p sc,
  view D p !! sch = Some sc ->
  Forall (fun d => has_source_id (sd_source_id (daimon_row_of d)) (sc_source sc) = true) ds ->
  triple (at_state D (ConnOpen p false)) (cur_executemany cur (daimon_stmt sch) ds)
    (fun r w => match r with
                | Ret _ => at_state D (ConnOpen (p ++ map (fun d => WDaimon sch (daimon_row_of d)) ds) false) w
                | Raise e => db_exception e /\ broken D w
                end).
Proof.
  induction ds as [|[[[sid t] q] pr] ds IH]; intros D p sc Hsc Hds w Hw; simpl.
  { by rewrite app_nil_r. }
  apply Forall_cons in Hds as [Hd Hds]. rewrite sbind_run.
  pose proof (cur_execute_spec cur D p (InsertSourceDaimon sch sid t q pr) w Hw) as H1.
  destruct (cur_execute cur _ w) as [w1 [[]|e]]; simpl in H1 |- *; [|done].
  destruct H1 as (p' & rows & Hex & Hc1 & Hk1).
  apply exec_insert_daimon_ok in Hex as (Hdb1 & -> & ->).
  pose proof (IH D _ (add_daimon (mk_daimon_row sid t q pr) sc) (view_snoc_daimon _ _ _ _ _ Hsc) Hds w1
                (conj Hdb1 (conj Hc1 (mk_is_Some _ _ Hk1)))) as H2.
  by rewrite <- app_assoc in H2.
Qed.

Lemma create_source_daimons_spec D p id sc :
  view D p !! sch = Some sc -> has_source_id id (sc_source sc) = true ->
  triple (at_state D (ConnOpen p false)) (create_source_daimons cur id (source_config env) sch)
    (fun r w => match r with
                | Ret _ => at_state D (ConnOpen (p ++ map (fun d => WDaimon sch (daimon_row_of d))
                                                          (daimon_params env id)) false) w
                | Raise e => db_exception e /\ broken D w
                end).
Proof.
  intros Hsc Hid w Hw. unfold create_source_daimons. do 4 run_cfg. rewrite sbind_run.
  pose proof (executemany_daimons_spec (daimon_params env id) D p sc Hsc
                ltac:(by repeat constructor) w Hw) as H1.
  destruct (cur_executemany _ _ _ w) as [w1 [[]|e]]; simpl in H1 |- *; done.
Qed.
Lemma load_body_spec D :
  triple (at_state D (ConnOpen [] false)) (load_body (source_config env) sch Connection cur)
    (fun r w => body_post env sch D r (w_db w) /\ exists p ab, w_conn w = ConnOpen p ab).
Proof.
  intros w Hw. unfold load_body. run_cfg. rewrite sbind_run.
  pose proof (source_exists_spec D [] (cfg env "key") w Hw) as H1.
  destruct (source_exists cur _ sch w) as [w1 [b|e]]; simpl in H1 |- *.
  2: { destruct H1 as [He Hb]. by apply (body_post_raise _ _ _ D _ _ He Hb). }
  destruct H1 as (Hat1 & sc & Hsc & Hb). rewrite ?view_nil in Hsc.
  destruct b.
  { run_cfg. simpl. destruct Hat1 as (Hdb1 & Hc1 & _). split; [|eauto].
    split; [done|]. left. rewrite Hdb1. split; [done|]. intros _. exists sc. by rewrite <- Hb. }
  assert (filter (fun r => source_key r = cfg env "key") (sc_source sc) = []) as Hkey.
  { destruct (filter _ _); [done|]. by assert (false = true) by (apply Hb; done). }
  run_cfg. erewrite sbind_ret_run; [|apply log_run].
  rewrite sbind_run.
  match goal with |- context [create_source _ _ _ ?w'] =>
    pose proof (create_source_spec D [] w' Hat1) as H2 end.
  destruct (create_source _ _ _ _) as [w2 [id|e]]; simpl in H2 |- *.
  2: { destruct H2 as [He Hbr]. by apply (body_post_raise _ _ _ D _ _ He Hbr). }
  destruct H2 as (sc' & Hsc' & _ & -> & Hat2). rewrite ?view_nil, Hsc in Hsc'. injection Hsc' as <-.
  rewrite sbind_run.
  pose proof (create_source_daimons_spec _ _ (sc_next_id sc) _
                (view_snoc_source D [] sch (source_row_of env (sc_next_id sc)) sc Hsc)
                ltac:(simpl; rewrite has_source_id_snoc; apply orb_true_iff; right; by apply bool_decide_eq_true)
                w2 Hat2) as H3.
  destruct (create_source_daimons _ _ _ _ _) as [w3 [[]|e]]; simpl in H3 |- *.
  2: { destruct H3 as [He Hbr]. apply (body_post_raise _ _ _ _ _ _ He Hbr), rows_of_alter_bump. }
  rewrite sbind_run.
  pose proof (conn_commit_spec Connection _ _ w3 H3) as H4.
  destruct (conn_commit Connection w3) as [w4 [[]|e]]; cbn [fst snd] in H4;
    destruct H4 as [Hopen4 H4]; simpl.
  - split; [|done]. split; [done|]. right. exists sc. rewrite H4, view_seed by done. done.
  - destruct H4 as [He [Hdb4|Hdb4]]; split; try done; split; try done.
    + left. rewrite Hdb4, rows_of_alter_bump. split; [done|congruence].
    + right. exists sc. rewrite Hdb4, view_seed by done. done.
Qed.
End BodySpecs.

(** ** Read your writes *)

(** The key was found, and the committed rows are still those of [D];
    or a [psycopg2] error was raised. *)
Definition found_uncommitted (D : database) (r : outcome exn bool) (w : world) : Prop :=
  match r with
  | Ret b => b = true /\ rows_of (w_db w) = rows_of D
  | Raise e => db_exception e
  end.

(** C23. Round trip within one transaction: after [create_source] has
    inserted the source row, the existence check of line 106 on the same
    cursor finds the key, although nothing is committed yet.  Under every
    fault schedule, [create_source] followed by [source_exists] either
    raises a [psycopg2] error or answers [True], with the committed rows
    unchanged. *)
Theorem insert_then_exists_roundtrip cur env sch D p :
  triple (at_state D (ConnOpen p false))
    (create_source cur (source_config env) sch;; source_exists cur (cfg env "key") sch)
    (found_uncommitted D).
Proof.
  intros w Hw. rewrite sbind_run.
  pose proof (create_source_spec cur env sch D p w Hw) as H1.
  destruct (create_source cur _ sch w) as [w1 [id|e]]; simpl in H1 |- *; [|by destruct H1].
  destruct H1 as (sc & Hsc & _ & -> & Hat).
  pose proof (source_exists_spec cur sch _ _ (cfg env "key") w1 Hat) as H2.
  destruct (source_exists cur _ sch w1) as [w2 [b|e]]; simpl in H2 |- *; [|by destruct H2].
  destruct H2 as ((Hdb2 & _) & sc' & Hsc' & Hiff).
  rewrite (view_snoc_source _ _ _ _ _ Hsc) in Hsc'. injection Hsc' as <-.
  rewrite Hdb2, rows_of_alter_bump. split; [|done]. apply Hiff. simpl.
  rewrite filter_app, filter_cons_True by done. intros [_ ?]%app_eq_nil. discriminate.
Qed.

Definition roundtrip_prog : Py bool :=
  create_source Cursor (source_config ∅) "new_one";; source_exists Cursor (cfg ∅ "key") "new_one".

Definition roundtrip_world : world := set_cursor (Some []) (connected_world demo_world).

Lemma insert_then_exists_roundtrip_witness :
  at_state (w_db demo_world) (ConnOpen [] false) roundtrip_world /\
  found_uncommitted (w_db demo_world) (roundtrip_prog roundtrip_world).2
    (roundtrip_prog roundtrip_world).1.
Proof.
  assert (Hat : at_state (w_db demo_world) (ConnOpen [] false) roundtrip_world)
    by (split; [reflexivity|split; [reflexivity|eexists; reflexivity]]).
  split; [exact Hat|].
  exact (insert_then_exists_roundtrip Cursor ∅ "new_one" (w_db demo_world) [] roundtrip_world Hat).
Defined.

(** ** The contract of [load_source_table] *)

(** What the seeding step promises, from world [w] to world [w'] with
    outcome [r]:
    - it returns a boolean, never an exception;
    - it leaves no connection open (the connection is as before, when
      connecting failed, or closed);
    - the committed rows are either those of [w] ([True] then means the
      key was present), or those of [w] with exactly one seeding of the
      target schema added, which happens only when the key was absent.
    A run that reports [False] may still have committed (a COMMIT whose
    reply was lost): the contract does not tie [False] to unchanged rows. *)
Definition load_contract (w : world) (r : outcome exn bool) (w' : world) : Prop :=
  let env := w_env w in
  let sch := target_schema env in
  let D := w_db w in
  (exists b, r = Ret b) /\
  (w_conn w' = w_conn w \/ w_conn w' = ConnClosed) /\
  ((rows_of (w_db w') = rows_of D /\ (r = Ret true -> key_seen D sch (cfg env "key"))) \/
   (exists sc, D !! sch = Some sc /\
               filter (fun r => source_key r = cfg env "key") (sc_source sc) = [] /\
               rows_of (w_db w') = rows_of (<[sch := seeded_schema env sc]> D))).

Lemma seeding_body_spec env sch D :
  triple (fun w => w_db w = D /\ w_conn w = ConnOpen [] false)
    (with_cursor Connection (load_body (source_config env) sch Connection))
    (fun r w => body_post env sch D r (w_db w) /\ exists p ab, w_conn w = ConnOpen p ab).
Proof. apply with_cursor_spec; [intros cur; apply load_body_spec|done]. Qed.

(** The [except Exception] of line 118 on an outcome [r1] of the [with]
    statement. *)
Lemma load_handler_run w1 (r1 : outcome exn bool) (c : Py bool) w :
  c w = (w1, r1) ->
  match r1 with Raise e => db_exception e | Ret _ => True end ->
  stry_except is_Exception c
    (fun e => log_error ("Failed to load source table: " +:+ exn_str e);; sret false) w =
  match r1 with
  | Ret b => (w1, Ret b)
  | Raise e => (add_log (ERROR, "Failed to load source table: " +:+ exn_str e) w1, Ret false)
  end.
Proof.
  intros Hc He. destruct r1 as [b|e]; [by apply stry_except_ret_run|].
  by rewrite (stry_except_catch_run _ _ _ _ _ _ Hc (db_exception_py _ He)).
Qed.

Lemma load_source_table_contract w :
  load_contract w (load_source_table w).2 (load_source_table w).1.
Proof.
  unfold load_source_table. rewrite (sbind_ret_run sget _ w w w) by done. cbv beta.
  pose proof (get_db_connection_spec
                (fun conn => with_cursor conn (load_body (source_config (w_env w)) (target_schema (w_env w)) conn))
                (w_db w) (w_conn w)
                (fun r D' => body_post (w_env w) (target_schema (w_env w)) (w_db w) r D')
                (seeding_body_spec _ _ _) w (conj eq_refl eq_refl)) as H.
  destruct (get_db_connection _ w) as [w1 r1] eqn:E. simpl in H.
  destruct H as [(Hdb & Hc & e & -> & He)|(Hc & r0 & (Hr0 & Hrows) & Hr)].
  - rewrite (load_handler_run w1 (Raise e) _ w E He). unfold load_contract. simpl.
    split; [eauto|]. split; [by left|]. left. rewrite Hdb. split; [done|congruence].
  - assert (match r1 with Raise e => db_exception e | Ret _ => True end) as He.
    { destruct Hr as [->|(e0 & e & -> & -> & He)]; [|done]. by destruct r0. }
    rewrite (load_handler_run w1 r1 _ w E He). unfold load_contract.
    destruct r1 as [b|e]; simpl; (split; [eauto|]); (split; [by right|]).
    + destruct Hr as [<-|(? & ? & _ & ? & _)]; [|done]. done.
    + destruct Hrows as [[Hrows Hseen]|Hseed]; [left; split; [done|congruence]|by right].
Qed.

(** What may leave the [with] statement of lines 104-116: [True], or a
    [psycopg2] error. *)
Definition block_outcome_ok (r : outcome exn bool) : Prop :=
  match r with Ret b => b = true | Raise e => db_exception e end.

(** C9. The exceptions that reach the [except Exception] of line 118
    are, whatever the faults, always [psycopg2] errors: never the
    [KeyError] or [TypeError] the subscripts of lines 59-65 and 73-76
    could raise, because [source_config] holds every key the code reads
    and the row [INSERT ... RETURNING source_id] gives back always has
    the column.  When nothing is raised the [with] statement yields
    [True]. *)
Theorem seeding_block_raises_db_errors w :
  block_outcome_ok
    (get_db_connection (fun conn => with_cursor conn
       (load_body (source_config (w_env w)) (target_schema (w_env w)) conn)) w).2.
Proof.
  pose proof (get_db_connection_spec
                (fun conn => with_cursor conn (load_body (source_config (w_env w)) (target_schema (w_env w)) conn))
                (w_db w) (w_conn w)
                (fun r D' => body_post (w_env w) (target_schema (w_env w)) (w_db w) r D')
                (seeding_body_spec _ _ _) w (conj eq_refl eq_refl)) as H.
  destruct (get_db_connection _ w) as [w1 r1]. simpl in H |- *.
  destruct H as [(_ & _ & e & -> & He)|(_ & r0 & (Hr0 & _) & [<-|(_ & e & _ & -> & He)])];
    done.
Qed.

(** C1. Refinement: every run of [load_source_table], from any world,
    under any fault schedule and any answer of the server, satisfies
    [load_contract].  In particular the seeding is atomic: the committed
    rows afterwards are the rows before, or the rows before with all five
    rows of one seeding, never a part of them. *)
Theorem load_source_table_refines w :
  load_contract w (load_source_table w).2 (load_source_table w).1.
Proof. apply load_source_table_contract. Qed.


(** ** Fault schedules of the witnesses *)

(** [demo_world] with a fault schedule: a run does eight round trips
    (connect, SELECT, INSERT source, four INSERT daimon, COMMIT). *)
Definition faulty_demo_world (fs : list (option fault)) : world := set_faults fs demo_world.

(** The COMMIT reaches the server but its reply is lost. *)
Definition lost_commit_faults : list (option fault) :=
  replicate 7 None ++ [Some (LostReply OperationalError)].

(** The first daimon INSERT fails after the source INSERT drew an id. *)
Definition daimon_fault_faults : list (option fault) :=
  replicate 3 None ++ [Some (Fail OperationalError)].

(** ** Invariants under every fault *)

(** Source keys are unique in every schema of [db]. *)
Definition keys_ok (db : database) : Prop := map_Forall (fun _ => keys_unique) db.

Lemma keys_ok_rows db1 db2 : same_rows db1 db2 -> keys_ok db1 -> keys_ok db2.
Proof.
  intros Hr Hk s sc2 Hs2.
  destruct (rows_of_lookup db2 db1 s sc2) as (sc1 & Hs1 & Hsrc & _); [done|done|].
  unfold keys_unique. rewrite <- Hsrc. exact (Hk s sc1 Hs1).
Qed.

#[export] Instance keys_ok_proper : Proper (same_rows ==> iff) keys_ok.
Proof. intros db1 db2 Hr. split; apply keys_ok_rows; by rewrite Hr. Qed.

Lemma keys_unique_seeded env sc :
  keys_unique sc -> filter (fun r => source_key r = cfg env "key") (sc_source sc) = [] ->
  keys_unique (seeded_schema env sc).
Proof.
  intros Hk Hf. unfold keys_unique. simpl. rewrite fmap_app. apply NoDup_app.
  split; [done|]. split; [|apply NoDup_singleton].
  intros k Hk1 ->%list_elem_of_singleton. apply list_elem_of_fmap in Hk1 as (r & Hr & Hin).
  by eapply filter_nil_not_elem_of; [exact Hf| |exact Hin].
Qed.

(** C15. Invariant: whatever the faults, [load_source_table] keeps source
    keys unique in every schema.  The existence check and the insert run
    in one transaction, so a run inserts the key only into a schema where
    it was absent when the transaction read it. *)
Theorem load_source_table_keys_unique w :
  keys_ok (w_db w) -> keys_ok (w_db (load_source_table w).1).
Proof.
  intros Hk. destruct (load_source_table_contract w) as (_ & _ & [[Hr _]|(sc & Hsc & Hf & Hr)]);
    same_rows_in Hr; rewrite Hr; [done|].
  apply map_Forall_insert_2; [|done]. apply keys_unique_seeded; [exact (Hk _ _ Hsc)|done].
Qed.

Lemma load_source_table_keys_unique_witness :
  keys_ok (w_db (faulty_demo_world lost_commit_faults)) /\
  keys_ok (w_db (load_source_table (faulty_demo_world lost_commit_faults)).1).
Proof.
  assert (Hk : keys_ok (w_db (faulty_demo_world lost_commit_faults)))
    by (apply map_Forall_singleton; constructor).
  split; [exact Hk|]. exact (load_source_table_keys_unique _ Hk).
Defined.


(** ** What [True] promises *)

Lemma key_seen_rows D D' sch key : same_rows D D' -> key_seen D sch key -> key_seen D' sch key.
Proof.
  intros Hr (sc & Hsc & Hne).
  destruct (rows_of_lookup D D' sch sc) as (sc' & Hsc' & Hsrc & _); [done|done|].
  exists sc'. by rewrite Hsrc.
Qed.

#[export] Instance key_seen_proper : Proper (same_rows ==> eq ==> eq ==> iff) key_seen.
Proof. intros D D' Hr s ? <- k ? <-. split; apply key_seen_rows; by rewrite Hr. Qed.

Lemma key_seen_seeded D sch env sc :
  key_seen (<[sch := seeded_schema env sc]> D) sch (cfg env "key").
Proof.
  exists (seeded_schema env sc). rewrite lookup_insert_eq. split; [done|].
  simpl. rewrite filter_app, filter_cons_True by done.
  intros [_ ?]%app_eq_nil. discriminate.
Qed.

Lemma load_source_table_true_key w :
  (load_source_table w).2 = Ret true ->
  key_seen (w_db (load_source_table w).1) (target_schema (w_env w)) (cfg (w_env w) "key").
Proof.
  intros Ht. destruct (load_source_table_contract w) as (_ & _ & [[Hr Hseen]|(sc & _ & _ & Hr)]);
    same_rows_in Hr; rewrite Hr; [by apply Hseen|apply key_seen_seeded].
Qed.

(** C10. Whatever the faults, when [load_source_table] returns [True] the
    configured key is in the committed [source] table of the target
    schema afterwards: it was there, or this run committed it.  ([False]
    promises nothing either way: see the lost reply to COMMIT.) *)
Theorem load_source_table_true_committed w :
  (load_source_table w).2 = Ret true ->
  key_seen (w_db (load_source_table w).1) (target_schema (w_env w)) (cfg (w_env w) "key").
Proof. apply load_source_table_true_key. Qed.

Lemma load_source_table_true_committed_witness :
  (load_source_table (faulty_demo_world [])).2 = Ret true /\
  key_seen (w_db (load_source_table (faulty_demo_world [])).1)
    (target_schema (w_env (faulty_demo_world []))) (cfg (w_env (faulty_demo_world [])) "key").
Proof.
  assert (Ht : (load_source_table (faulty_demo_world [])).2 = Ret true) by (vm_compute; reflexivity).
  split; [exact Ht|]. exact (load_source_table_true_committed _ Ht).
Defined.
