(* ===== verification/Faults.v ===== *)
(** * Runs with a fault: what the contract of [Atomicity] leaves open

    [Atomicity] proves that under every fault schedule a run commits all
    five rows of one seeding or none.  Two behaviours fit the contract and
    not the spec's reading of [False] as "nothing was written":

    - an in-doubt COMMIT: the server commits but the reply is lost, so
      [conn.commit()] raises, [load_source_table] reports [False], and the
      five rows are committed ([lost_commit_reply_reports_failure]);
    - a failed seeding consumes an id: the first daimon INSERT fails after
      the source INSERT drew [nextval], the transaction is rolled back,
      and the sequence stays advanced ([failed_seeding_consumes_id]).

    Both are proved for every world: every environment, every database
    whose target schema is well formed and lacks the key, every error.

    The means is [shifts n c w]: run on [w] with [n] entries [None] in
    front of any fault schedule [fs], [c] does what it does on [w] without
    faults and leaves [fs] for what follows.  Each round trip that takes
    an entry ([pg_connect], [cursor.execute]) shifts by one, every other
    call by none, and shifts add up along [sbind]; so the fault-free run
    lemmas of [Populate] carry over to a schedule whose fault sits at a
    chosen round trip. *)

From S2P Require Import Prelude Python Postgres Psycopg Config Connection Populate Atomicity.

Local Open Scope py_scope.

(** [n] entries [None] in front of [fs]. *)
Definition shifted (n : nat) (fs : list (option fault)) (w : world) : world :=
  set_faults (replicate n None ++ fs) w.

Definition shifts {A} (n : nat) (c : Py A) (w : world) : Prop :=
  forall fs, c (shifted n fs w) = (set_faults fs (c w).1, (c w).2).

(** ** Rules *)

Section Rules.
Context {A B : Type}.
Implicit Types (w : world).

Lemma shift_run n (c : Py A) w w' r fs :
  shifts n c w -> c w = (w', r) -> c (shifted n fs w) = (set_faults fs w', r).
Proof. intros Hs Hc. by rewrite Hs, Hc. Qed.

Lemma shifted_add n m fs w : shifted (n + m) fs w = shifted n (replicate m None ++ fs) w.
Proof. unfold shifted. by rewrite replicate_add, <- app_assoc. Qed.

Lemma shifts_bind n m (c : Py A) (k : A -> Py B) w w1 a :
  shifts n c w -> c w = (w1, Ret a) -> shifts m (k a) w1 -> shifts (n + m) (sbind c k) w.
Proof.
  intros Hc Hrun Hk fs. unfold sbind. rewrite shifted_add.
  rewrite (shift_run _ _ _ _ _ _ Hc Hrun), Hrun. exact (Hk fs).
Qed.

Lemma shifts_bind_0 n (c : Py A) (k : A -> Py B) w w1 a :
  shifts n c w -> c w = (w1, Ret a) -> shifts 0 (k a) w1 -> shifts n (sbind c k) w.
Proof. intros Hc Hrun Hk. rewrite <- (Nat.add_0_r n). by eapply shifts_bind. Qed.

Lemma shifts_ret (a : A) w : shifts 0 (sret a) w.
Proof. by intros fs. Qed.

Lemma shifts_getitem {V} (d : gmap string V) k w : shifts 0 (py_getitem d k) w.
Proof. intros fs. unfold py_getitem. by destruct (d !! k). Qed.
End Rules.

(** ** The calls *)

Section Calls.
Implicit Types (w : world).

Lemma shifts_log lv m w : shifts 0 (log lv m) w.
Proof. by intros fs. Qed.

Lemma shifts_fetchone cur w : shifts 0 (cur_fetchone cur) w.
Proof. intros fs. unfold cur_fetchone, sbind, sget, smodify. simpl. by destruct (w_cursor w) as [[|]|]. Qed.

Lemma shifts_pg_connect p w : w_faults w = [] -> shifts 1 (pg_connect p) w.
Proof.
  intros Hf fs. unfold pg_connect, sbind, sget, emit, smodify, next_fault. simpl.
  rewrite Hf. simpl. by destruct (w_accepts w p).
Qed.

Lemma shifts_cur_execute cur st k p w :
  w_cursor w = Some k -> w_conn w = ConnOpen p false -> w_faults w = [] ->
  shifts 1 (cur_execute cur st) w.
Proof.
  intros Hk Hc Hf fs. unfold cur_execute, server_exec, sbind, sget, emit, smodify, next_fault. simpl.
  rewrite Hk, Hc. simpl. rewrite Hf. simpl. by destruct (exec_stmt (w_db w) p st) as [db' [e|[p' rows]]].
Qed.

(** A statement that fails: the transaction is marked failed. *)
Lemma cur_execute_fail_run cur st k p e fs w :
  w_cursor w = Some k -> w_conn w = ConnOpen p false -> w_faults w = Some (Fail e) :: fs ->
  cur_execute cur st w =
    (set_conn (ConnOpen p true) (set_faults fs (add_event (EExecute st) w)), Raise (DatabaseError e)).
Proof.
  intros Hk Hc Hf. unfold cur_execute, sbind, sget, emit, smodify, next_fault. simpl.
  rewrite Hk, Hc. simpl. by rewrite Hf.
Qed.

(** A COMMIT whose reply is lost: the server has committed. *)
Lemma conn_commit_lost_run c p e fs w :
  w_conn w = ConnOpen p false -> w_faults w = Some (LostReply e) :: fs ->
  conn_commit c w = (commit_world p (set_faults fs w), Raise (DatabaseError e)).
Proof.
  intros Hc Hf. unfold conn_commit, server_commit, sbind, sget, emit, smodify, next_fault.
  rewrite Hc. simpl. by rewrite Hf.
Qed.
End Calls.

(** Step over [source_config[k]], which takes no round trip. *)
Ltac shift_cfg :=
  eapply (shifts_bind 0); [apply shifts_getitem|apply cfg_getitem_run; cfg_key|].

(** ** The functions of the script with [None] entries in front *)

Section Functions.
Context (env : gmap string string) (sch : string).
Implicit Types (w : world).

Lemma source_exists_absent_shift_run w cur k p key sc fs :
  w_cursor w = Some k -> w_conn w = ConnOpen p false -> w_faults w = [] ->
  view (w_db w) p !! sch = Some sc ->
  filter (fun r => source_key r = key) (sc_source sc) = [] ->
  source_exists cur key sch (shifted 1 fs w) =
    (set_faults fs (exec_world (SelectSourceByKey sch key) [] p (w_db w) w), Ret false).
Proof.
  intros Hk Hc Hf Hv Hfl. eapply shift_run; [|by eapply source_exists_absent_run].
  unfold source_exists. eapply shifts_bind_0; [by eapply shifts_cur_execute| |].
  - eapply cur_execute_run; eauto. by rewrite (exec_select _ _ _ _ sc), Hfl.
  - eapply (shifts_bind 0 0); [apply shifts_fetchone|by apply cur_fetchone_none|apply shifts_ret].
Qed.

Lemma create_source_shift_run w cur k p sc fs :
  w_cursor w = Some k -> w_conn w = ConnOpen p false -> w_faults w = [] ->
  view (w_db w) p !! sch = Some sc -> wf_schema sc -> key_taken sc (cfg env "key") = false ->
  create_source cur (source_config env) sch (shifted 1 fs w) =
    (set_faults fs (create_world env sch p sc w), Ret (sc_next_id sc)).
Proof.
  intros Hk Hc Hf Hv Hwf Hkey. eapply shift_run; [|by eapply create_source_run].
  unfold create_source. do 4 shift_cfg.
  eapply shifts_bind_0; [by eapply shifts_cur_execute| |].
  { eapply cur_execute_run; eauto. by apply exec_insert_source. }
  eapply (shifts_bind 0 0); [apply shifts_fetchone|by apply cur_fetchone_run|].
  eapply (shifts_bind 0 0); [apply shifts_getitem|by apply py_getitem_run, lookup_singleton_eq|].
  eapply (shifts_bind 0 0); [apply shifts_log|apply log_run|apply shifts_ret].
Qed.

Lemma shifts_executemany_daimons ds : forall w cur k p sc,
  w_cursor w = Some k -> w_conn w = ConnOpen p false -> w_faults w = [] ->
  view (w_db w) p !! sch = Some sc ->
  Forall (fun d => has_source_id (sd_source_id (daimon_row_of d)) (sc_source sc) = true) ds ->
  shifts (length ds) (cur_executemany cur (daimon_stmt sch) ds) w.
Proof.
  induction ds as [|[[[sid t] q] pr] ds IH]; intros w cur k p sc Hk Hc Hf Hv Hds; [apply shifts_ret|].
  apply Forall_cons in Hds as [Hd Hds]. simpl.
  eapply (shifts_bind 1); [by eapply shifts_cur_execute|eapply cur_execute_run; eauto; by eapply exec_insert_daimon|].
  eapply (IH _ _ _ _ (add_daimon _ sc)); try done. by apply view_snoc_daimon.
Qed.

Lemma create_source_daimons_shift_run w cur k p id sc fs :
  w_cursor w = Some k -> w_conn w = ConnOpen p false -> w_faults w = [] ->
  view (w_db w) p !! sch = Some sc -> has_source_id id (sc_source sc) = true ->
  create_source_daimons cur id (source_config env) sch (shifted 4 fs w) =
    (set_faults fs (add_log (INFO, "Created source daimons") (daimons_world sch p (daimon_params env id) w)),
     Ret tt).
Proof.
  intros Hk Hc Hf Hv Hid. eapply shift_run; [|by eapply create_source_daimons_run].
  unfold create_source_daimons. do 4 shift_cfg.
  eapply shifts_bind_0; [eapply shifts_executemany_daimons; eauto; by repeat constructor| |apply shifts_log].
  eapply executemany_daimons_run; eauto. by repeat constructor.
Qed.
End Functions.

Lemma add_log_set_faults l fs w : add_log l (set_faults fs w) = set_faults fs (add_log l w).
Proof. reflexivity. Qed.

(** ** The body of the [with] blocks with a fault *)

Section Body.
Context (env : gmap string string) (sch : string).
Implicit Types (w : world).

(** Lines 106-113 up to the COMMIT, whose reply is lost: the five rows are
    committed and [psycopg2] raises. *)
Lemma load_body_lost_commit_run w sc e :
  w_cursor w = Some [] -> w_conn w = ConnOpen [] false -> w_faults w = [] ->
  w_db w !! sch = Some sc -> wf_schema sc ->
  filter (fun r => source_key r = cfg env "key") (sc_source sc) = [] ->
  exists w', load_body (source_config env) sch Connection Cursor (shifted 6 [Some (LostReply e)] w) =
      (w', Raise (DatabaseError e)) /\
    w_db w' = <[sch := seeded_schema env sc]> (w_db w) /\ w_conn w' = ConnOpen [] false /\
    w_faults w' = [].
Proof.
  intros Hk Hc Hf Hsc Hwf Hkey. rewrite load_body_steps. unfold check_step.
  rewrite sbind_assoc_run. run_cfg.
  erewrite sbind_ret_run; [|by eapply (source_exists_absent_shift_run sch w Cursor [] [] _ sc)].
  unfold seed_step. run_cfg. erewrite sbind_ret_run; [|apply log_run]. rewrite add_log_set_faults.
  erewrite sbind_ret_run; [|eapply (create_source_shift_run env sch _ Cursor [] [] sc); simpl; eauto].
  2: by apply key_taken_absent.
  erewrite sbind_ret_run.
  2: { eapply create_source_daimons_shift_run; simpl; try done.
       - by apply (view_snoc_source (w_db w) [] sch _ sc).
       - simpl. rewrite has_source_id_snoc. simpl. rewrite bool_decide_eq_true_2; [|done].
         apply orb_true_r. }
  erewrite sbind_raise_run; [|by apply conn_commit_lost_run].
  eexists. split; [reflexivity|]. split; [|done]. simpl. by apply view_seed.
Qed.

(** Lines 106-112 up to the first daimon INSERT, which fails: the source
    INSERT has drawn an id, nothing is committed. *)
Lemma load_body_daimon_fail_run w sc e :
  w_cursor w = Some [] -> w_conn w = ConnOpen [] false -> w_faults w = [] ->
  w_db w !! sch = Some sc -> wf_schema sc ->
  filter (fun r => source_key r = cfg env "key") (sc_source sc) = [] ->
  exists w' p, load_body (source_config env) sch Connection Cursor (shifted 2 [Some (Fail e)] w) =
      (w', Raise (DatabaseError e)) /\
    w_db w' = alter bump_seq sch (w_db w) /\ w_conn w' = ConnOpen p true /\ w_faults w' = [].
Proof.
  intros Hk Hc Hf Hsc Hwf Hkey. rewrite load_body_steps. unfold check_step.
  rewrite sbind_assoc_run. run_cfg.
  erewrite sbind_ret_run; [|by eapply (source_exists_absent_shift_run sch w Cursor [] [] _ sc)].
  unfold seed_step. run_cfg. erewrite sbind_ret_run; [|apply log_run]. rewrite add_log_set_faults.
  erewrite sbind_ret_run; [|eapply (create_source_shift_run env sch _ Cursor [] [] sc); simpl; eauto].
  2: by apply key_taken_absent.
  erewrite sbind_raise_run.
  2: { unfold create_source_daimons. do 4 run_cfg. eapply sbind_raise_run.
       cbn [daimons cur_executemany]. eapply sbind_raise_run. by eapply cur_execute_fail_run. }
  do 2 eexists. split; [reflexivity|]. done.
Qed.
End Body.

(** ** The whole run with a fault *)

Lemma shifted_eta w n l : w_faults w = replicate n None ++ l -> w = shifted n l (set_faults [] w).
Proof. intros Hf. unfold shifted. rewrite <- Hf. by destruct w. Qed.

(** A body that raises a [psycopg2] error after the connect took one
    [None]: [get_db_connection] rolls back and closes, and the [except]
    of line 118 turns the error into [False]. *)
Lemma load_source_table_body_raise n l w wb e p ab :
  w_faults w = [] -> w_accepts w (db_params (w_env w)) = true ->
  load_body (source_config (w_env w)) (target_schema (w_env w)) Connection Cursor
    (shifted n l (set_cursor (Some []) (connected_world w))) = (wb, Raise (DatabaseError e)) ->
  w_conn wb = ConnOpen p ab -> w_faults wb = [] ->
  exists w', load_source_table (shifted (S n) l w) = (w', Ret false) /\
    w_db w' = w_db wb /\ w_conn w' = ConnClosed.
Proof.
  intros Hf Ha Hb Hc Hfb. set (W := shifted (S n) l w).
  assert (pg_connect (db_params (w_env W)) W = (shifted n l (connected_world w), Ret Connection)) as Hp.
  { eapply (shift_run 1); [by apply shifts_pg_connect|by apply pg_connect_run]. }
  assert (with_cursor Connection (load_body (source_config (w_env W)) (target_schema (w_env W)) Connection)
            (shifted n l (connected_world w)) = (set_cursor None wb, Raise (DatabaseError e))) as Hw.
  { eapply with_cursor_run; [reflexivity|exact Hb]. }
  pose proof (get_db_connection_raise_after
                (fun conn => with_cursor conn (load_body (source_config (w_env W)) (target_schema (w_env W)) conn))
                _ _ _ _ _ _ Hp Hw Hc Hfb) as Hg.
  unfold load_source_table. rewrite (sbind_ret_run sget _ _ _ _ eq_refl).
  erewrite (stry_except_catch_run _ _ _ _ _ _ Hg eq_refl). eexists. split; [reflexivity|]. done.
Qed.

(** ** The theorems *)

(** C20. An in-doubt COMMIT: for every world whose target schema is well
    formed and lacks the configured key, and every error, when the first
    seven round trips (connect, SELECT, INSERT source, four INSERT
    daimon) succeed and the COMMIT reaches the server but its reply is
    lost, [load_source_table] reports [False] (and [main] exits with
    status 1) although all five rows of the seeding are committed; the
    connection is closed. *)
Theorem lost_commit_reply_reports_failure w sc e :
  w_faults w = replicate 7 None ++ [Some (LostReply e)] ->
  w_accepts w (db_params (w_env w)) = true ->
  w_db w !! target_schema (w_env w) = Some sc -> wf_schema sc ->
  filter (fun r => source_key r = cfg (w_env w) "key") (sc_source sc) = [] ->
  (load_source_table w).2 = Ret false /\
  w_db (load_source_table w).1 = <[target_schema (w_env w) := seeded_schema (w_env w) sc]> (w_db w) /\
  w_conn (load_source_table w).1 = ConnClosed.
Proof.
  intros Hf Ha Hsc Hwf Hkey. rewrite (shifted_eta w _ _ Hf).
  destruct (load_body_lost_commit_run (w_env w) (target_schema (w_env w))
              (set_cursor (Some []) (connected_world (set_faults [] w))) sc e)
    as (wb & Hb & Hdb & Hc & Hfb); try done.
  destruct (load_source_table_body_raise 6 _ (set_faults [] w) wb e [] false eq_refl Ha Hb Hc Hfb)
    as (w' & Hrun & Hdb' & Hc').
  rewrite Hrun. simpl. by rewrite Hdb', Hdb.
Qed.

(** C21. A failed seeding consumes an id: for every world whose target
    schema is well formed and lacks the configured key, and every error,
    when the first daimon INSERT fails after the source INSERT drew an id,
    [load_source_table] reports [False], the transaction is rolled back
    and no row is committed, but the sequence behind [source_id] has
    advanced by one: the next successful seeding gets the id after the
    one this run drew. *)
Theorem failed_seeding_consumes_id w sc e :
  w_faults w = replicate 3 None ++ [Some (Fail e)] ->
  w_accepts w (db_params (w_env w)) = true ->
  w_db w !! target_schema (w_env w) = Some sc -> wf_schema sc ->
  filter (fun r => source_key r = cfg (w_env w) "key") (sc_source sc) = [] ->
  (load_source_table w).2 = Ret false /\
  rows_of (w_db (load_source_table w).1) = rows_of (w_db w) /\
  w_db (load_source_table w).1 !! target_schema (w_env w) = Some (bump_seq sc).
Proof.
  intros Hf Ha Hsc Hwf Hkey. rewrite (shifted_eta w _ _ Hf).
  destruct (load_body_daimon_fail_run (w_env w) (target_schema (w_env w))
              (set_cursor (Some []) (connected_world (set_faults [] w))) sc e)
    as (wb & p & Hb & Hdb & Hc & Hfb); try done.
  destruct (load_source_table_body_raise 2 _ (set_faults [] w) wb e p true eq_refl Ha Hb Hc Hfb)
    as (w' & Hrun & Hdb' & Hc').
  rewrite Hrun. simpl. rewrite Hdb', Hdb. split; [done|]. split; [apply rows_of_alter_bump|].
  rewrite lookup_alter_eq. simpl. by rewrite Hsc.
Qed.

Lemma lost_commit_reply_reports_failure_witness :
  (w_faults (faulty_demo_world lost_commit_faults) = replicate 7 None ++ [Some (LostReply OperationalError)] /\
   w_accepts (faulty_demo_world lost_commit_faults)
     (db_params (w_env (faulty_demo_world lost_commit_faults))) = true /\
   w_db (faulty_demo_world lost_commit_faults) !!
     target_schema (w_env (faulty_demo_world lost_commit_faults)) = Some demo_schema /\
   wf_schema demo_schema /\
   filter (fun r => source_key r = cfg (w_env (faulty_demo_world lost_commit_faults)) "key")
     (sc_source demo_schema) = []) /\
  (load_source_table (faulty_demo_world lost_commit_faults)).2 = Ret false /\
  w_db (load_source_table (faulty_demo_world lost_commit_faults)).1 =
    <[target_schema (w_env (faulty_demo_world lost_commit_faults)) :=
        seeded_schema (w_env (faulty_demo_world lost_commit_faults)) demo_schema]>
      (w_db (faulty_demo_world lost_commit_faults)) /\
  w_conn (load_source_table (faulty_demo_world lost_commit_faults)).1 = ConnClosed.
Proof.
  split; [split; [reflexivity|split; [reflexivity|split; [reflexivity|split; [exact demo_schema_wf|reflexivity]]]]|].
  exact (lost_commit_reply_reports_failure (faulty_demo_world lost_commit_faults) demo_schema
           OperationalError eq_refl eq_refl eq_refl demo_schema_wf eq_refl).
Defined.

Lemma failed_seeding_consumes_id_witness :
  (w_faults (faulty_demo_world daimon_fault_faults) = replicate 3 None ++ [Some (Fail OperationalError)] /\
   w_accepts (faulty_demo_world daimon_fault_faults)
     (db_params (w_env (faulty_demo_world daimon_fault_faults))) = true /\
   w_db (faulty_demo_world daimon_fault_faults) !!
     target_schema (w_env (faulty_demo_world daimon_fault_faults)) = Some demo_schema /\
   wf_schema demo_schema /\
   filter (fun r => source_key r = cfg (w_env (faulty_demo_world daimon_fault_faults)) "key")
     (sc_source demo_schema) = []) /\
  (load_source_table (faulty_demo_world daimon_fault_faults)).2 = Ret false /\
  rows_of (w_db (load_source_table (faulty_demo_world daimon_fault_faults)).1) =
    rows_of (w_db (faulty_demo_world daimon_fault_faults)) /\
  w_db (load_source_table (faulty_demo_world daimon_fault_faults)).1 !!
    target_schema (w_env (faulty_demo_world daimon_fault_faults)) = Some (bump_seq demo_schema).
Proof.
  split; [split; [reflexivity|split; [reflexivity|split; [reflexivity|split; [exact demo_schema_wf|reflexivity]]]]|].
  exact (failed_seeding_consumes_id (faulty_demo_world daimon_fault_faults) demo_schema
           OperationalError eq_refl eq_refl eq_refl demo_schema_wf eq_refl).
Defined.
