(* ===== verification/Script.v ===== *)
(** * The entry point: [main], [refresh_source_table] and [__main__]
    (populate.py lines 17, 123-143)

    The module body calls [load_dotenv()] at import, then the [__main__]
    block runs [main()] and, after it, [refresh_source_table()].  [main]
    turns a failed seeding into [sys.exit(1)], which raises [SystemExit]:
    the refresh line after [main()] is then never reached.  The refresh
    itself catches nothing, so a network error of [requests.get] ends the
    process with a traceback and status 1. *)

From S2P Require Import Prelude Python Postgres Psycopg Config Connection Populate Atomicity.

Local Open Scope py_scope.

(** Lines 123-131. *)
Definition main : Py unit :=
  log_info "Starting source table loader";;
  ok <- load_source_table;;
  if ok then log_info "Source table loading completed successfully"
  else (log_error "Source table loading failed";; sys_exit 1).

Definition refresh_url : string := "http://ohdsi-webapi-3:8080/WebAPI/source/refresh".

(** Lines 133-138. *)
Definition refresh_source_table : Py bool :=
  log_info "Refreshing source table";;
  response <- requests_get refresh_url 60;;
  log_info ("Status: " +:+ pretty (status_code response) +:+ " | Response: " +:+ text response);;
  sret (bool_decide (status_code response = 200%Z)).

(** Line 17: [load_dotenv()] at import time. *)
Definition module_init : Py unit :=
  smodify (fun w => set_env (load_dotenv (w_env w) (w_dotenv w)) w).

(** The whole run of [python3 populate.py]: the module body, then lines
    140-143. *)
Definition run_script : Py unit :=
  module_init;;
  main;;
  ok <- refresh_source_table;;
  if ok then sret tt else log_error "Source table refresh failed".

(** The exit status of the process. *)
Definition process_exit_status (w : world) : Z := exit_status (run_script w).2.

(** The number of HTTP requests in a trace. *)
Definition http_requests (tr : list event) : nat := length (List.filter is_http_get tr).

(** The world [load_source_table] starts from: after the module body and
    the first log line of [main]. *)
Definition init_world (w : world) : world :=
  add_log (INFO, "Starting source table loader") (set_env (load_dotenv (w_env w) (w_dotenv w)) w).

(** Whether the seeding step reports success on this world. *)
Definition seeding_ok (w : world) : bool :=
  match (load_source_table (init_world w)).2 with Ret b => b | Raise _ => false end.

(** ** Runs *)

Lemma main_run w w2 b :
  load_source_table (init_world w) = (w2, Ret b) ->
  main (set_env (load_dotenv (w_env w) (w_dotenv w)) w) =
    if b then (add_log (INFO, "Source table loading completed successfully") w2, Ret tt)
    else (add_log (ERROR, "Source table loading failed") w2, Raise (SystemExit 1)).
Proof.
  intros H. unfold main.
  rewrite (sbind_ret_run (log_info _) _ _ (init_world w) tt) by reflexivity.
  rewrite (sbind_ret_run _ _ _ w2 b) by exact H. by destruct b.
Qed.

Lemma refresh_source_table_run w :
  refresh_source_table w =
    let w1 := add_event (EHttpGet refresh_url 60) (add_log (INFO, "Refreshing source table") w) in
    match w_http w with
    | HttpResponse st tx =>
        (add_log (INFO, "Status: " +:+ pretty st +:+ " | Response: " +:+ tx) w1,
         Ret (bool_decide (st = 200%Z)))
    | HttpFailure => (w1, Raise RequestException)
    end.
Proof. unfold refresh_source_table, requests_get, sbind, emit. simpl. by destruct (w_http w). Qed.

Lemma http_requests_app tr tr' : http_requests (tr ++ tr') = http_requests tr + http_requests tr'.
Proof. unfold http_requests. by rewrite List.filter_app, length_app. Qed.

Lemma http_requests_io_frame w w' : io_frame w w' -> http_requests (w_trace w') = http_requests (w_trace w).
Proof. intros (_ & _ & _ & _ & H & _). unfold http_requests. by rewrite H. Qed.

(** ** The exit status and the refresh request *)

Lemma process_exit_status_eq w :
  process_exit_status w =
    if seeding_ok w
    then match w_http w with HttpResponse _ _ => 0%Z | HttpFailure => 1%Z end
    else 1%Z.
Proof.
  destruct (load_source_table_outcome (init_world w)) as [[b Hb] Hio].
  unfold seeding_ok. destruct (load_source_table (init_world w)) as [w2 r] eqn:E.
  simpl in Hb, Hio. subst r. unfold process_exit_status, run_script.
  rewrite (sbind_ret_run module_init _ w _ tt) by reflexivity.
  rewrite sbind_run, (main_run w w2 b E). destruct b; simpl; [|done].
  rewrite sbind_run, refresh_source_table_run. simpl.
  destruct Hio as (_ & _ & _ & Hhttp & _). rewrite Hhttp. simpl.
  destruct (w_http w); simpl; [|done]. by destruct_bool_decide.
Qed.

(** C25. The exit status of [python3 populate.py]: 1 when the seeding
    fails; when it succeeds, 0 if the WebAPI answers the refresh request
    with any status, 200 or not, and 1 if the request fails at the network
    level, because [requests.get] raises and nothing catches it.  The spec
    (sections 4.6, 6 and 7) says the refresh outcome never changes the
    exit status. *)
Theorem process_exit_status_spec w :
  process_exit_status w =
    if seeding_ok w
    then match w_http w with HttpResponse _ _ => 0%Z | HttpFailure => 1%Z end
    else 1%Z.
Proof. apply process_exit_status_eq. Qed.

(** C26. The refresh request is sent once when the seeding succeeds and
    never when it fails: [sys.exit(1)] in [main] raises [SystemExit]
    before the refresh line of the [__main__] block.  The spec (section 8)
    says it is attempted exactly once per run, whatever the seeding did. *)
Theorem refresh_requests_spec w :
  http_requests (w_trace (run_script w).1) =
    http_requests (w_trace w) + (if seeding_ok w then 1 else 0).
Proof.
  destruct (load_source_table_outcome (init_world w)) as [[b Hb] Hio].
  unfold seeding_ok. destruct (load_source_table (init_world w)) as [w2 r] eqn:E.
  simpl in Hb, Hio. subst r. unfold run_script.
  rewrite (sbind_ret_run module_init _ w _ tt) by reflexivity.
  rewrite sbind_run, (main_run w w2 b E).
  pose proof (http_requests_io_frame _ _ Hio) as Hreq. simpl in Hreq.
  destruct b; simpl.
  - rewrite sbind_run, refresh_source_table_run. simpl.
    destruct Hio as (_ & _ & _ & Hhttp & _). rewrite Hhttp. simpl.
    destruct (w_http w); simpl; [destruct_bool_decide|]; simpl;
      rewrite ?http_requests_app, Hreq; reflexivity.
  - rewrite Hreq. lia.
Qed.

(** ** A whole run *)

Lemma run_script_after_seeding w w2 :
  load_source_table (init_world w) = (w2, Ret true) -> w_db (run_script w).1 = w_db w2.
Proof.
  intros E. unfold run_script. rewrite (sbind_ret_run module_init _ w _ tt) by reflexivity.
  rewrite sbind_run, (main_run w w2 true E). simpl.
  rewrite sbind_run, refresh_source_table_run. simpl.
  destruct (w_http w2); simpl; [destruct_bool_decide|]; done.
Qed.

(** C11. If [python3 populate.py] exits with status 0, the configured
    source key is in the committed [source] table of the target schema,
    whatever faults the run met. *)
Theorem exit_zero_source_committed w :
  process_exit_status w = 0%Z ->
  key_seen (w_db (run_script w).1) (target_schema (w_env (init_world w)))
    (cfg (w_env (init_world w)) "key").
Proof.
  intros H0. rewrite process_exit_status_eq in H0. unfold seeding_ok in H0.
  pose proof (load_source_table_true_key (init_world w)) as Hk.
  destruct (load_source_table (init_world w)) as [w2 r] eqn:E. simpl in H0, Hk.
  destruct r as [[]|e]; [|discriminate|discriminate].
  rewrite (run_script_after_seeding w w2 E). by apply Hk.
Qed.

Lemma exit_zero_source_committed_witness :
  process_exit_status demo_world = 0%Z /\
  key_seen (w_db (run_script demo_world).1) (target_schema (w_env (init_world demo_world)))
    (cfg (w_env (init_world demo_world)) "key").
Proof.
  assert (H0 : process_exit_status demo_world = 0%Z) by (vm_compute; reflexivity).
  split; [exact H0|]. exact (exit_zero_source_committed _ H0).
Defined.

(** C6. End to end, with a fresh key, a reachable server, no fault and a
    WebAPI that answers: the process seeds the source, commits, closes the
    connection, and only then sends its one refresh request; it ends
    normally (exit status 0), whatever HTTP status the WebAPI answers. *)
Theorem run_script_fresh_key w sc st tx :
  w_faults w = [] -> w_accepts w (db_params (w_env (init_world w))) = true ->
  w_db w !! target_schema (w_env (init_world w)) = Some sc -> wf_schema sc ->
  filter (fun r => source_key r = cfg (w_env (init_world w)) "key") (sc_source sc) = [] ->
  w_http w = HttpResponse st tx ->
  (run_script w).2 = Ret tt /\
  w_db (run_script w).1 =
    <[target_schema (w_env (init_world w)) := seeded_schema (w_env (init_world w)) sc]> (w_db w) /\
  w_trace (run_script w).1 =
    w_trace w ++ [EConnect (db_params (w_env (init_world w)))]
      ++ map EExecute (seed_stmts (w_env (init_world w)) (target_schema (w_env (init_world w)))
                        (sc_next_id sc))
      ++ [ECommit; EClose; EHttpGet refresh_url 60].
Proof.
  intros Hf Ha Hsc Hwf Hkey Hhttp.
  destruct (load_source_table_inserts_run (init_world w) sc) as (Hr & Hdb & _ & Ht); try done.
  destruct (load_source_table_outcome (init_world w)) as [_ (_ & _ & _ & Hhttp2 & _)].
  destruct (load_source_table (init_world w)) as [w2 r] eqn:E. cbn [fst snd] in *. subst r.
  assert (w_http (add_log (INFO, "Source table loading completed successfully") w2) =
            HttpResponse st tx) as Hh by (simpl in *; congruence).
  unfold run_script. rewrite (sbind_ret_run module_init _ w _ tt) by reflexivity.
  rewrite sbind_run, (main_run w w2 true E). simpl.
  rewrite sbind_run, refresh_source_table_run, Hh. simpl.
  destruct_bool_decide; simpl; rewrite Hdb, Ht; (split; [done|split; [done|]]);
    by rewrite <- !app_assoc.
Qed.

Lemma run_script_fresh_key_witness :
  (w_faults demo_world = [] /\
   w_accepts demo_world (db_params (w_env (init_world demo_world))) = true /\
   w_db demo_world !! target_schema (w_env (init_world demo_world)) = Some demo_schema /\
   wf_schema demo_schema /\
   filter (fun r => source_key r = cfg (w_env (init_world demo_world)) "key")
     (sc_source demo_schema) = [] /\
   w_http demo_world = HttpResponse 200 "ok") /\
  (run_script demo_world).2 = Ret tt /\
  w_db (run_script demo_world).1 =
    <[target_schema (w_env (init_world demo_world)) :=
        seeded_schema (w_env (init_world demo_world)) demo_schema]> (w_db demo_world) /\
  w_trace (run_script demo_world).1 =
    w_trace demo_world ++ [EConnect (db_params (w_env (init_world demo_world)))]
      ++ map EExecute (seed_stmts (w_env (init_world demo_world))
                        (target_schema (w_env (init_world demo_world))) (sc_next_id demo_schema))
      ++ [ECommit; EClose; EHttpGet refresh_url 60].
Proof.
  assert (wf_schema demo_schema) as Hwf by (vm_compute; repeat constructor).
  split; [split; [reflexivity|split; [reflexivity|split; [reflexivity|
          split; [exact Hwf|split; reflexivity]]]]|].
  apply (run_script_fresh_key demo_world demo_schema 200 "ok"); try reflexivity. exact Hwf.
Defined.

(** C7. When the server refuses the login (wrong host, port, database or
    credentials; no fault), the process exits with status 1 having
    committed nothing and sent no HTTP request; its only external call is
    the connection attempt.  The error is logged twice, by the [except] of
    [get_db_connection] and by that of [load_source_table], before [main]
    reports the failure. *)
Theorem run_script_db_refused w :
  w_faults w = [] -> w_accepts w (db_params (w_env (init_world w))) = false ->
  (run_script w).2 = Raise (SystemExit 1) /\ process_exit_status w = 1%Z /\
  w_db (run_script w).1 = w_db w /\
  w_trace (run_script w).1 = w_trace w ++ [EConnect (db_params (w_env (init_world w)))] /\
  w_log (run_script w).1 = w_log w ++
    [(INFO, "Starting source table loader");
     (ERROR, "Database error: " +:+ exn_str (DatabaseError OperationalError));
     (ERROR, "Failed to load source table: " +:+ exn_str (DatabaseError OperationalError));
     (ERROR, "Source table loading failed")].
Proof.
  intros Hf Ha. pose proof (load_source_table_refused_run (init_world w) Hf Ha) as E.
  unfold process_exit_status, run_script.
  rewrite (sbind_ret_run module_init _ w _ tt) by reflexivity.
  rewrite sbind_run, (main_run w _ false E). simpl.
  repeat split. by rewrite <- !app_assoc.
Qed.

(** [demo_world] with a server that refuses every login. *)
Definition refusing_world : world :=
  mk_world ∅ ∅ (fun _ => false) {["new_one" := demo_schema]} NoConn None []
    (HttpResponse 200 "ok") [] [].

Lemma run_script_db_refused_witness :
  (w_faults refusing_world = [] /\
   w_accepts refusing_world
     (db_params (w_env (init_world refusing_world))) = false) /\
  (run_script refusing_world).2 = Raise (SystemExit 1) /\
  process_exit_status refusing_world = 1%Z /\
  w_db (run_script refusing_world).1 =
    w_db refusing_world /\
  w_trace (run_script refusing_world).1 =
    w_trace refusing_world ++
      [EConnect (db_params (w_env (init_world refusing_world)))] /\
  w_log (run_script refusing_world).1 =
    w_log refusing_world ++
    [(INFO, "Starting source table loader");
     (ERROR, "Database error: " +:+ exn_str (DatabaseError OperationalError));
     (ERROR, "Failed to load source table: " +:+ exn_str (DatabaseError OperationalError));
     (ERROR, "Source table loading failed")].
Proof.
  split; [split; reflexivity|].
  apply (run_script_db_refused refusing_world); reflexivity.
Defined.
