(* ===== verification/Race.v ===== *)
(** * Two runs at once: the check-then-insert race

    Spec section 7: two copies of the script started together against the
    same key can both find the key absent and both insert it.  Nothing in
    the code prevents it: [psycopg2] runs its transactions at READ
    COMMITTED, PostgreSQL's default, the existence check (line 106) takes
    no lock, and the script does not rely on a unique constraint on
    [source_key].  The theorems here take a schema without that
    constraint; [Constraint] takes one with it, where the second seeding
    fails instead.

    Each run is the body of its [with] blocks, [check_step] then
    [seed_step] ([Populate.load_body_steps]), in its own session (its
    connection state and cursor) over one shared committed database.  A
    schedule names, step by step, which run moves.  Both runs have
    connected and opened their cursor before the first step; closing the
    connection after a commit changes no committed row and is left out.
    An exception ends the schedule; the theorems are about fault-free
    runs, where none is raised.

    The theorems: the schedule where both checks come first commits the
    key twice ([race_duplicates_key]).  For every schedule, what the two
    runs do to the key follows a small machine, [tally_run], that only
    counts the committed rows carrying the key and records how far each
    run has got ([race_refines_tally]): a check answers whether the count
    is positive, and a seeding after a negative check adds one row, or is
    refused with an [IntegrityError] on a schema with the unique
    constraint where the key is already committed.  From the machine:
    with no fault and no constraint, a run given two steps completes with
    [True] ([race_runs_complete]), and of the six interleavings of two
    runs exactly those that run both checks before either seed commit the
    key twice ([race_iff_checks_first]). *)

From S2P Require Import Prelude Python Postgres Psycopg Config Connection Populate Atomicity.

Local Open Scope py_scope.

(** The two runs. *)
Inductive party := PA | PB.

#[export] Instance party_eq_dec : EqDecision party.
Proof. solve_decision. Defined.

(** How far a run has got in the body of its [with] blocks. *)
Inductive progress :=
| Fresh
| Checked (ex : bool)
| Done (r : bool).

(** The client-side state of a session: its connection and its cursor. *)
Record session := mk_session { s_conn : conn_state; s_cursor : option (list row) }.

Definition session_of (w : world) : session := mk_session (w_conn w) (w_cursor w).

Definition install (s : session) (w : world) : world :=
  set_cursor (s_cursor s) (set_conn (s_conn s) w).

(** The shared world with the session of [PA] in it, the session of [PB]
    aside, and how far each run has got. *)
Record race_state := mk_race {
  rs_world : world;
  rs_other : session;
  rs_A : progress;
  rs_B : progress
}.

Definition progress_of (p : party) (rs : race_state) : progress :=
  match p with PA => rs_A rs | PB => rs_B rs end.

(** The world as party [p] sees it. *)
Definition world_of (p : party) (rs : race_state) : world :=
  match p with PA => rs_world rs | PB => install (rs_other rs) (rs_world rs) end.

(** Put back the world party [p] left, with its new progress. *)
Definition put_back (p : party) (rs : race_state) (w' : world) (pg : progress) : race_state :=
  match p with
  | PA => mk_race w' (rs_other rs) pg (rs_B rs)
  | PB => mk_race (install (session_of (rs_world rs)) w') (session_of w') (rs_A rs) pg
  end.

(** The next step of a run. *)
Definition step_of (cfg : gmap string string) (sch : string) (pg : progress) : Py progress :=
  match pg with
  | Fresh => ex <- check_step cfg sch Cursor;; sret (Checked ex)
  | Checked ex => r <- seed_step cfg sch Connection Cursor ex;; sret (Done r)
  | Done r => sret (Done r)
  end.

Definition race_step (cfg : gmap string string) (sch : string) (p : party)
    : SE exn race_state unit :=
  fun rs =>
    match step_of cfg sch (progress_of p rs) (world_of p rs) with
    | (w', Ret pg) => (put_back p rs w' pg, Ret tt)
    | (w', Raise e) => (put_back p rs w' (progress_of p rs), Raise e)
    end.

Fixpoint run_schedule (cfg : gmap string string) (sch : string) (ps : list party)
    : SE exn race_state unit :=
  match ps with
  | [] => sret tt
  | p :: ps' => race_step cfg sch p;; run_schedule cfg sch ps'
  end.

(** A session that has connected and opened its cursor. *)
Definition opened : session := mk_session (ConnOpen [] false) (Some []).

Definition race_start (w : world) : race_state := mk_race (install opened w) opened Fresh Fresh.

(** ** Steps without faults *)

Section Steps.
Context (env : gmap string string) (sch : string).
Implicit Types (w : world).

Lemma run_schedule_cons_run p ps rs w' pg :
  step_of (source_config env) sch (progress_of p rs) (world_of p rs) = (w', Ret pg) ->
  run_schedule (source_config env) sch (p :: ps) rs =
    run_schedule (source_config env) sch ps (put_back p rs w' pg).
Proof.
  intros H. simpl. rewrite (sbind_ret_run _ _ rs (put_back p rs w' pg) tt); [done|].
  unfold race_step. by rewrite H.
Qed.

Lemma step_check_absent_run w sc k :
  w_cursor w = Some k -> w_conn w = ConnOpen [] false -> w_faults w = [] ->
  w_db w !! sch = Some sc -> filter (fun r => source_key r = cfg env "key") (sc_source sc) = [] ->
  step_of (source_config env) sch Fresh w =
    (exec_world (SelectSourceByKey sch (cfg env "key")) [] [] (w_db w) w, Ret (Checked false)).
Proof.
  intros Hk Hc Hf Hsc Hkey. unfold step_of, check_step. rewrite sbind_assoc_run. run_cfg.
  erewrite sbind_ret_run; [|eapply source_exists_absent_run; eauto]. reflexivity.
Qed.

Lemma step_check_present_run w sc k r rs :
  w_cursor w = Some k -> w_conn w = ConnOpen [] false -> w_faults w = [] ->
  w_db w !! sch = Some sc -> filter (fun r => source_key r = cfg env "key") (sc_source sc) = r :: rs ->
  exists w', step_of (source_config env) sch Fresh w = (w', Ret (Checked true)) /\
    w_db w' = w_db w /\ w_conn w' = ConnOpen [] false /\ w_faults w' = [].
Proof.
  intros Hk Hc Hf Hsc Hkey. unfold step_of, check_step. rewrite sbind_assoc_run. run_cfg.
  destruct (source_exists_present_run w Cursor k [] sch (cfg env "key") sc r rs)
    as (w' & Hrun & Hdb & Hc' & Hf' & _); try done.
  exists w'. by rewrite (sbind_ret_run _ _ _ _ _ Hrun).
Qed.

Lemma step_seed_insert_run w sc k :
  w_cursor w = Some k -> w_conn w = ConnOpen [] false -> w_faults w = [] ->
  w_db w !! sch = Some sc -> wf_schema sc -> key_taken sc (cfg env "key") = false ->
  exists w', step_of (source_config env) sch (Checked false) w = (w', Ret (Done true)) /\
    w_db w' = <[sch := seeded_schema env sc]> (w_db w) /\
    w_conn w' = ConnOpen [] false /\ w_faults w' = [].
Proof.
  intros Hk Hc Hf Hsc Hwf Hkt.
  destruct (seed_insert_run w env sch sc k) as (w' & Hrun & Hdb & Hc' & Hf' & _); try done.
  exists w'. unfold step_of. by rewrite (sbind_ret_run _ _ _ _ _ Hrun).
Qed.

Lemma step_seed_skip_run w :
  exists w', step_of (source_config env) sch (Checked true) w = (w', Ret (Done true)) /\
    w_db w' = w_db w /\ w_faults w' = w_faults w.
Proof.
  unfold step_of, seed_step. eexists. rewrite sbind_assoc_run. run_cfg.
  rewrite sbind_assoc_run. erewrite sbind_ret_run; [|apply log_run]. repeat split.
Qed.
Lemma run_schedule_cons_raise p ps rs w' e :
  step_of (source_config env) sch (progress_of p rs) (world_of p rs) = (w', Raise e) ->
  run_schedule (source_config env) sch (p :: ps) rs = (put_back p rs w' (progress_of p rs), Raise e).
Proof. intros H. simpl. apply sbind_raise_run. unfold race_step. by rewrite H. Qed.

(** The INSERT of a key the constraint forbids: the sequence has moved,
    the transaction is marked failed and [IntegrityError] is raised. *)
Lemma create_source_taken_run w cur k sc :
  w_cursor w = Some k -> w_conn w = ConnOpen [] false -> w_faults w = [] ->
  w_db w !! sch = Some sc -> wf_schema sc -> key_taken sc (cfg env "key") = true ->
  create_source cur (source_config env) sch w =
    (set_conn (ConnOpen [] true)
       (set_db (alter bump_seq sch (w_db w)) (add_event (EExecute (insert_source_stmt env sch)) w)),
     Raise (DatabaseError IntegrityError)).
Proof.
  intros Hk Hc Hf Hsc Hwf Ht. unfold create_source. do 4 run_cfg.
  erewrite sbind_raise_run; [reflexivity|]. eapply cur_execute_error_run; eauto.
  by apply (exec_insert_source_taken _ _ _ _ _ _ _ sc).
Qed.

Lemma step_seed_taken_run w sc k :
  w_cursor w = Some k -> w_conn w = ConnOpen [] false -> w_faults w = [] ->
  w_db w !! sch = Some sc -> wf_schema sc -> key_taken sc (cfg env "key") = true ->
  exists w', step_of (source_config env) sch (Checked false) w = (w', Raise (DatabaseError IntegrityError)) /\
    w_db w' = alter bump_seq sch (w_db w).
Proof.
  intros Hk Hc Hf Hsc Hwf Ht. eexists. split.
  - unfold step_of. erewrite sbind_raise_run; [reflexivity|]. unfold seed_step. run_cfg.
    erewrite sbind_ret_run; [|apply log_run].
    erewrite sbind_raise_run; [reflexivity|]. by eapply create_source_taken_run.
  - reflexivity.
Qed.
End Steps.

(** ** The race and the serial runs *)

Lemma seeded_twice_not_keys_ok env sch sc db :
  db !! sch = Some (seeded_schema env (seeded_schema env sc)) -> ~ keys_ok db.
Proof.
  intros Hsc Hk. specialize (Hk _ _ Hsc). unfold keys_unique in Hk. simpl in Hk.
  rewrite <- app_assoc, !fmap_app in Hk. simpl in Hk.
  apply NoDup_app in Hk as (_ & _ & Hk). apply NoDup_cons in Hk as [Hk _]. set_solver.
Qed.

Section Race.
Context (env : gmap string string) (sch : string).

(** C16. The check-then-insert race (spec section 7): on a schema without
    a unique constraint on [source_key], when two runs both find the key
    absent before either inserts, both insert the source and its daimons,
    both commit and both report success; the schema ends with two source
    rows carrying the key, with consecutive ids, and source keys are no
    longer unique. *)
Theorem race_duplicates_key w sc :
  w_faults w = [] -> w_db w !! sch = Some sc -> wf_schema sc -> sc_key_unique sc = false ->
  filter (fun r => source_key r = cfg env "key") (sc_source sc) = [] ->
  exists rs, run_schedule (source_config env) sch [PA; PB; PA; PB] (race_start w) = (rs, Ret tt) /\
    rs_A rs = Done true /\ rs_B rs = Done true /\
    w_db (rs_world rs) = <[sch := seeded_schema env (seeded_schema env sc)]> (w_db w) /\
    ~ keys_ok (w_db (rs_world rs)).
Proof.
  intros Hf Hsc Hwf Hu Hkey. unfold race_start.
  erewrite run_schedule_cons_run; [|eapply step_check_absent_run; simpl; eauto].
  erewrite run_schedule_cons_run; [|eapply step_check_absent_run; simpl; eauto].
  match goal with |- context [run_schedule _ _ (PA :: _) ?rs] =>
    destruct (step_seed_insert_run env sch (world_of PA rs) sc []) as (wA & HA & HdbA & HcA & HfA) end;
    try (simpl; solve [eauto using key_taken_absent]).
  assert (key_taken (seeded_schema env sc) (cfg env "key") = false)
    by (by apply key_taken_unconstrained).
  erewrite run_schedule_cons_run; [|exact HA].
  match goal with |- context [run_schedule _ _ (PB :: _) ?rs] =>
    destruct (step_seed_insert_run env sch (world_of PB rs) (seeded_schema env sc) [])
      as (wB & HB & HdbB & HcB & HfB) end;
    try (simpl; rewrite ?HcA, ?HfA, ?HdbA, ?lookup_insert_eq; solve [eauto using wf_schema_seeded]).
  erewrite run_schedule_cons_run; [|exact HB].
  eexists. split; [reflexivity|]. simpl. rewrite HdbB. simpl. rewrite HdbA. simpl.
  rewrite insert_insert_eq. split; [done|split; [done|split; [done|]]].
  eapply seeded_twice_not_keys_ok. apply lookup_insert_eq.
Qed.

End Race.

(** ** The key count *)

(** The six ways to interleave two runs of two steps each. *)
Definition interleavings : list (list party) :=
  [[PA; PA; PB; PB]; [PA; PB; PA; PB]; [PA; PB; PB; PA];
   [PB; PA; PA; PB]; [PB; PA; PB; PA]; [PB; PB; PA; PA]].

(** Both checks come before either seed: the first two steps are the two
    runs' checks. *)
Definition checks_first (ps : list party) : bool :=
  match ps with p1 :: p2 :: _ => bool_decide (p1 <> p2) | _ => false end.

(** How many source rows with the configured key the target schema holds. *)
Definition key_count (env : gmap string string) (sch : string) (db : database) : nat :=
  match db !! sch with
  | Some sc => length (filter (fun r => source_key r = cfg env "key") (sc_source sc))
  | None => 0
  end.

Section KeyCount.
Context (env : gmap string string) (sch : string).

Lemma key_count_lookup db sc :
  db !! sch = Some sc ->
  key_count env sch db = length (filter (fun r => source_key r = cfg env "key") (sc_source sc)).
Proof. intros H. unfold key_count. by rewrite H. Qed.

Lemma key_count_seeded db sc :
  db !! sch = Some sc -> key_count env sch (<[sch := seeded_schema env sc]> db) = S (key_count env sch db).
Proof.
  intros H. unfold key_count. rewrite lookup_insert_eq, H. simpl.
  rewrite filter_app, length_app, filter_cons_True by done. simpl. lia.
Qed.

Lemma key_count_bump db : key_count env sch (alter bump_seq sch db) = key_count env sch db.
Proof. unfold key_count. rewrite lookup_alter_eq. by destruct (db !! sch). Qed.
End KeyCount.

Lemma key_taken_count sc k :
  key_taken sc k = sc_key_unique sc && bool_decide (0 < length (filter (fun r => source_key r = k) (sc_source sc))).
Proof. unfold key_taken. by rewrite existsb_filter_length. Qed.

Lemma key_taken_seeded env sc :
  sc_key_unique sc = true -> key_taken (seeded_schema env sc) (cfg env "key") = true.
Proof.
  intros Hu. unfold key_taken. simpl. rewrite Hu, existsb_app. simpl.
  rewrite bool_decide_eq_true_2 by done. by rewrite orb_true_r.
Qed.

(** ** The race as a counting machine

    The specification of what two runs do to the key.  The state is how
    far each run has got and how many committed rows carry the key; the
    key is [u] when the schema declares the unique constraint. *)

Record tally := mk_tally { t_A : progress; t_B : progress; t_keys : nat }.

Definition tally_progress (p : party) (t : tally) : progress :=
  match p with PA => t_A t | PB => t_B t end.

Definition tally_put (p : party) (t : tally) (pg : progress) (n : nat) : tally :=
  match p with PA => mk_tally pg (t_B t) n | PB => mk_tally (t_A t) pg n end.

(** One step of a run that has got to [pg], with [n] rows carrying the key. *)
Definition tally_move (u : bool) (pg : progress) (n : nat) : outcome exn (progress * nat) :=
  match pg with
  | Fresh => Ret (Checked (bool_decide (0 < n)), n)
  | Checked false =>
      if u && bool_decide (0 < n) then Raise (DatabaseError IntegrityError) else Ret (Done true, S n)
  | Checked true => Ret (Done true, n)
  | Done r => Ret (Done r, n)
  end.

Definition tally_step (u : bool) (p : party) : SE exn tally unit :=
  fun t => match tally_move u (tally_progress p t) (t_keys t) with
           | Ret (pg, n) => (tally_put p t pg n, Ret tt)
           | Raise e => (t, Raise e)
           end.

Fixpoint tally_run (u : bool) (ps : list party) : SE exn tally unit :=
  match ps with
  | [] => sret tt
  | p :: ps' => tally_step u p;; tally_run u ps'
  end.

(** A race state seen through the machine. *)
Definition tally_of (env : gmap string string) (sch : string) (rs : race_state) : tally :=
  mk_tally (rs_A rs) (rs_B rs) (key_count env sch (w_db (rs_world rs))).

Lemma tally_progress_of env sch p rs : tally_progress p (tally_of env sch rs) = progress_of p rs.
Proof. by destruct p. Qed.

Lemma tally_of_put_back env sch p rs w' pg :
  tally_of env sch (put_back p rs w' pg) = tally_put p (tally_of env sch rs) pg (key_count env sch (w_db w')).
Proof. by destruct p. Qed.

Lemma tally_put_same p t : tally_put p t (tally_progress p t) (t_keys t) = t.
Proof. by destruct p, t. Qed.

Lemma world_of_db p rs : w_db (world_of p rs) = w_db (rs_world rs).
Proof. by destruct p. Qed.

(** ** The invariant of a fault-free race

    No fault is scheduled, the target schema exists, is well formed and
    declares the constraint or not as [u] says, and each run is ready for
    its next step ([run_ok]): a run still to check or to insert has its
    transaction open and empty and its cursor, and a finished run
    returned [True]. *)

Definition stage (pg : progress) : nat :=
  match pg with Fresh => 2 | Checked _ => 1 | Done _ => 0 end.

Definition run_ok (pg : progress) (w : world) : Prop :=
  match pg with
  | Fresh | Checked false => w_conn w = ConnOpen [] false /\ is_Some (w_cursor w)
  | Checked true => True
  | Done b => b = true
  end.

Definition race_inv (sch : string) (u : bool) (rs : race_state) : Prop :=
  w_faults (rs_world rs) = [] /\
  (exists sc, w_db (rs_world rs) !! sch = Some sc /\ wf_schema sc /\ sc_key_unique sc = u) /\
  run_ok (rs_A rs) (world_of PA rs) /\ run_ok (rs_B rs) (world_of PB rs).

Definition other (p : party) : party := match p with PA => PB | PB => PA end.

(** How many steps a schedule gives party [p]. *)
Definition turns (p : party) (ps : list party) : nat := length (filter (fun q => q = p) ps).

Lemma turns_cons p q ps : turns p (q :: ps) = (if decide (q = p) then 1 else 0) + turns p ps.
Proof. unfold turns. rewrite filter_cons. by case_decide. Qed.

Lemma run_ok_install pg s w w' :
  run_ok pg (install s w) <-> run_ok pg (install s w').
Proof. by destruct pg as [|[]|]. Qed.

Lemma run_ok_install_session pg w w' :
  run_ok pg (install (session_of w) w') <-> run_ok pg w.
Proof. by destruct pg as [|[]|]. Qed.

Lemma race_inv_put_back sch u p rs w' pg :
  race_inv sch u rs -> w_faults w' = [] ->
  (exists sc, w_db w' !! sch = Some sc /\ wf_schema sc /\ sc_key_unique sc = u) -> run_ok pg w' ->
  race_inv sch u (put_back p rs w' pg).
Proof.
  intros (_ & _ & HA & HB) Hf Hsc Hpg. destruct p; simpl; (split; [done|split; [done|]]).
  - split; [done|]. by apply (run_ok_install _ _ (rs_world rs)).
  - split; [by apply run_ok_install_session|]. by apply (run_ok_install_session _ w').
Qed.

Lemma race_inv_start sch w sc :
  w_faults w = [] -> w_db w !! sch = Some sc -> wf_schema sc ->
  race_inv sch (sc_key_unique sc) (race_start w).
Proof. intros Hf Hsc Hwf. repeat split; eauto. Qed.

(** ** Each step of the race is a step of the machine *)

Section Tally.
Context (env : gmap string string) (sch : string) (u : bool).

Lemma race_step_tally p rs :
  race_inv sch u rs ->
  tally_step u p (tally_of env sch rs) =
    (tally_of env sch (race_step (source_config env) sch p rs).1,
     (race_step (source_config env) sch p rs).2) /\
  ((race_step (source_config env) sch p rs).2 = Ret tt ->
   race_inv sch u (race_step (source_config env) sch p rs).1).
Proof.
  intros Hinv. pose proof Hinv as (Hf & (sc & Hsc & Hwf & Hu) & HA & HB).
  assert (run_ok (progress_of p rs) (world_of p rs)) as Hp by (destruct p; done).
  assert (w_faults (world_of p rs) = []) as Hfp by (destruct p; done).
  assert (w_db (world_of p rs) !! sch = Some sc) as Hscp by (by rewrite world_of_db).
  assert (t_keys (tally_of env sch rs) =
          length (filter (fun r => source_key r = cfg env "key") (sc_source sc))) as Hn
    by (by apply key_count_lookup).
  assert (forall w' pg, step_of (source_config env) sch (progress_of p rs) (world_of p rs) = (w', Ret pg) ->
     tally_move u (progress_of p rs) (t_keys (tally_of env sch rs)) = Ret (pg, key_count env sch (w_db w')) ->
     w_faults w' = [] -> (exists sc', w_db w' !! sch = Some sc' /\ wf_schema sc' /\ sc_key_unique sc' = u) ->
     run_ok pg w' ->
     tally_step u p (tally_of env sch rs) =
       (tally_of env sch (race_step (source_config env) sch p rs).1,
        (race_step (source_config env) sch p rs).2) /\
     ((race_step (source_config env) sch p rs).2 = Ret tt ->
      race_inv sch u (race_step (source_config env) sch p rs).1)) as Hret.
  { intros w' pg Hrun Hm Hf' Hsc' Hok. unfold race_step, tally_step.
    rewrite Hrun, tally_progress_of, Hm. cbv beta iota delta [fst snd].
    rewrite tally_of_put_back. split; [done|]. intros _.
    by apply race_inv_put_back. }
  assert (forall w' e, step_of (source_config env) sch (progress_of p rs) (world_of p rs) = (w', Raise e) ->
     tally_move u (progress_of p rs) (t_keys (tally_of env sch rs)) = Raise e ->
     key_count env sch (w_db w') = t_keys (tally_of env sch rs) ->
     tally_step u p (tally_of env sch rs) =
       (tally_of env sch (race_step (source_config env) sch p rs).1,
        (race_step (source_config env) sch p rs).2) /\
     ((race_step (source_config env) sch p rs).2 = Ret tt ->
      race_inv sch u (race_step (source_config env) sch p rs).1)) as Hraise.
  { intros w' e Hrun Hm Hk. unfold race_step, tally_step.
    rewrite Hrun, tally_progress_of, Hm. cbv beta iota delta [fst snd].
    rewrite tally_of_put_back, Hk, <- (tally_progress_of env sch p rs).
    rewrite tally_put_same. split; [done|discriminate]. }
  destruct (progress_of p rs) as [|[]|b] eqn:Epg.
  - destruct Hp as (Hc & [k Hk]).
    destruct (filter (fun r => source_key r = cfg env "key") (sc_source sc)) as [|r rs0] eqn:Hkey.
    + eapply Hret; [eapply step_check_absent_run; eauto| |done|by exists sc|simpl; eauto].
      cbn [tally_move]. rewrite Hn, (key_count_lookup _ _ _ sc); [by rewrite Hkey|exact Hscp].
    + destruct (step_check_present_run env sch (world_of p rs) sc k r rs0) as (w' & Hrun & Hdb & Hc' & Hf');
        try done.
      eapply Hret; [exact Hrun| |done|exists sc; by rewrite Hdb|done].
      cbn [tally_move]. rewrite Hn, Hdb, (key_count_lookup _ _ _ sc), Hkey by exact Hscp.
      by rewrite bool_decide_eq_true_2 by (simpl; lia).
  - destruct (step_seed_skip_run env sch (world_of p rs)) as (w' & Hrun & Hdb & Hf').
    eapply Hret; [exact Hrun| |congruence|exists sc; by rewrite Hdb|done].
    by rewrite Hdb, world_of_db.
  - destruct Hp as (Hc & [k Hk]). pose proof (key_taken_count sc (cfg env "key")) as Htc.
    rewrite Hu, <- Hn in Htc.
    destruct (key_taken sc (cfg env "key")) eqn:Ht.
    + destruct (step_seed_taken_run env sch (world_of p rs) sc k) as (w' & Hrun & Hdb); try done.
      eapply Hraise; [exact Hrun| |by rewrite Hdb, key_count_bump, world_of_db].
      cbn [tally_move]. by rewrite <- Htc.
    + destruct (step_seed_insert_run env sch (world_of p rs) sc k) as (w' & Hrun & Hdb & Hc' & Hf');
        try done.
      eapply Hret; [exact Hrun| |done| |done].
      * cbn [tally_move]. rewrite <- Htc, Hdb, (key_count_seeded _ _ _ sc), world_of_db by done.
        reflexivity.
      * exists (seeded_schema env sc). rewrite Hdb, lookup_insert_eq.
        split; [done|]. split; [by apply wf_schema_seeded|done].
  - simpl in Hp. subst b.
    eapply Hret; [reflexivity| |done|by exists sc|done]. by rewrite world_of_db.
Qed.

(** The refinement, for every schedule: the machine, started from the
    race state seen through [tally_of], ends in the final race state seen
    through [tally_of], with the same outcome. *)
Lemma run_schedule_tally ps : forall rs,
  race_inv sch u rs ->
  tally_run u ps (tally_of env sch rs) =
    (tally_of env sch (run_schedule (source_config env) sch ps rs).1,
     (run_schedule (source_config env) sch ps rs).2).
Proof.
  induction ps as [|p ps IH]; intros rs Hinv; [done|].
  destruct (race_step_tally p rs Hinv) as [Hstep Hinv'].
  cbn [tally_run run_schedule]. unfold sbind. rewrite Hstep.
  destruct (race_step (source_config env) sch p rs) as [rs1 [[]|e]]; simpl in *; [|done].
  by apply IH, Hinv'.
Qed.
End Tally.

(** ** What the machine does *)

(** No run has finished with [False]. *)
Definition no_failure (t : tally) : Prop := t_A t <> Done false /\ t_B t <> Done false.

(** Without the constraint no step of the machine raises, and each moves
    its run one stage on. *)
Lemma tally_step_live p t :
  no_failure t ->
  exists t', tally_step false p t = (t', Ret tt) /\ no_failure t' /\
    stage (tally_progress p t') = stage (tally_progress p t) - 1 /\
    tally_progress (other p) t' = tally_progress (other p) t.
Proof.
  intros [HA HB]. destruct p, t as [a b n]; simpl in *;
    [destruct a as [|[]|[]]|destruct b as [|[]|[]]]; try congruence;
    eexists; (split; [reflexivity|]); repeat split; simpl; done.
Qed.

Lemma tally_run_live ps : forall t,
  no_failure t ->
  (tally_run false ps t).2 = Ret tt /\ no_failure (tally_run false ps t).1 /\
  forall p, stage (tally_progress p (tally_run false ps t).1) = stage (tally_progress p t) - turns p ps.
Proof.
  induction ps as [|q ps IH]; intros t Ht.
  - split; [done|]. split; [done|]. intros p. unfold turns. simpl. lia.
  - destruct (tally_step_live q t Ht) as (t1 & Hstep & Ht1 & Hq & Hother).
    cbn [tally_run]. rewrite (sbind_ret_run _ _ t t1 tt Hstep).
    destruct (IH t1 Ht1) as (Hr & Hnf & Hst). split; [done|]. split; [done|].
    intros p. rewrite Hst, turns_cons. destruct p, q; simpl in *; rewrite ?Hq, ?Hother; simpl; lia.
Qed.

Lemma stage_done_true pg : stage pg = 0 -> pg <> Done false -> pg = Done true.
Proof. destruct pg as [| |[]]; simpl; intros; (done || lia). Qed.

(** The machine on the six interleavings of two runs on a fresh key,
    without the constraint. *)
Lemma tally_interleavings_free :
  Forall (fun ps => tally_run false ps (mk_tally Fresh Fresh 0) =
                    (mk_tally (Done true) (Done true) (if checks_first ps then 2 else 1), Ret tt))
    interleavings.
Proof. repeat constructor. Qed.

(** ** The theorems *)

(** C19. Liveness: with no fault and an existing, well-formed target
    schema without a unique constraint on [source_key], no interleaving
    of the two runs raises, and a run that the schedule gives two steps
    has completed, with [True].  Each step moves
    its run from checking to seeding to done, whatever the other run did
    in between. *)
Theorem race_runs_complete env sch w sc ps :
  w_faults w = [] -> w_db w !! sch = Some sc -> wf_schema sc -> sc_key_unique sc = false ->
  exists rs, run_schedule (source_config env) sch ps (race_start w) = (rs, Ret tt) /\
    (2 <= turns PA ps -> rs_A rs = Done true) /\ (2 <= turns PB ps -> rs_B rs = Done true).
Proof.
  intros Hf Hsc Hwf Hu.
  pose proof (run_schedule_tally env sch _ ps _ (race_inv_start sch w sc Hf Hsc Hwf)) as Ht.
  rewrite Hu in Ht.
  destruct (tally_run_live ps (tally_of env sch (race_start w))) as (Hr & [HnA HnB] & Hst);
    [split; discriminate|].
  rewrite Ht in Hr, HnA, HnB, Hst.
  destruct (run_schedule (source_config env) sch ps (race_start w)) as [rs r]. simpl in *. subst r.
  exists rs. split; [done|].
  split; intros H2; apply stage_done_true; try done; [specialize (Hst PA)|specialize (Hst PB)];
    simpl in Hst; lia.
Qed.

(** C17. Refinement: for every schedule of the two runs, with no fault
    and an existing, well-formed target schema, with or without the
    unique constraint, the race follows the counting machine
    [tally_run]: run from how far the runs have got (both fresh) and
    the number of committed rows carrying the key, the machine ends in
    the final progress of both runs and the final number of such rows,
    with the same outcome.  A check answers whether a row carries the
    key; a seeding after a negative check adds exactly one; on a
    constrained schema where the key is already committed it raises
    [IntegrityError] and the schedule stops. *)
Theorem race_refines_tally env sch w sc ps :
  w_faults w = [] -> w_db w !! sch = Some sc -> wf_schema sc ->
  tally_run (sc_key_unique sc) ps (mk_tally Fresh Fresh (key_count env sch (w_db w))) =
    (tally_of env sch (run_schedule (source_config env) sch ps (race_start w)).1,
     (run_schedule (source_config env) sch ps (race_start w)).2).
Proof.
  intros Hf Hsc Hwf. exact (run_schedule_tally env sch _ ps _ (race_inv_start sch w sc Hf Hsc Hwf)).
Qed.

(** C27. On a schema without the unique constraint where the key is not
    yet committed, of the six interleavings of two runs, the key ends up
    committed twice in exactly the four where both existence checks run
    before either seed, and once in the two serial ones; in all six no
    step raises and both runs return [True]. *)
Theorem race_iff_checks_first env sch w sc :
  w_faults w = [] -> w_db w !! sch = Some sc -> wf_schema sc -> sc_key_unique sc = false ->
  filter (fun r => source_key r = cfg env "key") (sc_source sc) = [] ->
  Forall (fun ps =>
    exists rs, run_schedule (source_config env) sch ps (race_start w) = (rs, Ret tt) /\
      rs_A rs = Done true /\ rs_B rs = Done true /\
      key_count env sch (w_db (rs_world rs)) = if checks_first ps then 2 else 1)
    interleavings.
Proof.
  intros Hf Hsc Hwf Hu Hkey. eapply Forall_impl; [exact tally_interleavings_free|]. intros ps Hps.
  pose proof (run_schedule_tally env sch _ ps _ (race_inv_start sch w sc Hf Hsc Hwf)) as Ht.
  assert (tally_of env sch (race_start w) = mk_tally Fresh Fresh 0) as H0.
  { unfold tally_of. simpl. by rewrite (key_count_lookup _ _ _ sc), Hkey. }
  rewrite H0, Hu, Hps in Ht.
  destruct (run_schedule (source_config env) sch ps (race_start w)) as [rs r].
  unfold tally_of in Ht. simpl in Ht. injection Ht as HA HB Hk Hr.
  exists rs. subst r. auto.
Qed.

(** ** Witnesses *)

Lemma race_duplicates_key_witness :
  (w_faults demo_world = [] /\ w_db demo_world !! "new_one" = Some demo_schema /\
   wf_schema demo_schema /\ sc_key_unique demo_schema = false /\
   filter (fun r => source_key r = cfg ∅ "key") (sc_source demo_schema) = []) /\
  exists rs, run_schedule (source_config ∅) "new_one" [PA; PB; PA; PB] (race_start demo_world) =
      (rs, Ret tt) /\
    rs_A rs = Done true /\ rs_B rs = Done true /\
    w_db (rs_world rs) = <["new_one" := seeded_schema ∅ (seeded_schema ∅ demo_schema)]>
                           (w_db demo_world) /\
    ~ keys_ok (w_db (rs_world rs)).
Proof.
  split; [split; [reflexivity|split; [reflexivity|split; [exact demo_schema_wf|split; reflexivity]]]|].
  apply (race_duplicates_key ∅ "new_one" demo_world demo_schema); try reflexivity. exact demo_schema_wf.
Defined.

Lemma race_runs_complete_witness :
  (w_faults demo_world = [] /\ w_db demo_world !! "new_one" = Some demo_schema /\
   wf_schema demo_schema /\ sc_key_unique demo_schema = false) /\
  exists rs, run_schedule (source_config ∅) "new_one" [PA; PB; PB; PA] (race_start demo_world) =
      (rs, Ret tt) /\
    (2 <= turns PA [PA; PB; PB; PA] -> rs_A rs = Done true) /\
    (2 <= turns PB [PA; PB; PB; PA] -> rs_B rs = Done true).
Proof.
  split; [split; [reflexivity|split; [reflexivity|split; [exact demo_schema_wf|reflexivity]]]|].
  exact (race_runs_complete ∅ "new_one" demo_world demo_schema [PA; PB; PB; PA]
           eq_refl eq_refl demo_schema_wf eq_refl).
Defined.

Lemma race_refines_tally_witness :
  (w_faults demo_world = [] /\ w_db demo_world !! "new_one" = Some demo_schema /\
   wf_schema demo_schema) /\
  tally_run (sc_key_unique demo_schema) [PA; PB; PA; PB]
      (mk_tally Fresh Fresh (key_count ∅ "new_one" (w_db demo_world))) =
    (tally_of ∅ "new_one" (run_schedule (source_config ∅) "new_one" [PA; PB; PA; PB]
                             (race_start demo_world)).1,
     (run_schedule (source_config ∅) "new_one" [PA; PB; PA; PB] (race_start demo_world)).2).
Proof.
  split; [split; [reflexivity|split; [reflexivity|exact demo_schema_wf]]|].
  exact (race_refines_tally ∅ "new_one" demo_world demo_schema [PA; PB; PA; PB]
           eq_refl eq_refl demo_schema_wf).
Defined.

Lemma race_iff_checks_first_witness :
  (w_faults demo_world = [] /\ w_db demo_world !! "new_one" = Some demo_schema /\
   wf_schema demo_schema /\ sc_key_unique demo_schema = false /\
   filter (fun r => source_key r = cfg ∅ "key") (sc_source demo_schema) = []) /\
  Forall (fun ps =>
    exists rs, run_schedule (source_config ∅) "new_one" ps (race_start demo_world) = (rs, Ret tt) /\
      rs_A rs = Done true /\ rs_B rs = Done true /\
      key_count ∅ "new_one" (w_db (rs_world rs)) = if checks_first ps then 2 else 1)
    interleavings.
Proof.
  split; [split; [reflexivity|split; [reflexivity|split; [exact demo_schema_wf|split; reflexivity]]]|].
  exact (race_iff_checks_first ∅ "new_one" demo_world demo_schema
           eq_refl eq_refl demo_schema_wf eq_refl eq_refl).
Defined.
