(* ===== verification/Constraint.v ===== *)
(** * A unique constraint on [source_key]

    Spec section 5: two runs at once "can produce a duplicate-row failure
    or duplicate source records depending on schema-level constraints not
    under this script's control".  [Race] shows the duplicate records on a
    schema without the constraint.  This file takes a schema that declares
    it ([sc_key_unique]): the server then refuses an INSERT whose key the
    committed rows or the transaction's own already hold
    ([Postgres.key_taken]).

    - On a fresh key, the interleaving where both checks come first ends
      with the second seeding refused with an [IntegrityError], the
      "duplicate-row failure" of the spec, and the key committed once
      ([race_constraint_rejects_second]).
    - Of the six interleavings of two runs, exactly the four where both
      checks come first end with that failure; the two serial ones end
      with both runs returning [True], the second skipping; in all six
      the key is committed once ([constrained_interleavings], through the
      counting machine of [Race]).

    The race is taken at the granularity of [Race]: a seeding step runs
    its INSERTs and its COMMIT without the other run moving in between.
    PostgreSQL would make a second INSERT of the same key wait for the
    first transaction and then fail; at this granularity the second
    seeding starts after the first committed, with the same outcome. *)

From S2P Require Import Prelude Python Postgres Psycopg Config Connection Populate Atomicity Race.

Local Open Scope py_scope.

(** The counting machine of [Race] on the six interleavings of two runs
    on a fresh key, with the constraint. *)
Lemma tally_interleavings_unique :
  Forall (fun ps =>
    let '(t, r) := tally_run true ps (mk_tally Fresh Fresh 0) in
    t_keys t = 1 /\
    match r with
    | Ret _ => checks_first ps = false /\ t_A t = Done true /\ t_B t = Done true
    | Raise e => checks_first ps = true /\ e = DatabaseError IntegrityError
    end)
    interleavings.
Proof. repeat constructor. Qed.

Section Rejects.
Context (env : gmap string string) (sch : string).

(** C18. The duplicate-row failure of spec section 5: on a schema that
    declares the unique constraint, when both runs find a fresh key absent
    before either seeds, the first seeding commits and its run is done
    with [True]; the second run's INSERT is refused with an
    [IntegrityError], a [psycopg2] error, which [load_source_table]'s
    [except] turns into [False] and [main] into exit status 1.  The
    committed rows are those of one seeding: the key once. *)
Theorem race_constraint_rejects_second w sc :
  w_faults w = [] -> w_db w !! sch = Some sc -> wf_schema sc -> sc_key_unique sc = true ->
  filter (fun r => source_key r = cfg env "key") (sc_source sc) = [] ->
  exists rs, run_schedule (source_config env) sch [PA; PB; PA; PB] (race_start w) =
      (rs, Raise (DatabaseError IntegrityError)) /\
    rs_A rs = Done true /\ rs_B rs = Checked false /\
    rows_of (w_db (rs_world rs)) = rows_of (<[sch := seeded_schema env sc]> (w_db w)).
Proof.
  intros Hf Hsc Hwf Hu Hkey. unfold race_start.
  erewrite run_schedule_cons_run; [|eapply step_check_absent_run; simpl; eauto].
  erewrite run_schedule_cons_run; [|eapply step_check_absent_run; simpl; eauto].
  match goal with |- context [run_schedule _ _ (PA :: _) ?rs] =>
    destruct (step_seed_insert_run env sch (world_of PA rs) sc []) as (wA & HA & HdbA & HcA & HfA) end;
    try (simpl; solve [eauto using key_taken_absent]).
  erewrite run_schedule_cons_run; [|exact HA].
  match goal with |- context [run_schedule _ _ (PB :: _) ?rs] =>
    destruct (step_seed_taken_run env sch (world_of PB rs) (seeded_schema env sc) [])
      as (wB & HB & HdbB) end;
    try (simpl; rewrite ?HcA, ?HfA, ?HdbA, ?lookup_insert_eq;
         solve [eauto using wf_schema_seeded, key_taken_seeded]).
  erewrite run_schedule_cons_raise; [|exact HB].
  eexists. split; [reflexivity|]. simpl. split; [done|split; [done|]].
  rewrite HdbB. simpl. rewrite HdbA. by rewrite rows_of_alter_bump.
Qed.
End Rejects.

(** C28. Every interleaving on a constrained schema where the key is not
    yet committed: of the six interleavings of two runs, exactly the four
    where both existence checks come before either seed end with the
    second seeding refused with an [IntegrityError]; the two serial ones
    end normally with both runs returning [True], the second skipping;
    and in all six the key is committed exactly once. *)
Theorem constrained_interleavings env sch w sc :
  w_faults w = [] -> w_db w !! sch = Some sc -> wf_schema sc -> sc_key_unique sc = true ->
  filter (fun r => source_key r = cfg env "key") (sc_source sc) = [] ->
  Forall (fun ps =>
    let '(rs, r) := run_schedule (source_config env) sch ps (race_start w) in
    key_count env sch (w_db (rs_world rs)) = 1 /\
    match r with
    | Ret _ => checks_first ps = false /\ rs_A rs = Done true /\ rs_B rs = Done true
    | Raise e => checks_first ps = true /\ e = DatabaseError IntegrityError
    end)
    interleavings.
Proof.
  intros Hf Hsc Hwf Hu Hkey. eapply Forall_impl; [exact tally_interleavings_unique|]. intros ps Hps.
  pose proof (run_schedule_tally env sch _ ps _ (race_inv_start sch w sc Hf Hsc Hwf)) as Ht.
  assert (tally_of env sch (race_start w) = mk_tally Fresh Fresh 0) as H0.
  { unfold tally_of. simpl. by rewrite (key_count_lookup _ _ _ sc), Hkey. }
  rewrite H0, Hu in Ht. cbv beta in Hps. rewrite Ht in Hps.
  destruct (run_schedule (source_config env) sch ps (race_start w)) as [rs r]. exact Hps.
Qed.

(** The demonstration world of [Populate] with the constraint declared. *)
Definition constrained_schema : schema_state := mk_schema [] [] 1 true.

Definition constrained_world : world :=
  mk_world ∅ ∅ (fun _ => true) {["new_one" := constrained_schema]} NoConn None []
    (HttpResponse 200 "ok") [] [].

Lemma constrained_schema_wf : wf_schema constrained_schema.
Proof. vm_compute. repeat constructor. Qed.

Lemma race_constraint_rejects_second_witness :
  (w_faults constrained_world = [] /\
   w_db constrained_world !! "new_one" = Some constrained_schema /\
   wf_schema constrained_schema /\ sc_key_unique constrained_schema = true /\
   filter (fun r => source_key r = cfg ∅ "key") (sc_source constrained_schema) = []) /\
  exists rs, run_schedule (source_config ∅) "new_one" [PA; PB; PA; PB] (race_start constrained_world) =
      (rs, Raise (DatabaseError IntegrityError)) /\
    rs_A rs = Done true /\ rs_B rs = Checked false /\
    rows_of (w_db (rs_world rs)) =
      rows_of (<["new_one" := seeded_schema ∅ constrained_schema]> (w_db constrained_world)).
Proof.
  split; [split; [reflexivity|split; [reflexivity|split; [exact constrained_schema_wf|split; reflexivity]]]|].
  apply (race_constraint_rejects_second ∅ "new_one" constrained_world constrained_schema);
    try reflexivity. exact constrained_schema_wf.
Defined.

Lemma constrained_interleavings_witness :
  (w_faults constrained_world = [] /\
   w_db constrained_world !! "new_one" = Some constrained_schema /\
   wf_schema constrained_schema /\ sc_key_unique constrained_schema = true /\
   filter (fun r => source_key r = cfg ∅ "key") (sc_source constrained_schema) = []) /\
  Forall (fun ps =>
    let '(rs, r) := run_schedule (source_config ∅) "new_one" ps (race_start constrained_world) in
    key_count ∅ "new_one" (w_db (rs_world rs)) = 1 /\
    match r with
    | Ret _ => checks_first ps = false /\ rs_A rs = Done true /\ rs_B rs = Done true
    | Raise e => checks_first ps = true /\ e = DatabaseError IntegrityError
    end)
    interleavings.
Proof.
  split; [split; [reflexivity|split; [reflexivity|split; [exact constrained_schema_wf|split; reflexivity]]]|].
  exact (constrained_interleavings ∅ "new_one" constrained_world constrained_schema
           eq_refl eq_refl constrained_schema_wf eq_refl eq_refl).
Defined.
