(* ===== verification/Sql.v ===== *)
(** * The SQL text the script sends

    The rest of the development runs statements as values of
    [Postgres.stmt].  This file models what actually crosses the wire and
    shows when the abstraction is exact.

    - The code (lines 48, 54-63, 72-82): each [cursor.execute] call passes
      an f-string into which the target schema is spliced as it stands,
      with [%s] placeholders, and a tuple of parameters ([stmt_query]).
    - psycopg2 interpolates on the client ([mogrify]): every [%s] takes
      the next parameter, adapted to a literal ([render]).  A [str] becomes
      a quoted literal with its quotes doubled and cannot hold NUL; an
      [int] is printed in decimal, with a space before a minus sign.
      Format errors raise.
    - PostgreSQL reads the text ([parse_stmt]), against the grammar of the
      three statements ([select_tpl], [insert_source_tpl],
      [insert_daimon_tpl]).  An unquoted identifier is folded to lower
      case and may not be a reserved word; a quoted literal ends at a
      quote that is not doubled; [;] outside a literal ends a statement
      ([split_statements]).

    The theorems: for a schema name that is a plain lower-case identifier,
    the server reads back exactly the statement the model executes,
    whatever text the parameters hold ([stmt_query_roundtrip]), and so
    does every statement a run of [load_source_table] executes
    ([load_source_table_wire]); a schema name taken from the environment
    is not quoted, and one holding [;] makes the first query two
    statements ([schema_injection]). *)

From Stdlib Require Import Ascii Decimal DecimalString DecimalPos DecimalZ.
From S2P Require Import Prelude Python Postgres Psycopg Config Connection Populate.

Local Open Scope string_scope.

(** The proofs here compute on texts: let [simpl] unfold concatenation. *)
#[local] Arguments String.append : simpl nomatch.

(** ** The statements of the code *)

Definition nl : string := String "010" EmptyString.

(** Line 48. *)
Definition select_source_sql (schema : string) : string :=
  "SELECT 1 FROM " +:+ schema +:+ ".source WHERE source_key = %s".

(** Lines 54-57: a triple-quoted f-string, from the newline after its
    opening quotes to the four spaces before its closing ones. *)
Definition insert_source_sql (schema : string) : string :=
  nl +:+ "        INSERT INTO " +:+ schema +:+
  (".source (source_name, source_key, source_connection, source_dialect)" +:+ nl +:+
   "        VALUES (%s, %s, %s, %s)" +:+ nl +:+
   "        RETURNING source_id" +:+ nl +:+ "    ").

(** Lines 79-82. *)
Definition insert_daimon_sql (schema : string) : string :=
  nl +:+ "        INSERT INTO " +:+ schema +:+
  (".source_daimon (source_id, daimon_type, table_qualifier, priority)" +:+ nl +:+
   "        VALUES (%s, %s, %s, %s)" +:+ nl +:+ "    ").

(** A parameter of a query: a Python [str] or [int]. *)
Inductive sql_param := PStr (s : string) | PInt (z : Z).

(** The two arguments of the [cursor.execute] call that runs a statement:
    the query text and the parameter tuple (lines 48, 54-63; one tuple of
    the [executemany] of lines 72-82). *)
Definition stmt_query (st : stmt) : string * list sql_param :=
  match st with
  | SelectSourceByKey sch k => (select_source_sql sch, [PStr k])
  | InsertSource sch n k c d => (insert_source_sql sch, [PStr n; PStr k; PStr c; PStr d])
  | InsertSourceDaimon sch sid t q p => (insert_daimon_sql sch, [PInt sid; PInt t; PStr q; PInt p])
  end.

(** ** psycopg2's client-side interpolation *)

(** The Python exceptions interpolation raises. *)
Inductive format_error :=
| NulInLiteral           (** [ValueError]: a string literal cannot contain NUL *)
| UnsupportedFormat      (** [ValueError]: unsupported format character *)
| NotAllConverted        (** [TypeError]: not all arguments converted *)
| IndexOutOfRange.       (** [IndexError]: tuple index out of range *)

Fixpoint has_char (c : ascii) (s : string) : bool :=
  match s with
  | EmptyString => false
  | String d s' => Ascii.eqb c d || has_char c s'
  end.

(** [PQescapeStringConn] with [standard_conforming_strings] on: a quote is
    doubled, every other character is kept. *)
Fixpoint escape_quotes (s : string) : string :=
  match s with
  | EmptyString => EmptyString
  | String c s' =>
      if Ascii.eqb c "'" then String "'" (String "'" (escape_quotes s'))
      else String c (escape_quotes s')
  end.

(** Python's [str] of an integer. *)
Definition int_text (z : Z) : string := NilZero.string_of_int (Z.to_int z).

Definition quote (s : string) : string := "'" +:+ escape_quotes s +:+ "'".

(** psycopg2 puts a space before a negative number, so that a minus sign
    after another one cannot start a comment. *)
Definition int_lit (z : Z) : string :=
  if bool_decide (z < 0)%Z then " " +:+ int_text z else int_text z.

(** The literal psycopg2 adapts a parameter to. *)
Definition render (p : sql_param) : format_error + string :=
  match p with
  | PStr s => if has_char "000" s then inl NulInLiteral else inr (quote s)
  | PInt z => inr (int_lit z)
  end.

(** [query % params] as psycopg2 formats it, left to right: the first
    error met is the one raised. *)
Fixpoint mogrify (q : string) (ps : list sql_param) : format_error + string :=
  match q with
  | EmptyString => match ps with [] => inr EmptyString | _ => inl NotAllConverted end
  | String c q' =>
      if Ascii.eqb c "%" then
        match q' with
        | String d q'' =>
            if Ascii.eqb d "s" then
              match ps with
              | p :: ps' =>
                  match render p, mogrify q'' ps' with
                  | inr r, inr t => inr (r +:+ t)
                  | inl e, _ | _, inl e => inl e
                  end
              | [] => inl IndexOutOfRange
              end
            else if Ascii.eqb d "%" then
              match mogrify q'' ps with inr t => inr (String "%" t) | inl e => inl e end
            else inl UnsupportedFormat
        | EmptyString => inl UnsupportedFormat
        end
      else match mogrify q' ps with inr t => inr (String c t) | inl e => inl e end
  end.

(** ** PostgreSQL reading the text *)

Definition in_range (lo hi : nat) (c : ascii) : bool :=
  Nat.leb lo (nat_of_ascii c) && Nat.leb (nat_of_ascii c) hi.

Definition is_digit : ascii -> bool := in_range 48 57.
Definition is_upper : ascii -> bool := in_range 65 90.
Definition is_lower : ascii -> bool := in_range 97 122.

(** The characters that start and continue an unquoted identifier. *)
Definition ident_start (c : ascii) : bool := is_lower c || is_upper c || Ascii.eqb c "_".
Definition ident_char (c : ascii) : bool := ident_start c || is_digit c || Ascii.eqb c "$".

(** Unquoted identifiers are folded to lower case. *)
Definition to_lower (c : ascii) : ascii :=
  if is_upper c then ascii_of_nat (nat_of_ascii c + 32) else c.

Fixpoint lower (s : string) : string :=
  match s with
  | EmptyString => EmptyString
  | String c s' => String (to_lower c) (lower s')
  end.

(** The key words PostgreSQL reserves, which cannot name a schema unquoted. *)
Definition reserved_words : list string :=
  ["all"; "analyse"; "analyze"; "and"; "any"; "array"; "as"; "asc"; "asymmetric";
   "authorization"; "binary"; "both"; "case"; "cast"; "check"; "collate"; "collation";
   "column"; "concurrently"; "constraint"; "create"; "cross"; "current_catalog";
   "current_date"; "current_role"; "current_schema"; "current_time"; "current_timestamp";
   "current_user"; "default"; "deferrable"; "desc"; "distinct"; "do"; "else"; "end";
   "except"; "false"; "fetch"; "for"; "foreign"; "freeze"; "from"; "full"; "grant";
   "group"; "having"; "ilike"; "in"; "initially"; "inner"; "intersect"; "into"; "is";
   "isnull"; "join"; "lateral"; "leading"; "left"; "like"; "limit"; "localtime";
   "localtimestamp"; "natural"; "not"; "notnull"; "null"; "offset"; "on"; "only"; "or";
   "order"; "outer"; "overlaps"; "placing"; "primary"; "references"; "returning";
   "right"; "select"; "session_user"; "similar"; "some"; "symmetric"; "system_user";
   "table"; "tablesample"; "then"; "to"; "trailing"; "true"; "union"; "unique"; "user";
   "using"; "variadic"; "verbose"; "when"; "where"; "window"; "with"].

Fixpoint take_while (f : ascii -> bool) (s : string) : string * string :=
  match s with
  | String c s' => if f c then let '(a, b) := take_while f s' in (String c a, b) else (EmptyString, s)
  | EmptyString => (EmptyString, EmptyString)
  end.

Fixpoint strip_prefix (p s : string) : option string :=
  match p, s with
  | EmptyString, _ => Some s
  | String c p', String d s' => if Ascii.eqb c d then strip_prefix p' s' else None
  | String _ _, EmptyString => None
  end.

(** An unquoted identifier: its folded name and the text after it. *)
Definition read_ident (s : string) : option (string * string) :=
  match take_while ident_char s with
  | (String c _ as id, rest) =>
      if ident_start c && negb (bool_decide (lower id ∈ reserved_words)) then Some (lower id, rest)
      else None
  | (EmptyString, _) => None
  end.

(** A quoted literal, after its opening quote: its value and the text after
    its closing quote; a doubled quote stands for one quote. *)
Fixpoint read_quoted (s : string) : option (string * string) :=
  match s with
  | EmptyString => None
  | String c s' =>
      if Ascii.eqb c "'" then
        match s' with
        | String d s'' =>
            if Ascii.eqb d "'" then (fun vr => (String "'" vr.1, vr.2)) <$> read_quoted s''
            else Some (EmptyString, s')
        | EmptyString => Some (EmptyString, EmptyString)
        end
      else (fun vr => (String c vr.1, vr.2)) <$> read_quoted s'
  end.

(** An integer constant, after at most one space, with its sign. *)
Definition read_int (s : string) : option (Z * string) :=
  let s1 := match s with String c s' => if Ascii.eqb c " " then s' else s | _ => s end in
  let ns := match s1 with
            | String c s' => if Ascii.eqb c "-" then (true, s') else (false, s1)
            | EmptyString => (false, s1)
            end in
  let dr := take_while is_digit ns.2 in
  match NilZero.uint_of_string dr.1 with
  | Some u => Some (Z.of_int (if ns.1 then Decimal.Neg u else Decimal.Pos u), dr.2)
  | None => None
  end.

(** The grammar of the three statements, with the layout the code gives
    them: fixed text, the schema identifier, literals and integers. *)
Inductive piece := Lit (s : string) | Ident | QStr | Num.

Inductive sql_value := VIdent (s : string) | VStr (s : string) | VInt (z : Z).

Fixpoint match_tpl (t : list piece) (s : string) : option (list sql_value) :=
  match t with
  | [] => match s with EmptyString => Some [] | _ => None end
  | Lit l :: t' => strip_prefix l s ≫= match_tpl t'
  | Ident :: t' => read_ident s ≫= fun ir => cons (VIdent ir.1) <$> match_tpl t' ir.2
  | QStr :: t' =>
      match s with
      | String c s' =>
          if Ascii.eqb c "'" then read_quoted s' ≫= fun vr => cons (VStr vr.1) <$> match_tpl t' vr.2
          else None
      | EmptyString => None
      end
  | Num :: t' => read_int s ≫= fun zr => cons (VInt zr.1) <$> match_tpl t' zr.2
  end.

Definition select_tpl : list piece :=
  [Lit "SELECT 1 FROM "; Ident; Lit ".source WHERE source_key = "; QStr].

Definition insert_source_tpl : list piece :=
  [Lit (nl +:+ "        INSERT INTO "); Ident;
   Lit (".source (source_name, source_key, source_connection, source_dialect)" +:+ nl +:+
        "        VALUES (");
   QStr; Lit ", "; QStr; Lit ", "; QStr; Lit ", "; QStr;
   Lit (")" +:+ nl +:+ "        RETURNING source_id" +:+ nl +:+ "    ")].

Definition insert_daimon_tpl : list piece :=
  [Lit (nl +:+ "        INSERT INTO "); Ident;
   Lit (".source_daimon (source_id, daimon_type, table_qualifier, priority)" +:+ nl +:+
        "        VALUES (");
   Num; Lit ", "; Num; Lit ", "; QStr; Lit ", "; Num; Lit (")" +:+ nl +:+ "    ")].

(** The statement the server reads from a text, if it is one of the three. *)
Definition parse_stmt (s : string) : option stmt :=
  match match_tpl select_tpl s with
  | Some [VIdent sch; VStr k] => Some (SelectSourceByKey sch k)
  | _ =>
  match match_tpl insert_source_tpl s with
  | Some [VIdent sch; VStr n; VStr k; VStr c; VStr d] => Some (InsertSource sch n k c d)
  | _ =>
  match match_tpl insert_daimon_tpl s with
  | Some [VIdent sch; VInt sid; VInt t; VStr q; VInt p] => Some (InsertSourceDaimon sch sid t q p)
  | _ => None
  end end end.

(** The statements a text holds: [;] outside a quoted literal ends one. *)
Fixpoint split_aux (inq : bool) (s : string) : string * list string :=
  match s with
  | EmptyString => (EmptyString, [])
  | String c s' =>
      if Ascii.eqb c "'" then let '(cur, rest) := split_aux (negb inq) s' in (String c cur, rest)
      else if Ascii.eqb c ";" && negb inq then let '(cur, rest) := split_aux false s' in
        (EmptyString, cur :: rest)
      else let '(cur, rest) := split_aux inq s' in (String c cur, rest)
  end.

Definition split_statements (s : string) : list string :=
  let '(cur, rest) := split_aux false s in cur :: rest.

(** The text a template stands for, with its values filled in. *)
Fixpoint render_tpl (t : list piece) (vs : list sql_value) : string :=
  match t, vs with
  | Lit l :: t', _ => l +:+ render_tpl t' vs
  | Ident :: t', VIdent s :: vs' => s +:+ render_tpl t' vs'
  | QStr :: t', VStr s :: vs' => quote s +:+ render_tpl t' vs'
  | Num :: t', VInt z :: vs' => int_lit z +:+ render_tpl t' vs'
  | _, _ => EmptyString
  end.

(** ** What the script needs of its inputs *)

Fixpoint all_chars (f : ascii -> bool) (s : string) : bool :=
  match s with
  | EmptyString => true
  | String c s' => f c && all_chars f s'
  end.

(** [s] does not go on with a character of class [f]. *)
Definition stops (f : ascii -> bool) (s : string) : bool :=
  match s with String c _ => negb (f c) | EmptyString => true end.

(** A schema name the server reads back unchanged when it is spliced in
    unquoted: an identifier start, then identifier characters, no upper
    case, not a reserved word. *)
Definition plain_ident (s : string) : bool :=
  match s with
  | String c _ =>
      ident_start c && all_chars (fun d => ident_char d && negb (is_upper d)) s &&
      negb (bool_decide (s ∈ reserved_words))
  | EmptyString => false
  end.

Definition stmt_schema (st : stmt) : string :=
  match st with
  | SelectSourceByKey sch _ | InsertSource sch _ _ _ _ | InsertSourceDaimon sch _ _ _ _ => sch
  end.

(** The [str] parameters of a statement. *)
Definition stmt_texts (st : stmt) : list string :=
  match st with
  | SelectSourceByKey _ k => [k]
  | InsertSource _ n k c d => [n; k; c; d]
  | InsertSourceDaimon _ _ _ q _ => [q]
  end.

(** The values fit the template: the kinds agree, the schema is a plain
    identifier, and no identifier, literal or integer runs on into the
    text after it. *)
Fixpoint tpl_ok (t : list piece) (vs : list sql_value) : bool :=
  match t, vs with
  | [], [] => true
  | Lit _ :: t', _ => tpl_ok t' vs
  | Ident :: t', VIdent s :: vs' => plain_ident s && stops ident_char (render_tpl t' vs') && tpl_ok t' vs'
  | QStr :: t', VStr _ :: vs' => stops (Ascii.eqb "'") (render_tpl t' vs') && tpl_ok t' vs'
  | Num :: t', VInt _ :: vs' => stops is_digit (render_tpl t' vs') && tpl_ok t' vs'
  | _, _ => false
  end.

(** ** Lemmas on strings *)

Lemma append_assoc a b c : (a +:+ b) +:+ c = a +:+ b +:+ c.
Proof. induction a as [|x a IH]; simpl; [done|]. by rewrite IH. Qed.

Lemma append_nil_r a : a +:+ EmptyString = a.
Proof. induction a as [|x a IH]; simpl; [done|]. by rewrite IH. Qed.

Lemma quote_app s rest : quote s +:+ rest = String "'" (escape_quotes s +:+ String "'" rest).
Proof. unfold quote. simpl. by rewrite append_assoc. Qed.

Lemma strip_prefix_app p s : strip_prefix p (p +:+ s) = Some s.
Proof. induction p as [|c p IH]; simpl; [done|]. by rewrite Ascii.eqb_refl. Qed.

Lemma take_while_app f a b :
  all_chars f a = true -> stops f b = true -> take_while f (a +:+ b) = (a, b).
Proof.
  induction a as [|c a IH]; simpl.
  - destruct b as [|d b]; simpl; [done|]. intros _ Hd. by destruct (f d).
  - intros [Hc Ha]%andb_prop Hb. by rewrite Hc, IH.
Qed.

Lemma lower_plain s : all_chars (fun d => ident_char d && negb (is_upper d)) s = true -> lower s = s.
Proof.
  induction s as [|c s IH]; simpl; [done|]. intros [[_ Hu]%andb_prop Hs]%andb_prop.
  unfold to_lower. apply negb_true_iff in Hu. by rewrite Hu, IH.
Qed.

Lemma all_chars_weaken (f g : ascii -> bool) s :
  (forall c, f c = true -> g c = true) -> all_chars f s = true -> all_chars g s = true.
Proof. intros Hfg. induction s as [|c s IH]; simpl; [done|]. intros [Hc Hs]%andb_prop. by rewrite Hfg, IH. Qed.

(** How the server reads an unquoted identifier followed by other text:
    folded to lower case, or rejected if it is a reserved word. *)
Lemma read_ident_app c s rest :
  ident_start c = true -> all_chars ident_char (String c s) = true -> stops ident_char rest = true ->
  read_ident (String c s +:+ rest) =
    if bool_decide (lower (String c s) ∈ reserved_words) then None else Some (lower (String c s), rest).
Proof.
  intros Hc Ha Hr. unfold read_ident. rewrite take_while_app by done. rewrite Hc. simpl.
  by case_bool_decide.
Qed.

Lemma read_ident_plain s rest :
  plain_ident s = true -> stops ident_char rest = true -> read_ident (s +:+ rest) = Some (s, rest).
Proof.
  destruct s as [|c s0]; [done|]. intros Hp Hr.
  apply andb_prop in Hp as [[Hc Ha]%andb_prop Hres%negb_true_iff].
  rewrite read_ident_app, (lower_plain _ Ha), Hres; [done|done| |done].
  eapply all_chars_weaken; [|exact Ha]. intros d [Hd _]%andb_prop. exact Hd.
Qed.

(** Reading a literal back: the quotes psycopg2 doubles are read as one. *)
Lemma read_quoted_escape s rest :
  stops (Ascii.eqb "'") rest = true ->
  read_quoted (escape_quotes s +:+ String "'" rest) = Some (s, rest).
Proof.
  intros Hr. induction s as [|c s IH]; cbn -[Ascii.eqb].
  - destruct rest as [|d rest]; [done|].
    cbn [stops] in Hr. apply negb_true_iff in Hr. by rewrite Ascii.eqb_refl, (Ascii.eqb_sym d), Hr.
  - destruct (Ascii.eqb_spec c "'") as [->|Hc]; cbn -[Ascii.eqb].
    + by rewrite IH.
    + destruct (Ascii.eqb_spec c "'"); [done|]. by rewrite IH.
Qed.

Lemma digits_uint u : all_chars is_digit (NilEmpty.string_of_uint u) = true.
Proof. induction u; simpl; auto. Qed.

Lemma uint_text_head u :
  u <> Nil -> exists c s, NilEmpty.string_of_uint u = String c s /\ is_digit c = true.
Proof. destruct u; intros Hu; [done|..]; do 2 eexists; split; reflexivity. Qed.

(** The text of a nonzero decimal: a digit first, so no space or sign. *)
Lemma read_int_uint (minus : bool) u rest :
  u <> Nil -> stops is_digit rest = true ->
  read_int ((if minus then " -" else EmptyString) +:+ NilEmpty.string_of_uint u +:+ rest) =
    Some (Z.of_int (if minus then Decimal.Neg u else Decimal.Pos u), rest).
Proof.
  intros Hu Hr. destruct (uint_text_head u Hu) as (c & s & Hs & Hc).
  assert (NilZero.uint_of_string (NilEmpty.string_of_uint u) = Some u) as Huu.
  { pose proof (NilZero.usu u Hu) as H. by destruct u. }
  unfold read_int. destruct minus; simpl.
  - rewrite take_while_app by (apply digits_uint || done). simpl. by rewrite Huu.
  - rewrite Hs. simpl. destruct (Ascii.eqb_spec c " ") as [->|]; [done|].
    destruct (Ascii.eqb_spec c "-") as [->|]; [done|]. simpl.
    assert (all_chars is_digit s = true) as Hd.
    { pose proof (digits_uint u) as H. rewrite Hs in H. by apply andb_prop in H as [_ ?]. }
    rewrite Hc, take_while_app by done. cbv beta iota. cbn [fst snd]. by rewrite <- Hs, Huu.
Qed.

Lemma uint_text_nonnil u : u <> Nil -> NilZero.string_of_uint u = NilEmpty.string_of_uint u.
Proof. by destruct u. Qed.

Lemma read_int_lit z rest :
  stops is_digit rest = true -> read_int (int_lit z +:+ rest) = Some (z, rest).
Proof.
  intros Hr. unfold int_lit, int_text.
  destruct z as [|p|p]; simpl.
  - exact (read_int_uint false (D0 Nil) rest ltac:(done) Hr).
  - pose proof (DecimalPos.Unsigned.to_uint_nonnil p) as Hp; rewrite uint_text_nonnil by done.
    pose proof (read_int_uint false _ rest Hp Hr) as H.
    rewrite <- (DecimalZ.of_to (Z.pos p)). exact H.
  - pose proof (DecimalPos.Unsigned.to_uint_nonnil p) as Hp; rewrite uint_text_nonnil by done.
    pose proof (read_int_uint true _ rest Hp Hr) as H.
    rewrite <- (DecimalZ.of_to (Z.neg p)). exact H.
Qed.

(** ** Reading a template back *)

Lemma match_render t : forall vs, tpl_ok t vs = true -> match_tpl t (render_tpl t vs) = Some vs.
Proof.
  induction t as [|[l| | |] t IH]; intros vs.
  - by destruct vs.
  - cbn [tpl_ok render_tpl match_tpl]. intros Hok. rewrite strip_prefix_app. simpl.
    by apply IH; destruct vs as [|[] ?].
  - destruct vs as [|[s| |] vs]; cbn [tpl_ok render_tpl match_tpl]; try discriminate.
    intros [[Hp Hs]%andb_prop Hok]%andb_prop. rewrite read_ident_plain by done. simpl. by rewrite IH.
  - destruct vs as [|[|s|] vs]; cbn [tpl_ok render_tpl match_tpl]; try discriminate.
    intros [Hs Hok]%andb_prop. rewrite quote_app. cbn [match_tpl].
    rewrite Ascii.eqb_refl, read_quoted_escape by done. simpl. by rewrite IH.
  - destruct vs as [|[| |z] vs]; cbn [tpl_ok render_tpl match_tpl]; try discriminate.
    intros [Hs Hok]%andb_prop. rewrite read_int_lit by done. simpl. by rewrite IH.
Qed.

(** ** From the code's query to its text *)

(** The template and the values of a statement. *)
Definition stmt_tpl (st : stmt) : list piece :=
  match st with
  | SelectSourceByKey _ _ => select_tpl
  | InsertSource _ _ _ _ _ => insert_source_tpl
  | InsertSourceDaimon _ _ _ _ _ => insert_daimon_tpl
  end.

Definition stmt_values (st : stmt) : list sql_value :=
  match st with
  | SelectSourceByKey sch k => [VIdent sch; VStr k]
  | InsertSource sch n k c d => [VIdent sch; VStr n; VStr k; VStr c; VStr d]
  | InsertSourceDaimon sch sid t q p => [VIdent sch; VInt sid; VInt t; VStr q; VInt p]
  end.

Lemma mogrify_lit a b ps :
  has_char "%" a = false ->
  mogrify (a +:+ b) ps = match mogrify b ps with inr t => inr (a +:+ t) | inl e => inl e end.
Proof.
  induction a as [|c a IH]; cbn -[Ascii.eqb]; [by destruct (mogrify b ps)|].
  intros [Hc Ha]%orb_false_elim. rewrite Ascii.eqb_sym, Hc, IH by done. by destruct (mogrify b ps).
Qed.

Lemma all_chars_has_char f c s : all_chars f s = true -> f c = false -> has_char c s = false.
Proof.
  intros Hs Hc. induction s as [|d s IH]; cbn -[Ascii.eqb] in *; [done|]. apply andb_prop in Hs as [Hd Hs].
  destruct (Ascii.eqb_spec c d) as [->|]; [congruence|]. by apply IH.
Qed.

Lemma plain_ident_chars s :
  plain_ident s = true -> all_chars (fun d => ident_char d && negb (is_upper d)) s = true.
Proof. destruct s; [done|]. by intros [[_ H]%andb_prop _]%andb_prop. Qed.

Lemma render_str s : has_char "000" s = false -> render (PStr s) = inr (quote s).
Proof. intros H. unfold render. by rewrite H. Qed.

(** psycopg2 fills the placeholders of the code's query with the
    statement's values. *)
Lemma mogrify_stmt st :
  has_char "%" (stmt_schema st) = false -> Forall (fun s => has_char "000" s = false) (stmt_texts st) ->
  mogrify (stmt_query st).1 (stmt_query st).2 = inr (render_tpl (stmt_tpl st) (stmt_values st)).
Proof.
  intros Hp Hs. destruct st; cbn [stmt_query stmt_schema stmt_texts fst snd] in *;
    repeat (apply Forall_cons in Hs as [? Hs]);
    unfold select_source_sql, insert_source_sql, insert_daimon_sql;
    repeat (rewrite mogrify_lit by done); simpl;
    repeat match goal with H : has_char _ ?k = false |- context [has_char _ ?k] => rewrite H end;
    reflexivity.
Qed.

Lemma tpl_ok_stmt st : tpl_ok (stmt_tpl st) (stmt_values st) = plain_ident (stmt_schema st).
Proof. destruct st; simpl; by rewrite ?andb_true_r. Qed.

(** The server reads a statement's text as that statement. *)
Lemma parse_render st :
  plain_ident (stmt_schema st) = true -> parse_stmt (render_tpl (stmt_tpl st) (stmt_values st)) = Some st.
Proof.
  intros Hp. pose proof (match_render (stmt_tpl st) (stmt_values st)) as H.
  rewrite tpl_ok_stmt in H. specialize (H Hp). unfold parse_stmt.
  destruct st as [sch k|sch n k c d|sch sid t q p]; cbn [stmt_tpl stmt_values stmt_schema] in *.
  - by rewrite H.
  - change (match_tpl select_tpl (render_tpl insert_source_tpl
      [VIdent sch; VStr n; VStr k; VStr c; VStr d])) with (@None (list sql_value)).
    by rewrite H.
  - change (match_tpl select_tpl (render_tpl insert_daimon_tpl
      [VIdent sch; VInt sid; VInt t; VStr q; VInt p])) with (@None (list sql_value)).
    assert (match_tpl insert_source_tpl (render_tpl insert_daimon_tpl
      [VIdent sch; VInt sid; VInt t; VStr q; VInt p]) = None) as Hn.
    { cbn [insert_source_tpl insert_daimon_tpl render_tpl match_tpl].
      rewrite strip_prefix_app. cbn [mbind option_bind]. rewrite read_ident_plain by done.
      reflexivity. }
    by rewrite Hn, H.
Qed.

(** ** One statement per query *)

(** A character that neither ends a statement nor opens a literal. *)
Definition clean_char (c : ascii) : bool := negb (Ascii.eqb c ";") && negb (Ascii.eqb c "'").

Definition lits_clean (t : list piece) : bool :=
  forallb (fun p => match p with Lit l => all_chars clean_char l | _ => true end) t.

Lemma split_aux_clean a b :
  all_chars clean_char a = true ->
  split_aux false (a +:+ b) = (a +:+ (split_aux false b).1, (split_aux false b).2).
Proof.
  induction a as [|c a IH]; cbn -[Ascii.eqb]; [by destruct (split_aux false b)|].
  intros [[Hs%negb_true_iff Hq%negb_true_iff]%andb_prop Ha]%andb_prop.
  by rewrite Hq, Hs, IH.
Qed.

Lemma split_aux_escape s b :
  split_aux true (escape_quotes s +:+ String "'" b) =
    (escape_quotes s +:+ String "'" (split_aux false b).1, (split_aux false b).2).
Proof.
  induction s as [|c s IH]; cbn -[Ascii.eqb].
  - rewrite Ascii.eqb_refl. by destruct (split_aux false b).
  - destruct (Ascii.eqb_spec c "'") as [->|Hc]; cbn -[Ascii.eqb].
    + by rewrite Ascii.eqb_refl, IH.
    + destruct (Ascii.eqb_spec c "'"); [done|]. rewrite andb_false_r, IH. done.
Qed.

Lemma split_aux_quote s b :
  split_aux false (quote s +:+ b) = (quote s +:+ (split_aux false b).1, (split_aux false b).2).
Proof. rewrite !quote_app. cbn -[Ascii.eqb]. rewrite Ascii.eqb_refl. simpl. by rewrite split_aux_escape. Qed.

Lemma int_lit_clean z : all_chars clean_char (int_lit z) = true.
Proof.
  assert (forall c, is_digit c = true -> clean_char c = true) as Hd.
  { intros c Hc. unfold clean_char.
    destruct (Ascii.eqb_spec c ";") as [->|]; [discriminate|].
    destruct (Ascii.eqb_spec c "'") as [->|]; [discriminate|]. done. }
  unfold int_lit, int_text. destruct z as [|p|p]; simpl; [done|..];
    rewrite uint_text_nonnil by apply DecimalPos.Unsigned.to_uint_nonnil;
    eapply all_chars_weaken; eauto using digits_uint.
Qed.

Lemma plain_ident_clean s : plain_ident s = true -> all_chars clean_char s = true.
Proof.
  intros Hp. eapply all_chars_weaken; [|exact (plain_ident_chars s Hp)].
  intros c Hc. unfold clean_char.
  destruct (Ascii.eqb_spec c ";") as [->|]; [discriminate|].
  destruct (Ascii.eqb_spec c "'") as [->|]; [discriminate|]. done.
Qed.

Lemma split_render t : forall vs,
  lits_clean t = true -> tpl_ok t vs = true -> split_aux false (render_tpl t vs) = (render_tpl t vs, []).
Proof.
  induction t as [|[l| | |] t IH]; intros vs; cbn [lits_clean forallb]; [by destruct vs|..];
    intros [Hl Ht]%andb_prop.
  - cbn [tpl_ok render_tpl]. intros Hok. rewrite split_aux_clean, IH; [done|done|..].
    + by destruct vs as [|[] ?].
    + done.
  - destruct vs as [|[s| |] vs]; cbn [tpl_ok render_tpl]; try discriminate.
    intros [[Hp _]%andb_prop Hok]%andb_prop.
    by rewrite split_aux_clean, IH by auto using plain_ident_clean.
  - destruct vs as [|[|s|] vs]; cbn [tpl_ok render_tpl]; try discriminate.
    intros [_ Hok]%andb_prop. by rewrite split_aux_quote, IH.
  - destruct vs as [|[| |z] vs]; cbn [tpl_ok render_tpl]; try discriminate.
    intros [_ Hok]%andb_prop. by rewrite split_aux_clean, IH by auto using int_lit_clean.
Qed.

(** ** The theorems *)

(** The text psycopg2 sends for [st] is one statement, read back as [st]. *)
Definition wire_faithful (st : stmt) : Prop :=
  exists txt, mogrify (stmt_query st).1 (stmt_query st).2 = inr txt /\
    split_statements txt = [txt] /\ parse_stmt txt = Some st.

Lemma stmt_query_faithful st :
  plain_ident (stmt_schema st) = true ->
  Forall (fun s => has_char "000" s = false) (stmt_texts st) -> wire_faithful st.
Proof.
  intros Hp Hs. exists (render_tpl (stmt_tpl st) (stmt_values st)). split; [|split].
  - apply mogrify_stmt; [|done]. apply (all_chars_has_char _ _ _ (plain_ident_chars _ Hp)). done.
  - unfold split_statements. rewrite split_render; [done| |by rewrite tpl_ok_stmt].
    by destruct st.
  - by apply parse_render.
Qed.

(** C12. Refinement of statements by their text: when the target schema
    is a plain lower-case identifier and no parameter holds NUL, psycopg2
    turns the code's query and parameter tuple into one statement, which
    PostgreSQL reads back as exactly the statement the model executes,
    whatever quotes, semicolons or comment markers the parameters hold. *)
Theorem stmt_query_roundtrip st :
  plain_ident (stmt_schema st) = true ->
  Forall (fun s => has_char "000" s = false) (stmt_texts st) ->
  exists txt, mogrify (stmt_query st).1 (stmt_query st).2 = inr txt /\
    split_statements txt = [txt] /\ parse_stmt txt = Some st.
Proof. apply stmt_query_faithful. Qed.

(** A value of [WEBAPI_DATASOURCE_OHDSI_SCHEMA] that closes the first
    statement and starts another. *)
Definition injected_schema : string := "public.source WHERE false; DROP TABLE public.source --".

(** C14. The schema name is spliced into the query unquoted: with
    [WEBAPI_DATASOURCE_OHDSI_SCHEMA] set to [injected_schema], the
    existence check of line 48 is sent as two statements, the second of
    which drops the [source] table, whatever the source key. *)
Theorem schema_injection env :
  env !! "WEBAPI_DATASOURCE_OHDSI_SCHEMA" = Some injected_schema ->
  has_char "000" (cfg env "key") = false ->
  exists txt,
    mogrify (stmt_query (SelectSourceByKey (target_schema env) (cfg env "key"))).1
      (stmt_query (SelectSourceByKey (target_schema env) (cfg env "key"))).2 = inr txt /\
    split_statements txt =
      ["SELECT 1 FROM public.source WHERE false";
       " DROP TABLE public.source --.source WHERE source_key = " +:+ quote (cfg env "key")].
Proof.
  intros Henv Hk. unfold target_schema. rewrite (getenv_set _ _ _ _ Henv).
  generalize dependent (cfg env "key"). intros k Hk.
  eexists. split.
  - cbn [stmt_query fst snd]. unfold select_source_sql.
    rewrite (mogrify_lit "SELECT 1 FROM "), (mogrify_lit injected_schema) by done.
    cbn -[quote]. rewrite Hk. reflexivity.
  - unfold split_statements. cbn -[quote].
    rewrite split_aux_quote. simpl. by rewrite append_nil_r.
Qed.

Lemma stmt_query_roundtrip_witness :
  (plain_ident (stmt_schema (InsertSource "new_one" "AML Practice" "MY'CDM; --" "jdbc:x" "postgresql"))
     = true /\
   Forall (fun s => has_char "000" s = false)
     (stmt_texts (InsertSource "new_one" "AML Practice" "MY'CDM; --" "jdbc:x" "postgresql"))) /\
  exists txt,
    mogrify (stmt_query (InsertSource "new_one" "AML Practice" "MY'CDM; --" "jdbc:x" "postgresql")).1
      (stmt_query (InsertSource "new_one" "AML Practice" "MY'CDM; --" "jdbc:x" "postgresql")).2 =
      inr txt /\
    split_statements txt = [txt] /\
    parse_stmt txt = Some (InsertSource "new_one" "AML Practice" "MY'CDM; --" "jdbc:x" "postgresql").
Proof.
  assert (plain_ident "new_one" = true) as Hp by reflexivity.
  assert (Forall (fun s => has_char "000" s = false)
            ["AML Practice"; "MY'CDM; --"; "jdbc:x"; "postgresql"]) as Hs by repeat constructor.
  split; [split; [exact Hp|exact Hs]|].
  exact (stmt_query_roundtrip (InsertSource "new_one" "AML Practice" "MY'CDM; --" "jdbc:x" "postgresql")
           Hp Hs).
Defined.

Lemma schema_injection_witness :
  ((<["WEBAPI_DATASOURCE_OHDSI_SCHEMA" := injected_schema]> ∅ : gmap string string)
     !! "WEBAPI_DATASOURCE_OHDSI_SCHEMA" = Some injected_schema /\
   has_char "000" (cfg (<["WEBAPI_DATASOURCE_OHDSI_SCHEMA" := injected_schema]> ∅) "key") = false) /\
  exists txt,
    mogrify (stmt_query (SelectSourceByKey
        (target_schema (<["WEBAPI_DATASOURCE_OHDSI_SCHEMA" := injected_schema]> ∅))
        (cfg (<["WEBAPI_DATASOURCE_OHDSI_SCHEMA" := injected_schema]> ∅) "key"))).1
      (stmt_query (SelectSourceByKey
        (target_schema (<["WEBAPI_DATASOURCE_OHDSI_SCHEMA" := injected_schema]> ∅))
        (cfg (<["WEBAPI_DATASOURCE_OHDSI_SCHEMA" := injected_schema]> ∅) "key"))).2 = inr txt /\
    split_statements txt =
      ["SELECT 1 FROM public.source WHERE false";
       " DROP TABLE public.source --.source WHERE source_key = " +:+
         quote (cfg (<["WEBAPI_DATASOURCE_OHDSI_SCHEMA" := injected_schema]> ∅) "key")].
Proof.
  assert ((<["WEBAPI_DATASOURCE_OHDSI_SCHEMA" := injected_schema]> ∅ : gmap string string)
     !! "WEBAPI_DATASOURCE_OHDSI_SCHEMA" = Some injected_schema) as He by reflexivity.
  assert (has_char "000" (cfg (<["WEBAPI_DATASOURCE_OHDSI_SCHEMA" := injected_schema]> ∅) "key")
     = false) as Hk by reflexivity.
  split; [split; [exact He|exact Hk]|].
  exact (schema_injection _ He Hk).
Defined.

(** ** The statements of a run *)

(** Every value of the environment is free of NUL, as the environment of a
    process always is. *)
Definition env_nul_free (env : gmap string string) : Prop :=
  map_Forall (fun _ v => has_char "000" v = false) env.

Lemma getenv_nul_free env k d :
  env_nul_free env -> has_char "000" d = false -> has_char "000" (getenv env k d) = false.
Proof. intros He Hd. unfold getenv. destruct (env !! k) eqn:E; simpl; [by apply (He k)|done]. Qed.

Lemma cfg_nul_free env k : env_nul_free env -> has_char "000" (cfg env k) = false.
Proof.
  intros He. unfold cfg. destruct (source_config env !! k) as [v|] eqn:E; simpl; [|done].
  apply elem_of_list_to_map_2 in E.
  repeat (apply elem_of_cons in E as [E|E]; [simplify_eq; by apply getenv_nul_free|]).
  by apply not_elem_of_nil in E.
Qed.

(** Every statement a seeding sends goes over the wire faithfully. *)
Lemma seed_stmts_faithful env id :
  plain_ident (target_schema env) = true -> env_nul_free env ->
  Forall wire_faithful (seed_stmts env (target_schema env) id).
Proof.
  intros Hp He. pose proof (cfg_nul_free env) as Hc.
  repeat constructor; apply stmt_query_faithful; simpl; auto; repeat constructor; auto.
Qed.

(** C13. Composition of the SQL text model with the run of
    [load_source_table]: with the server reachable, no fault, a
    well-formed target schema named by a plain lower-case identifier, and
    an environment free of NUL, every statement the run executes, on the
    insert path as on the skip path, reaches the server as one statement
    that the server reads as the statement the model executed. *)
Theorem load_source_table_wire w sc st :
  w_faults w = [] -> w_accepts w (db_params (w_env w)) = true ->
  w_db w !! target_schema (w_env w) = Some sc -> wf_schema sc ->
  plain_ident (target_schema (w_env w)) = true -> env_nul_free (w_env w) ->
  EExecute st ∈ w_trace (load_source_table w).1 ->
  EExecute st ∈ w_trace w \/ wire_faithful st.
Proof.
  intros Hf Ha Hsc Hwf Hp He Hst.
  pose proof (seed_stmts_faithful (w_env w) (sc_next_id sc) Hp He) as Hall.
  destruct (filter (fun r => source_key r = cfg (w_env w) "key") (sc_source sc)) as [|r rs] eqn:Hk.
  - destruct (load_source_table_inserts_run w sc Hf Ha Hsc Hwf Hk) as (_ & _ & _ & Ht).
    rewrite Ht in Hst. rewrite !elem_of_app in Hst.
    destruct Hst as [?|[Hst|[Hst|Hst]]]; [by left|..].
    + apply list_elem_of_singleton in Hst. discriminate.
    + right. apply list_elem_of_fmap in Hst as (st' & [= ->] & Hin).
      by apply (proj1 (Forall_forall _ _) Hall).
    + repeat (apply elem_of_cons in Hst as [Hst|Hst]; [discriminate|]).
      by apply not_elem_of_nil in Hst.
  - destruct (load_source_table_skips_run w sc r rs Hf Ha Hsc Hk) as (_ & _ & _ & Ht).
    rewrite Ht, elem_of_app in Hst. destruct Hst as [?|Hst]; [by left|]. right.
    repeat (apply elem_of_cons in Hst as [Hst|Hst]; [try discriminate|]);
      [injection Hst as ->; by inversion Hall|by apply not_elem_of_nil in Hst].
Qed.

Lemma load_source_table_wire_witness :
  (w_faults demo_world = [] /\ w_accepts demo_world (db_params (w_env demo_world)) = true /\
   w_db demo_world !! target_schema (w_env demo_world) = Some demo_schema /\ wf_schema demo_schema /\
   plain_ident (target_schema (w_env demo_world)) = true /\ env_nul_free (w_env demo_world) /\
   EExecute (insert_source_stmt ∅ "new_one") ∈ w_trace (load_source_table demo_world).1) /\
  (EExecute (insert_source_stmt ∅ "new_one") ∈ w_trace demo_world \/
   wire_faithful (insert_source_stmt ∅ "new_one")).
Proof.
  assert (wf_schema demo_schema) as Hwf by (vm_compute; repeat constructor).
  assert (env_nul_free (w_env demo_world)) as He by apply map_Forall_empty.
  assert (EExecute (insert_source_stmt ∅ "new_one") ∈ w_trace (load_source_table demo_world).1) as Hin.
  { apply list_elem_of_In. vm_compute. right. right. left. reflexivity. }
  split; [split; [reflexivity|split; [reflexivity|split; [reflexivity|split; [exact Hwf|split; [reflexivity|split; [exact He|exact Hin]]]]]]|].
  exact (load_source_table_wire demo_world demo_schema _ eq_refl eq_refl eq_refl Hwf eq_refl He Hin).
Defined.
